(** * DopplerSky snapshot workers: a shallow embedding and its properties

    The development follows the Python sources:

    - [src/core/bluesky_client.py]      the provider client ([BlueskyClient]);
    - [src/services/database_service.py] the relational store ([DatabaseService]);
    - [src/services/post_service.py]    the post synchroniser ([PostService]);
    - [src/services/snapshot_service.py] the snapshot orchestrator;
    - [scripts/run_snapshots.py]        the runner and its run log.

    Python exceptions are values of [exn]; a call that may raise returns a
    [result].  The store is an explicit record of tables that is threaded
    through the database methods; a [with get_connection()] block works on a
    copy of a table that replaces the stored one at [conn.commit()] only.
    Everything outside the program (the HTTP transport, the clock, whether a
    connection can be opened, the identifiers the store draws) is a field of
    the environment [Env]. *)

From Stdlib Require Import List String Ascii ZArith Bool Arith Lia Permutation.
Import ListNotations.

Local Open Scope list_scope.
Local Open Scope string_scope.

(* ================================================================== *)
(** ** Exceptions and results *)
(* ================================================================== *)

(** The exception classes that occur in the sources or in the library calls
    they make.  [BlueskyAPIError] is the only class the repository declares
    (bluesky_client.py, line 19). *)
Inductive exn_class : Type :=
| BlueskyAPIError
| KeyError
| ValueError
| IndexError
| RecursionError
| OperationalError   (* psycopg2: the connection could not be opened *)
| IntegrityError.    (* psycopg2: a unique key was violated *)

Record exn : Type := Exn { exn_cls : exn_class; exn_msg : string }.

Inductive result (A : Type) : Type :=
| Ok (a : A)
| Raise (e : exn).

Arguments Ok {A} a.
Arguments Raise {A} e.

Definition bind {A B : Type} (r : result A) (k : A -> result B) : result B :=
  match r with
  | Ok a => k a
  | Raise e => Raise e
  end.

Declare Scope result_scope.
Delimit Scope result_scope with result.
Notation "x <- r ;; k" := (bind r (fun x => k))
  (at level 100, r at next level, right associativity) : result_scope.

(** [d[key]] on a dictionary whose key may be absent. *)
Definition getitem {A : Type} (key : string) (field : option A) : result A :=
  match field with
  | Some a => Ok a
  | None => Raise (Exn KeyError key)
  end.

(** [a or b] with Python's short circuit: [b] is evaluated (and may raise)
    only when [a] is false. *)
Definition py_or (a : bool) (b : result bool) : result bool :=
  if a then Ok true else b.

Definition is_ok {A : Type} (r : result A) : bool :=
  match r with Ok _ => true | Raise _ => false end.

(* ================================================================== *)
(** ** Dates and times *)
(* ================================================================== *)

(** An aware [datetime] in UTC. *)
Record datetime : Type := mkDatetime {
  year : Z; month : Z; day : Z;
  hour : Z; minute : Z; second : Z; microsecond : Z
}.

Definition digit_char (d : Z) : ascii := ascii_of_nat (48 + Z.to_nat d).

(** [n] written with [k] decimal digits, most significant first
    (Python's [%0kd]). *)
Fixpoint zpad (k : nat) (n : Z) : string :=
  match k with
  | O => EmptyString
  | S k' => String (digit_char ((n / 10 ^ Z.of_nat k') mod 10)) (zpad k' n)
  end.

(** [strftime('%Y-%m-%d')], which is also [str(dt)[0:10]]. *)
Definition date_str (t : datetime) : string :=
  zpad 4 (year t) ++ "-" ++ zpad 2 (month t) ++ "-" ++ zpad 2 (day t).

(** [str(dt)] for an aware UTC datetime:
    [YYYY-MM-DD HH:MM:SS[.ffffff]+00:00]. *)
Definition str_datetime (t : datetime) : string :=
  date_str t ++ " " ++ zpad 2 (hour t) ++ ":" ++ zpad 2 (minute t) ++ ":"
    ++ zpad 2 (second t)
    ++ (if (microsecond t =? 0)%Z then "" else "." ++ zpad 6 (microsecond t))
    ++ "+00:00".

(** The ISO rendering the provider uses for [createdAt]:
    [YYYY-MM-DDTHH:MM:SS.mmmZ]. *)
Definition iso_z (t : datetime) : string :=
  date_str t ++ "T" ++ zpad 2 (hour t) ++ ":" ++ zpad 2 (minute t) ++ ":"
    ++ zpad 2 (second t) ++ "." ++ zpad 3 (microsecond t / 1000) ++ "Z".

(** Chronological order of two UTC datetimes. *)
Definition dt_key (t : datetime) : list Z :=
  [year t; month t; day t; hour t; minute t; second t; microsecond t].

Fixpoint lex_ltb (a b : list Z) : bool :=
  match a, b with
  | x :: a', y :: b' => (x <? y)%Z || ((x =? y)%Z && lex_ltb a' b')
  | [], _ :: _ => true
  | _, [] => false
  end.

Definition dt_ltb (a b : datetime) : bool := lex_ltb (dt_key a) (dt_key b).
Definition dt_gtb (a b : datetime) : bool := dt_ltb b a.

(** Calendar arithmetic as in CPython's [datetime] module. *)
Definition _is_leap (y : Z) : bool :=
  ((y mod 4 =? 0) && (negb (y mod 100 =? 0) || (y mod 400 =? 0)))%Z.

Definition _days_before_year (y : Z) : Z :=
  let y1 := (y - 1)%Z in (y1 * 365 + y1 / 4 - y1 / 100 + y1 / 400)%Z.

Definition _DAYS_IN_MONTH : list Z :=
  [-1; 31; 28; 31; 30; 31; 30; 31; 31; 30; 31; 30; 31]%Z.

Definition _DAYS_BEFORE_MONTH : list Z :=
  [-1; 0; 31; 59; 90; 120; 151; 181; 212; 243; 273; 304; 334]%Z.

Definition _days_in_month (y m : Z) : Z :=
  if ((m =? 2)%Z && _is_leap y)%bool then 29%Z
  else nth (Z.to_nat m) _DAYS_IN_MONTH 0%Z.

Definition _days_before_month (y m : Z) : Z :=
  (nth (Z.to_nat m) _DAYS_BEFORE_MONTH 0
   + (if ((2 <? m) && _is_leap y)%bool then 1 else 0))%Z.

Definition _ymd2ord (y m d : Z) : Z :=
  (_days_before_year y + _days_before_month y m + d)%Z.

Definition _ord2ymd (n0 : Z) : Z * Z * Z :=
  let n := (n0 - 1)%Z in
  let n400 := (n / 146097)%Z in
  let n := (n mod 146097)%Z in
  let y := (n400 * 400 + 1)%Z in
  let n100 := (n / 36524)%Z in
  let n := (n mod 36524)%Z in
  let n4 := (n / 1461)%Z in
  let n := (n mod 1461)%Z in
  let n1 := (n / 365)%Z in
  let n := (n mod 365)%Z in
  let y := (y + n100 * 100 + n4 * 4 + n1)%Z in
  if ((n1 =? 4) || (n100 =? 4))%Z%bool then ((y - 1)%Z, 12%Z, 31%Z)
  else
    let leapyear := ((n1 =? 3)%Z && (negb (n4 =? 24)%Z || (n100 =? 3)%Z))%bool in
    let m := Z.shiftr (n + 50) 5 in
    let preceding :=
      (nth (Z.to_nat m) _DAYS_BEFORE_MONTH 0
       + (if ((2 <? m)%Z && leapyear)%bool then 1 else 0))%Z in
    if (n <? preceding)%Z then
      let m' := (m - 1)%Z in
      let preceding' :=
        (preceding - (nth (Z.to_nat m') _DAYS_IN_MONTH 0
                      + (if ((m' =? 2)%Z && leapyear)%bool then 1 else 0)))%Z in
      (y, m', (n - preceding' + 1)%Z)
    else (y, m, (n - preceding + 1)%Z).

Definition toordinal (t : datetime) : Z := _ymd2ord (year t) (month t) (day t).

(** [t - timedelta(days=n)]: the date moves, the time of day stays. *)
Definition minus_days (t : datetime) (n : Z) : datetime :=
  let '(y, m, d) := _ord2ymd (toordinal t - n) in
  mkDatetime y m d (hour t) (minute t) (second t) (microsecond t).

(** *** [datetime.strptime(s, '%Y-%m-%d')] *)

(** A string is a sequence of bytes, and a digit is one of the ten ASCII
    digits.  The provider's cursors and creation times are ASCII
    timestamps; on a string with a decimal digit of another script, which
    CPython's [%Y], [%m] and [%d] accept as well, or with a character of
    several bytes among its first ten, which [s[0:10]] counts as one,
    [strptime_ymd] and [first10] below do not follow the library. *)

Definition is_digit (c : ascii) : bool :=
  let n := nat_of_ascii c in (48 <=? n)%nat && (n <=? 57)%nat.

Definition digit_val (c : ascii) : Z := Z.of_nat (nat_of_ascii c - 48).

Definition in_range (c : ascii) (lo hi : nat) : bool :=
  let n := nat_of_ascii c in (lo <=? n)%nat && (n <=? hi)%nat.

(** The directive [%m]: [1[0-2]|0[1-9]|[1-9]], first alternative that
    matches. *)
Definition parse_month (s : string) : option (Z * string) :=
  match s with
  | String c1 (String c2 r) =>
      if Ascii.eqb c1 "1" && in_range c2 48 50 then Some (10 + digit_val c2, r)%Z
      else if Ascii.eqb c1 "0" && in_range c2 49 57 then Some (digit_val c2, r)
      else if in_range c1 49 57 then Some (digit_val c1, String c2 r)
      else None
  | String c1 EmptyString =>
      if in_range c1 49 57 then Some (digit_val c1, EmptyString) else None
  | EmptyString => None
  end.

(** The directive [%d]: [3[01]|[12]\d|0[1-9]|[1-9]| [1-9]]. *)
Definition parse_day (s : string) : option (Z * string) :=
  match s with
  | String c1 (String c2 r) =>
      if Ascii.eqb c1 "3" && in_range c2 48 49 then Some (30 + digit_val c2, r)%Z
      else if in_range c1 49 50 && is_digit c2
           then Some (10 * digit_val c1 + digit_val c2, r)%Z
      else if Ascii.eqb c1 "0" && in_range c2 49 57 then Some (digit_val c2, r)
      else if in_range c1 49 57 then Some (digit_val c1, String c2 r)
      else if Ascii.eqb c1 " " && in_range c2 49 57 then Some (digit_val c2, r)
      else None
  | String c1 EmptyString =>
      if in_range c1 49 57 then Some (digit_val c1, EmptyString) else None
  | EmptyString => None
  end.

Definition bad_date (s : string) : exn :=
  Exn ValueError ("time data " ++ s ++ " does not match format %Y-%m-%d").

Definition strptime_ymd (s : string) : result datetime :=
  match s with
  | String y1 (String y2 (String y3 (String y4 (String dash1 r1)))) =>
      if is_digit y1 && is_digit y2 && is_digit y3 && is_digit y4
         && Ascii.eqb dash1 "-"
      then
        let y := (1000 * digit_val y1 + 100 * digit_val y2
                  + 10 * digit_val y3 + digit_val y4)%Z in
        match parse_month r1 with
        | Some (m, String dash2 r2) =>
            if Ascii.eqb dash2 "-" then
              match parse_day r2 with
              | Some (d, EmptyString) =>
                  if ((1 <=? y) && (d <=? _days_in_month y m))%Z
                  then Ok (mkDatetime y m d 0 0 0 0)
                  else Raise (Exn ValueError "day is out of range for month")
              | _ => Raise (bad_date s)
              end
            else Raise (bad_date s)
        | _ => Raise (bad_date s)
        end
      else Raise (bad_date s)
  | _ => Raise (bad_date s)
  end.

(** [s[0:10]]. *)
Definition first10 (s : string) : string := substring 0 10 s.

(* ================================================================== *)
(** ** The provider's JSON, as far as the program reads it *)
(* ================================================================== *)

(** A JSON object is a record whose fields are optional: [None] is an absent
    key, on which [d[key]] raises [KeyError] and [d.get(key)] gives the
    default. *)

Record Author : Type := mkAuthor { author_did : option string }.

Record PostRecord : Type := mkPostRecord { createdAt : option string }.

(** A post view: the value of [post['post']], and also one row of the
    [DataFrame] the synchroniser accumulates.  Reading a key a row does not
    have raises [KeyError] here.  pandas agrees when no row of the frame has
    the key; on a key that other rows have, the cell of the row reads as
    NaN instead: for [record] the subscript of line 111 then raises, for
    [uri] the lookup of line 117 finds no stored row and the row is queued
    and inserted with the text of NaN as its URI.  The embedding does not
    follow a row without [uri] through the merge; a property of a working
    set that needs every row to have its URI says so in a hypothesis. *)
Record PostView : Type := mkPostView {
  uri : option string;
  author : option Author;
  record : option PostRecord;
  likeCount : option Z;
  replyCount : option Z;
  quoteCount : option Z;
  repostCount : option Z
}.

Record FeedViewPost : Type := mkFeedViewPost { post : option PostView }.

Record ProfileData : Type := mkProfileData {
  pd_did : option string;
  pd_handle : option string;
  pd_displayName : option string;
  pd_avatar : option string;
  pd_followersCount : option Z;
  pd_followsCount : option Z;
  pd_postsCount : option Z
}.

(** The decoded body of a response. *)
Record Response : Type := mkResponse {
  resp_feed : option (list FeedViewPost);
  resp_cursor : option string;
  resp_profiles : option (list ProfileData)
}.

(** [UserProfile] (bluesky_client.py, lines 8-16). *)
Record UserProfile : Type := mkUserProfile {
  profile_did : string;
  profile_handle : string;
  profile_display_name : option string;
  profile_avatar : option string;
  followers_count : Z;
  following_count : Z;
  posts_count : Z
}.

(* ================================================================== *)
(** ** The store *)
(* ================================================================== *)

(** A column value of a row fetched with [SELECT *]. *)
Inductive dbval : Type :=
| DNull
| DBool (b : bool)
| DInt (z : Z)
| DText (s : string).

(** Python's truth value of a fetched column. *)
Definition truthy (v : dbval) : bool :=
  match v with
  | DNull => false
  | DBool b => b
  | DInt z => negb (z =? 0)%Z
  | DText s => negb (s =? "")
  end.

(** A row of [users].  The columns the statements name are fields; the
    program reads the row by position ([did] 0, [handle] 1, [displayName] 2,
    [avatar] 3, the skip flag 7), so the columns from position 4 on are kept
    in order in [u_rest]. *)
Record UserRow : Type := mkUserRow {
  u_did : string;
  u_handle : string;
  u_displayName : option string;
  u_avatar : option string;
  u_rest : list dbval
}.

(** [user_data[i]] for [i >= 4]. *)
Definition user_column (u : UserRow) (i : nat) : result dbval :=
  match nth_error (u_rest u) (i - 4) with
  | Some v => Ok v
  | None => Raise (Exn IndexError "tuple index out of range")
  end.

Record PostRow : Type := mkPostRow {
  p_uri : string;
  p_did : string;
  p_likes : Z;
  p_replies : Z;
  p_quotes : Z;
  p_reposts : Z;
  p_createdAt : string;
  p_updatedAt : datetime
}.

Record SnapshotRow : Type := mkSnapshotRow {
  s_uuid : string;
  s_followers : Z;
  s_following : Z;
  s_posts : Z;
  s_date : string;
  s_did : string;
  s_likes : Z;
  s_replies : Z;
  s_quotes : Z;
  s_reposts : Z
}.

Inductive log_status : Type := in_progress | completed.

Record LogRow : Type := mkLogRow {
  l_status : log_status;
  l_time_started : datetime;
  l_time_completed : datetime;
  l_duration : option Z;
  l_total_users : Z;
  l_id : Z
}.

Record ViewRow : Type := mkViewRow { v_did : string; v_date : Z (* ordinal day *) }.

Record Store : Type := mkStore {
  users_table : list UserRow;
  views_table : list ViewRow;
  posts_table : list PostRow;
  snapshots_table : list SnapshotRow;
  snapshot_logs_table : list LogRow
}.

Definition set_users (st : Store) (t : list UserRow) : Store :=
  mkStore t (views_table st) (posts_table st) (snapshots_table st) (snapshot_logs_table st).
Definition set_posts (st : Store) (t : list PostRow) : Store :=
  mkStore (users_table st) (views_table st) t (snapshots_table st) (snapshot_logs_table st).
Definition set_snapshots (st : Store) (t : list SnapshotRow) : Store :=
  mkStore (users_table st) (views_table st) (posts_table st) t (snapshot_logs_table st).
Definition set_snapshot_logs (st : Store) (t : list LogRow) : Store :=
  mkStore (users_table st) (views_table st) (posts_table st) (snapshots_table st) t.

(** A table is the list of its rows in the order in which a [SELECT]
    without [ORDER BY] returns them.  SQL fixes no such order; the store
    the program runs on appends what an [INSERT] adds and writes a new
    version of every row an [UPDATE] changes, so that a later scan returns
    the rows the [WHERE] clause did not select, in the order they had,
    followed by the new versions of the rows it selected.  What a
    statement does to the rows of a table is stated below by membership
    and counting, not by the place of a row. *)
Definition sql_update {A : Type} (where_ : A -> bool) (set_ : A -> A) (t : list A)
  : list A :=
  (filter (fun r => negb (where_ r)) t ++ map set_ (filter where_ t))%list.

(** [SnapshotData] (database_service.py, lines 21-33). *)
Record SnapshotData : Type := mkSnapshotData {
  sd_did : string;
  sd_handle : string;
  sd_date : string;
  sd_followers : Z;
  sd_following : Z;
  sd_posts : Z;
  sd_likes : Z;
  sd_replies : Z;
  sd_quotes : Z;
  sd_reposts : Z
}.

(** The engagement dictionary [{'likes', 'replies', 'quotes', 'reposts'}]. *)
Record Engagement : Type := mkEngagement {
  e_likes : Z; e_replies : Z; e_quotes : Z; e_reposts : Z
}.

(* ================================================================== *)
(** ** The environment *)
(* ================================================================== *)

(** The places where the program opens a connection. *)
Inductive db_call : Type :=
| CallGetActiveUsers
| CallGetEngagementTotals (d : string)
| CallGetUserByDid (d : string)
| CallUpdateUserProfile (d : string)
| CallUpsertSnapshot (d : string)
| CallUpdatePosts (d : string)
| CallCreateSnapshotLog
| CallUpdateSnapshotLog.

Record Env : Type := mkEnv {
  (** [requests.get(url)] followed by [raise_for_status()] and [json()]:
      the text of a [RequestException], or the decoded body. *)
  requests_get : string -> string + Response;
  base_url : string;
  (** [datetime.now(timezone.utc)] and the two readings of [time.time()]. *)
  utc_now : datetime;
  time_start : Z;
  time_end : Z;
  (** Whether [psycopg2.connect] succeeds for a call. *)
  connect : db_call -> bool;
  (** The store's comparison ["createdAt" > %s] of a stored creation time
      with a date parameter; the column's type is part of the schema. *)
  sql_created_after : string -> string -> bool;
  (** The value of [gen_random_uuid()] for the n-th row of [snapshots]. *)
  gen_random_uuid : nat -> string;
  (** How many nested calls of [get_posts_for_actor] the interpreter's
      stack has room for. *)
  recursion_limit : nat
}.

(** A database method: it may raise, and it leaves a store behind. *)
Definition M (A : Type) : Type := Store -> result A * Store.

Definition ret {A : Type} (a : A) : M A := fun st => (Ok a, st).

Definition throw {A : Type} (e : exn) : M A := fun st => (Raise e, st).

Definition mbind {A B : Type} (m : M A) (k : A -> M B) : M B :=
  fun st =>
    match m st with
    | (Ok a, st') => k a st'
    | (Raise e, st') => (Raise e, st')
    end.

(** [try: body except Exception: handler]. *)
Definition try_except {A : Type} (body : M A) (handler : exn -> M A) : M A :=
  fun st =>
    match body st with
    | (Ok a, st') => (Ok a, st')
    | (Raise e, st') => handler e st'
    end.

Definition lift {A : Type} (r : result A) : M A := fun st => (r, st).

Declare Scope store_scope.
Delimit Scope store_scope with store.
Notation "x <~ m ;; k" := (mbind m (fun x => k))
  (at level 100, m at next level, right associativity) : store_scope.

Section Program.

Variable env : Env.

(* ================================================================== *)
(** ** bluesky_client.py *)
(* ================================================================== *)

(** [BlueskyClient._call_endpoint] (lines 31-43). *)
Definition _call_endpoint (path params : string) : result Response :=
  let url := base_url env ++ "/xrpc/" ++ path in
  let url := if params =? "" then url else url ++ "?" ++ params in
  match requests_get env url with
  | inr body => Ok body
  | inl e => Raise (Exn BlueskyAPIError ("Failed to call " ++ path ++ ": " ++ e))
  end.

Definition or_default (o : option Z) (d : Z) : Z :=
  match o with Some z => z | None => d end.

(** The body of the loop of [get_profiles] (lines 58-67). *)
Definition make_profile (profile_data : ProfileData) : result UserProfile :=
  (d <- getitem "did" (pd_did profile_data) ;;
   h <- getitem "handle" (pd_handle profile_data) ;;
   Ok (mkUserProfile d h
         (pd_displayName profile_data)
         (pd_avatar profile_data)
         (or_default (pd_followersCount profile_data) 0)
         (or_default (pd_followsCount profile_data) 0)
         (or_default (pd_postsCount profile_data) 0)))%result.

Fixpoint make_profiles (l : list ProfileData) : result (list UserProfile) :=
  match l with
  | [] => Ok []
  | profile_data :: l' =>
      (p <- make_profile profile_data ;;
       ps <- make_profiles l' ;;
       Ok (p :: ps))%result
  end.

(** [BlueskyClient.get_profiles] (lines 45-73).  The handler of
    [BlueskyAPIError] logs and raises the same exception again. *)
Definition get_profiles (dids : list string) : result (list UserProfile) :=
  match dids with
  | [] => Ok []
  | _ =>
      let params := String.concat "&" (map (fun d => "actors=" ++ d) dids) in
      (response <- _call_endpoint "app.bsky.actor.getProfiles" params ;;
       make_profiles (match resp_profiles response with Some l => l | None => [] end))%result
  end.

(** [BlueskyClient.get_single_profile] (lines 75-80). *)
Definition get_single_profile (actor : string) : result UserProfile :=
  (profiles <- get_profiles [actor] ;;
   match profiles with
   | [] => Raise (Exn BlueskyAPIError ("No profile found for " ++ actor))
   | p :: _ => Ok p
   end)%result.

(* ================================================================== *)
(** ** database_service.py *)
(* ================================================================== *)

(** [with self.get_connection() as conn] (lines 43-63): opening the
    connection may fail. *)
Definition get_connection {A : Type} (c : db_call) (body : M A) : M A :=
  fun st =>
    if connect env c then body st
    else throw (Exn OperationalError "could not connect to server") st.

(** *** [get_active_users] (lines 77-93) *)

Definition pair_eqb (a b : string * string) : bool :=
  (fst a =? fst b) && (snd a =? snd b).

(** [SELECT DISTINCT]: the first of equal rows is kept. *)
Fixpoint distinct (l : list (string * string)) : list (string * string) :=
  match l with
  | [] => []
  | x :: l' => x :: filter (fun y => negb (pair_eqb x y)) (distinct l')
  end.

Fixpoint insert_by_handle (x : string * string) (l : list (string * string))
  : list (string * string) :=
  match l with
  | [] => [x]
  | y :: l' => if (snd x <=? snd y) then x :: l else y :: insert_by_handle x l'
  end.

(** [ORDER BY u.handle]. *)
Definition order_by_handle (l : list (string * string)) : list (string * string) :=
  fold_right insert_by_handle [] l.

Definition active_users_query (use_simple_query : bool) (st : Store)
  : list (string * string) :=
  if use_simple_query then map (fun u => (u_did u, u_handle u)) (users_table st)
  else
    let today := toordinal (utc_now env) in
    let joined :=
      flat_map (fun u =>
                  map (fun _ => (u_did u, u_handle u))
                    (filter (fun v => (v_did v =? u_did u)
                                      && (today - 7 <=? v_date v)%Z)
                       (views_table st)))
        (users_table st) in
    order_by_handle (distinct joined).

Definition get_active_users (use_simple_query : bool) : M (list (string * string)) :=
  get_connection CallGetActiveUsers
    (fun st => (Ok (active_users_query use_simple_query st), st)).

(** *** [get_engagement_totals] (lines 95-118) *)

Definition sum_of (f : PostRow -> Z) (rows : list PostRow) : Z :=
  fold_right (fun r acc => (f r + acc)%Z) 0%Z rows.

(** The query: one group for the account when it has rows, no row at all
    otherwise. *)
Definition engagement_query (d : string) (t : list PostRow) : option (Z * Z * Z * Z) :=
  match filter (fun r => p_did r =? d) t with
  | [] => None
  | rows => Some (sum_of p_likes rows, sum_of p_replies rows,
                  sum_of p_quotes rows, sum_of p_reposts rows)
  end.

(** [x or 0]. *)
Definition or_zero (x : Z) : Z := if (x =? 0)%Z then 0%Z else x.

Definition get_engagement_totals (d : string) : M Engagement :=
  get_connection (CallGetEngagementTotals d)
    (fun st =>
       match engagement_query d (posts_table st) with
       | Some (l, r, q, rp) =>
           (Ok (mkEngagement (or_zero l) (or_zero r) (or_zero q) (or_zero rp)), st)
       | None => (Ok (mkEngagement 0 0 0 0), st)
       end).

(** *** [get_user_by_did] (lines 120-127) *)

Definition get_user_by_did (d : string) : M (option UserRow) :=
  get_connection (CallGetUserByDid d)
    (fun st => (Ok (find (fun u => u_did u =? d) (users_table st)), st)).

(** *** [update_user_profile] (lines 129-145) *)

(** [UPDATE users SET handle, "displayName", avatar WHERE did]. *)
Definition update_user_sql (profile : UserProfile) (t : list UserRow) : list UserRow :=
  sql_update (fun u => u_did u =? profile_did profile)
    (fun u => mkUserRow (u_did u) (profile_handle profile) (profile_display_name profile)
                (profile_avatar profile) (u_rest u)) t.

Definition update_user_profile (profile : UserProfile) : M unit :=
  get_connection (CallUpdateUserProfile (profile_did profile))
    (fun st => (Ok tt, set_users st (update_user_sql profile (users_table st)))).

(** *** [upsert_snapshot] (lines 147-171) *)

(** The conflict target [(did, date)]. *)
Definition conflicts (s : SnapshotData) (r : SnapshotRow) : bool :=
  (s_did r =? sd_did s) && (s_date r =? sd_date s).

(** [DO UPDATE SET ... = EXCLUDED. ...]: the seven counters are replaced;
    [uuid], [did] and [date] stay. *)
Definition do_update (s : SnapshotData) (r : SnapshotRow) : SnapshotRow :=
  mkSnapshotRow (s_uuid r) (sd_followers s) (sd_following s) (sd_posts s)
    (s_date r) (s_did r) (sd_likes s) (sd_replies s) (sd_quotes s) (sd_reposts s).

Definition excluded (u : string) (s : SnapshotData) : SnapshotRow :=
  mkSnapshotRow u (sd_followers s) (sd_following s) (sd_posts s)
    (sd_date s) (sd_did s) (sd_likes s) (sd_replies s) (sd_quotes s) (sd_reposts s).

(** [INSERT ... ON CONFLICT (did, date) DO UPDATE SET ...], where [u] is
    the value [gen_random_uuid()] drew for the proposed row. *)
Definition upsert_snapshot_sql (u : string) (s : SnapshotData) (t : list SnapshotRow)
  : list SnapshotRow :=
  if existsb (conflicts s) t
  then sql_update (conflicts s) (do_update s) t
  else (t ++ [excluded u s])%list.

Definition upsert_snapshot (snapshot : SnapshotData) : M unit :=
  get_connection (CallUpsertSnapshot (sd_did snapshot))
    (fun st =>
       let u := gen_random_uuid env (List.length (snapshots_table st)) in
       (Ok tt, set_snapshots st (upsert_snapshot_sql u snapshot (snapshots_table st)))).

(** *** [create_snapshot_log] and [update_snapshot_log] (lines 173-206) *)

Definition create_snapshot_log : M Z :=
  get_connection CallCreateSnapshotLog
    (fun st =>
       let date := utc_now env in
       let log_id := (Z.of_nat (List.length (snapshot_logs_table st)) + 1)%Z in
       (Ok log_id,
        set_snapshot_logs st
          (snapshot_logs_table st ++ [mkLogRow in_progress date date None 0 log_id])%list)).

Definition update_log_sql (date : datetime) (log_id duration total_users : Z)
  (t : list LogRow) : list LogRow :=
  sql_update (fun l => (l_id l =? log_id)%Z)
    (fun l => mkLogRow completed (l_time_started l) date (Some duration)
                total_users (l_id l)) t.

Definition update_snapshot_log (log_id duration total_users : Z) : M unit :=
  get_connection CallUpdateSnapshotLog
    (fun st =>
       (Ok tt,
        set_snapshot_logs st
          (update_log_sql (utc_now env) log_id duration total_users
             (snapshot_logs_table st)))).

(* ================================================================== *)
(** ** post_service.py *)
(* ================================================================== *)

(** *** [get_posts_for_actor] (lines 18-58) *)

(** What the [try] block of one call does: it returns, or it raises while
    the local variable [posts] has the given value. *)
Inductive outcome : Type :=
| Return (posts : list PostView)
| Raised (posts : list PostView) (e : exn).

(** [except Exception as e: ... return posts] (lines 56-58). *)
Definition except_return_posts (o : outcome) : result (list PostView) :=
  match o with
  | Return posts => Ok posts
  | Raised posts _ => Ok posts
  end.

(** [post['post']] together with [post['post']['author']['did']]. *)
Definition post_and_author (item : FeedViewPost) : result (PostView * string) :=
  (p <- getitem "post" (post item) ;;
   a <- getitem "author" (author p) ;;
   d <- getitem "did" (author_did a) ;;
   Ok (p, d))%result.

(** The loop of lines 34-37: the entries the actor wrote are appended to
    [posts]; an entry that cannot be read stops the loop with what was
    appended before it. *)
Fixpoint filter_by_actor (actor : string) (items : list FeedViewPost)
  (posts : list PostView) : list PostView * option exn :=
  match items with
  | [] => (posts, None)
  | item :: items' =>
      match post_and_author item with
      | Raise e => (posts, Some e)
      | Ok (p, d) =>
          filter_by_actor actor items'
            (if d =? actor then (posts ++ [p])%list else posts)
      end
  end.

(** The recency cutoff [now - timedelta(days=7)]. *)
Definition time_range : datetime := minus_days (utc_now env) 7.

Fixpoint get_posts_for_actor (depth : nat) (actor cursor : string)
  (posts : list PostView) (fetch_all : bool) : result (list PostView) :=
  match depth with
  | O => Raise (Exn RecursionError "maximum recursion depth exceeded")
  | S depth' =>
      except_return_posts
        match _call_endpoint "app.bsky.feed.getAuthorFeed"
                ("actor=" ++ actor ++ "&cursor=" ++ cursor ++ "&limit=100") with
        | Raise e => Raised posts e
        | Ok response =>
            match getitem "feed" (resp_feed response) with
            | Raise e => Raised posts e
            | Ok items =>
                match filter_by_actor actor items posts with
                | (posts, Some e) => Raised posts e
                | (posts, None) =>
                    let recurse next :=
                      match get_posts_for_actor depth' actor next posts fetch_all with
                      | Ok posts' => Return posts'
                      | Raise e => Raised posts e
                      end in
                    match resp_cursor response with
                    | Some next =>
                        if (Z.of_nat (List.length posts) <? 10000)%Z then
                          if fetch_all then recurse next
                          else
                            match strptime_ymd (first10 next) with
                            | Raise e => Raised posts e
                            | Ok cursor_datetime =>
                                if dt_gtb cursor_datetime time_range
                                then recurse next
                                else Return posts
                            end
                        else Return posts
                    | None => Return posts
                    end
                end
            end
        end
  end.

(** *** [update_posts_for_actor] (lines 60-174) *)

(** The statements the method sends through [safe_execute]. *)
Inductive stmt : Type :=
| UpdatePost (likes replies quotes reposts : Z) (updatedAt : datetime) (u : string)
| InsertPost (row : PostRow).

(** The URI a statement writes. *)
Definition stmt_uri (q : stmt) : string :=
  match q with
  | UpdatePost _ _ _ _ _ u => u
  | InsertPost row => p_uri row
  end.

(** The open transaction: the table as the connection sees it, and the
    statements executed so far. *)
Record txn : Type := mkTxn { tx_posts : list PostRow; tx_log : list stmt }.

(** [UPDATE posts SET likes, replies, quotes, reposts, "updatedAt" WHERE uri]. *)
Definition update_post_sql (likes replies quotes reposts : Z) (updatedAt : datetime)
  (u : string) (t : list PostRow) : list PostRow :=
  sql_update (fun r => p_uri r =? u)
    (fun r => mkPostRow (p_uri r) (p_did r) likes replies quotes reposts
                (p_createdAt r) updatedAt) t.

(** Modelled from the spec: the unique key of [posts] on [uri] ("unique key
    on URI for posts"); the schema is not among the sources.  An [INSERT]
    of a URI the table holds raises. *)
Definition insert_post_sql (row : PostRow) (t : list PostRow) : result (list PostRow) :=
  if existsb (fun r => p_uri r =? p_uri row) t
  then Raise (Exn IntegrityError "duplicate key value violates unique constraint")
  else Ok (t ++ [row])%list.

(** [DatabaseService.safe_execute] (database_service.py, lines 65-75) on
    the two statements: the error is logged and raised again. *)
Definition safe_execute (q : stmt) (c : txn) : result txn :=
  match q with
  | UpdatePost l r qu rp now u =>
      Ok (mkTxn (update_post_sql l r qu rp now u (tx_posts c)) (tx_log c ++ [q])%list)
  | InsertPost row =>
      (t <- insert_post_sql row (tx_posts c) ;;
       Ok (mkTxn t (tx_log c ++ [q])%list))%result
  end.

(** [posts.drop_duplicates(subset=['uri'])]: the first row of each URI is
    kept.  A frame none of whose rows has the key has no such column. *)
Definition opt_eqb (a b : option string) : bool :=
  match a, b with
  | Some x, Some y => x =? y
  | None, None => true
  | _, _ => false
  end.

Fixpoint keep_first (rows : list PostView) : list PostView :=
  match rows with
  | [] => []
  | r :: rows' => r :: filter (fun x => negb (opt_eqb (uri x) (uri r))) (keep_first rows')
  end.

Definition no_uri (r : PostView) : bool :=
  match uri r with Some _ => false | None => true end.

Definition drop_duplicates (rows : list PostView) : result (list PostView) :=
  if forallb no_uri rows then Raise (Exn KeyError "uri") else Ok (keep_first rows).

(** The cutoff as the method compares it: [str(time_range)[0:10]]. *)
Definition cutoff_date : string := first10 (str_datetime time_range).

(** The state of the loop of lines 110-149. *)
Record merge_state : Type := mkMergeState {
  ms_txn : txn;
  posts_to_insert : list PostRow;
  posts_updated : nat
}.

(** [row['record']['createdAt']]. *)
Definition row_createdAt (row : PostView) : result string :=
  (r <- getitem "record" (record row) ;; getitem "createdAt" (createdAt r))%result.

(** The test of line 114. *)
Definition skips (update_all : bool) (post_created_at : string) : bool :=
  negb update_all && (post_created_at <=? cutoff_date).

(** The test of lines 122-125. *)
Definition engagement_changed (existing_row : PostRow) (row : PostView) : result bool :=
  (l <- getitem "likeCount" (likeCount row) ;;
   py_or (negb (p_likes existing_row =? l)%Z)
     (r <- getitem "replyCount" (replyCount row) ;;
      py_or (negb (p_replies existing_row =? r)%Z)
        (q <- getitem "quoteCount" (quoteCount row) ;;
         py_or (negb (p_quotes existing_row =? q)%Z)
           (rp <- getitem "repostCount" (repostCount row) ;;
            Ok (negb (p_reposts existing_row =? rp)%Z)))))%result.

(** One iteration of the loop of lines 110-149.  A row that came without
    [uri] raises [KeyError] at line 117 here; see [PostView] for what pandas
    does with it. *)
Definition merge_row (update_all : bool) (tracked_posts : list PostRow)
  (row : PostView) (ms : merge_state) : result merge_state :=
  (post_created_at <- row_createdAt row ;;
   if skips update_all post_created_at then Ok ms
   else
     u <- getitem "uri" (uri row) ;;
     match filter (fun t => p_uri t =? u) tracked_posts with
     | existing_row :: _ =>
         changed <- engagement_changed existing_row row ;;
         if changed then
           l <- getitem "likeCount" (likeCount row) ;;
           r <- getitem "replyCount" (replyCount row) ;;
           q <- getitem "quoteCount" (quoteCount row) ;;
           rp <- getitem "repostCount" (repostCount row) ;;
           c <- safe_execute (UpdatePost l r q rp (utc_now env) u) (ms_txn ms) ;;
           Ok (mkMergeState c (posts_to_insert ms) (S (posts_updated ms)))
         else Ok ms
     | [] =>
         a <- getitem "author" (author row) ;;
         d <- getitem "did" (author_did a) ;;
         l <- getitem "likeCount" (likeCount row) ;;
         r <- getitem "replyCount" (replyCount row) ;;
         q <- getitem "quoteCount" (quoteCount row) ;;
         rp <- getitem "repostCount" (repostCount row) ;;
         Ok (mkMergeState (ms_txn ms)
               (posts_to_insert ms
                  ++ [mkPostRow u d l r q rp post_created_at (utc_now env)])%list
               (posts_updated ms))
     end)%result.

Fixpoint merge_rows (update_all : bool) (tracked_posts : list PostRow)
  (rows : list PostView) (ms : merge_state) : result merge_state :=
  match rows with
  | [] => Ok ms
  | row :: rows' =>
      (ms' <- merge_row update_all tracked_posts row ms ;;
       merge_rows update_all tracked_posts rows' ms')%result
  end.

(** The loop of lines 160-165. *)
Fixpoint insert_all (to_insert : list PostRow) (c : txn) : result txn :=
  match to_insert with
  | [] => Ok c
  | post_data :: rest =>
      (c' <- safe_execute (InsertPost post_data) c ;; insert_all rest c')%result
  end.

(** The two [SELECT]s of lines 66-71 and 90-98. *)
Definition count_posts (d : string) (t : list PostRow) : nat :=
  List.length (filter (fun r => p_did r =? d) t).

Definition select_tracked (d : string) (update_all : bool) (t : list PostRow)
  : list PostRow :=
  if update_all then filter (fun r => p_did r =? d) t
  else filter (fun r => (p_did r =? d)
                        && sql_created_after env (p_createdAt r) cutoff_date) t.

(** The mode of the fetch (lines 74-77). *)
Definition fetch_mode (num_posts : nat) (update_all : bool) : bool :=
  if (num_posts =? 0)%nat then true else update_all.

(** The working set the method fetches. *)
Definition fetch_posts (d : string) (update_all : bool) (t : list PostRow)
  : result (list PostView) :=
  get_posts_for_actor (recursion_limit env) d "" []
    (fetch_mode (count_posts d t) update_all).

(** Lines 82-165 on a working set that is not empty: the transaction as it
    stands when [conn.commit()] is reached. *)
Definition merge_posts (d : string) (update_all : bool) (t : list PostRow)
  (fetched : list PostView) : result txn :=
  (rows <- drop_duplicates fetched ;;
   let tracked_posts := select_tracked d update_all t in
   ms <- merge_rows update_all tracked_posts rows (mkMergeState (mkTxn t []) [] 0) ;;
   insert_all (posts_to_insert ms) (ms_txn ms))%result.

(** The body of the [with] block: [None] is the early [return] of line 80,
    which commits nothing. *)
Definition sync_transaction (d : string) (update_all : bool) (t : list PostRow)
  : result (option txn) :=
  (fetched <- fetch_posts d update_all t ;;
   match fetched with
   | [] => Ok None
   | _ => c <- merge_posts d update_all t fetched ;; Ok (Some c)
   end)%result.

(** [PostService.update_posts_for_actor]: an exception leaves the block
    before [conn.commit()], so nothing of the transaction is kept, and the
    handler of lines 172-174 raises it again. *)
Definition update_posts_for_actor (d : string) (update_all : bool) : M unit :=
  get_connection (CallUpdatePosts d)
    (fun st =>
       match sync_transaction d update_all (posts_table st) with
       | Raise e => (Raise e, st)
       | Ok None => (Ok tt, st)
       | Ok (Some c) => (Ok tt, set_posts st (tx_posts c))
       end).

(* ================================================================== *)
(** ** snapshot_service.py *)
(* ================================================================== *)

(** [_should_update_user] (lines 75-86). *)
Definition opt_neqb (a b : option string) : bool := negb (opt_eqb a b).

Definition _should_update_user (profile : UserProfile) (user_data : UserRow) : bool :=
  negb (profile_handle profile =? u_handle user_data)
  || opt_neqb (profile_display_name profile) (u_displayName user_data)
  || opt_neqb (profile_avatar profile) (u_avatar user_data).

(** The [try] block of [process_user_profile] (lines 28-69). *)
Definition process_user_profile_body (profile : UserProfile) (curr_date : string)
  : M (option SnapshotData) :=
  (user_data <~ get_user_by_did (profile_did profile) ;;
   match user_data with
   | None => ret None
   | Some user_data =>
       skip_user <~ lift (user_column user_data 7) ;;
       if truthy skip_user then ret None
       else
         _ <~ (if _should_update_user profile user_data
               then update_user_profile profile
               else ret tt) ;;
         _ <~ update_posts_for_actor (profile_did profile) false ;;
         engagement <~ get_engagement_totals (profile_did profile) ;;
         let snapshot :=
           mkSnapshotData (profile_did profile) (profile_handle profile) curr_date
             (followers_count profile) (following_count profile) (posts_count profile)
             (e_likes engagement) (e_replies engagement)
             (e_quotes engagement) (e_reposts engagement) in
         _ <~ upsert_snapshot snapshot ;;
         ret (Some snapshot)
   end)%store.

(** [SnapshotService.process_user_profile] (lines 25-73). *)
Definition process_user_profile (profile : UserProfile) (curr_date : string)
  : M (option SnapshotData) :=
  try_except (process_user_profile_body profile curr_date) (fun _ => ret None).

(** [_chunk_users] (lines 135-139); [fuel] bounds the number of chunks. *)
Fixpoint chunks_of {A : Type} (fuel chunk_size : nat) (l : list A) : list (list A) :=
  match fuel with
  | O => []
  | S fuel' =>
      match l with
      | [] => []
      | _ => firstn chunk_size l :: chunks_of fuel' chunk_size (skipn chunk_size l)
      end
  end.

Definition _chunk_users {A : Type} (users : list A) (chunk_size : nat) : list (list A) :=
  chunks_of (List.length users) chunk_size users.

(** The loop of lines 105-112: a chunk whose fetch raises adds nothing. *)
Fixpoint collect_profiles (user_chunks : list (list (string * string)))
  (all_profiles : list UserProfile) : list UserProfile :=
  match user_chunks with
  | [] => all_profiles
  | chunk :: rest =>
      let dids := map fst chunk in
      match get_profiles dids with
      | Ok profiles => collect_profiles rest (all_profiles ++ profiles)%list
      | Raise _ => collect_profiles rest all_profiles
      end
  end.

(** The tasks of lines 118-122, run one after the other in the order they
    were submitted; the list holds what each future gives. *)
Fixpoint run_tasks (all_profiles : list UserProfile) (curr_date : string)
  : M (list (result (option SnapshotData))) :=
  match all_profiles with
  | [] => ret []
  | profile :: rest =>
      fun st =>
        let (r, st') := process_user_profile profile curr_date st in
        match run_tasks rest curr_date st' with
        | (Ok rs, st'') => (Ok (r :: rs), st'')
        | (Raise e, st'') => (Raise e, st'')
        end
  end.

(** The loop of lines 124-130 over the futures. *)
Fixpoint count_processed (futures : list (result (option SnapshotData))) : Z :=
  match futures with
  | [] => 0%Z
  | Ok (Some _) :: rest => (1 + count_processed rest)%Z
  | _ :: rest => count_processed rest
  end.

(** [SnapshotService.create_snapshots_batch] (lines 88-133). *)
Definition create_snapshots_batch (use_simple_query : bool) : M Z :=
  (let curr_date := date_str (utc_now env) in
   users <~ get_active_users use_simple_query ;;
   match users with
   | [] => ret 0%Z
   | _ =>
       let user_chunks := _chunk_users users 25 in
       let all_profiles := collect_profiles user_chunks [] in
       futures <~ run_tasks all_profiles curr_date ;;
       ret (count_processed futures)
   end)%store.

(* ================================================================== *)
(** ** scripts/run_snapshots.py *)
(* ================================================================== *)

(** [SnapshotRunner.run_snapshot_collection] (lines 51-78): the handler
    logs and raises again. *)
Definition run_snapshot_collection (use_simple_query : bool) : M unit :=
  (log_id <~ create_snapshot_log ;;
   total_users_processed <~ create_snapshots_batch use_simple_query ;;
   let duration := (time_end env - time_start env)%Z in
   update_snapshot_log log_id duration total_users_processed)%store.

End Program.

(* ================================================================== *)
(** ** Stated properties: definitions *)
(* ================================================================== *)

(** The rows of [snapshots] for one account and one day. *)
Definition rows_for (d date : string) (t : list SnapshotRow) : list SnapshotRow :=
  filter (fun r => (s_did r =? d) && (s_date r =? date)) t.

(** At most one snapshot row for every account and day. *)
Definition unique_snapshots (t : list SnapshotRow) : Prop :=
  forall d date, (List.length (rows_for d date t) <= 1)%nat.

(** The counters of a snapshot row are those of a snapshot. *)
Definition holds_counters (s : SnapshotData) (r : SnapshotRow) : Prop :=
  s_followers r = sd_followers s /\ s_following r = sd_following s
  /\ s_posts r = sd_posts s /\ s_likes r = sd_likes s
  /\ s_replies r = sd_replies s /\ s_quotes r = sd_quotes s
  /\ s_reposts r = sd_reposts s.


(** The totals as the specification words them: each counter summed over
    the stored posts of the account, one post after the other. *)
Definition spec_total (f : PostRow -> Z) (d : string) (t : list PostRow) : Z :=
  fold_left (fun acc r => if p_did r =? d then (acc + f r)%Z else acc) t 0%Z.

(** A relation between the store before and after a method holds for
    every run of the method. *)
Definition preserves {A : Type} (R : Store -> Store -> Prop) (m : M A) : Prop :=
  forall st, R st (snd (m st)).

(** What the per-account work leaves alone: the run log and the views; and
    it keeps [snapshots] free of duplicate keys. *)
Definition frame (st st' : Store) : Prop :=
  snapshot_logs_table st' = snapshot_logs_table st
  /\ views_table st' = views_table st
  /\ (unique_snapshots (snapshots_table st) -> unique_snapshots (snapshots_table st')).

(** The author of a post view is the actor. *)
Definition written_by (actor : string) (p : PostView) : bool :=
  match author p with
  | Some a => match author_did a with Some d => d =? actor | None => false end
  | None => false
  end.

(** The query string of one page of the author feed (line 27). *)
Definition feed_params (actor cursor : string) : string :=
  "actor=" ++ actor ++ "&cursor=" ++ cursor ++ "&limit=100".

(** The URL [get_single_profile] requests. *)
Definition single_profile_url (env : Env) (actor : string) : string :=
  base_url env ++ "/xrpc/app.bsky.actor.getProfiles?actors=" ++ actor.

(** C8 as it is stated: the error of a lookup without a match is of another
    kind than the error of a failed transport. *)
Definition not_found_is_a_distinct_kind : Prop :=
  forall (env env' : Env) (actor : string) (e e' : exn) (msg : string),
    get_profiles env [actor] = Ok [] ->
    get_single_profile env actor = Raise e ->
    requests_get env' (single_profile_url env' actor) = inl msg ->
    get_single_profile env' actor = Raise e' ->
    exn_cls e <> exn_cls e'.

(** The profiles of the chunks whose fetch succeeded, in order. *)
Definition successful_profiles (env : Env) (user_chunks : list (list (string * string)))
  : list UserProfile :=
  flat_map (fun chunk =>
              match get_profiles env (map fst chunk) with
              | Ok profiles => profiles
              | Raise _ => []
              end) user_chunks.

(** The run log entry a run creates, and the entry once the run is over. *)
Definition log_entry_created (env : Env) (st : Store) : LogRow :=
  mkLogRow in_progress (utc_now env) (utc_now env) None 0
    (Z.of_nat (List.length (snapshot_logs_table st)) + 1).

Definition log_entry_completed (env : Env) (st : Store) (total_users : Z) : LogRow :=
  mkLogRow completed (utc_now env) (utc_now env)
    (Some (time_end env - time_start env)%Z) total_users
    (Z.of_nat (List.length (snapshot_logs_table st)) + 1).

(** The statements of a log that write a URI, the stored rows of a URI,
    and the fetched rows of a URI. *)
Definition writes_for (u : string) (log : list stmt) : list stmt :=
  filter (fun q => stmt_uri q =? u) log.

Definition stored_for (u : string) (t : list PostRow) : list PostRow :=
  filter (fun r => p_uri r =? u) t.

Definition fetched_for (u : string) (rows : list PostView) : list PostView :=
  filter (fun r => opt_eqb (uri r) (Some u)) rows.

(** The state in which the merge loop starts on a table. *)
Definition merge_start (t : list PostRow) : merge_state :=
  mkMergeState (mkTxn t []) [] 0.

(** The four counters of a fetched row are those of a stored row. *)
Definition same_counters (l r q rp : Z) (existing_row : PostRow) : Prop :=
  p_likes existing_row = l /\ p_replies existing_row = r
  /\ p_quotes existing_row = q /\ p_reposts existing_row = rp.

(** What [UPDATE posts ... WHERE uri = u] makes of one stored row. *)
Definition updated_row (l r q rp : Z) (now : datetime) (u : string)
  (before after : PostRow) : Prop :=
  p_uri after = p_uri before /\ p_did after = p_did before
  /\ p_createdAt after = p_createdAt before
  /\ (if p_uri before =? u
      then p_likes after = l /\ p_replies after = r /\ p_quotes after = q
           /\ p_reposts after = rp /\ p_updatedAt after = now
      else after = before).

(** The outcomes of one iteration of the merge loop that does not raise. *)
Inductive merge_step (env : Env) (update_all : bool) (tracked_posts : list PostRow)
  (row : PostView) (ms : merge_state) : merge_state -> Prop :=
| step_skip c :
    row_createdAt row = Ok c -> skips env update_all c = true ->
    merge_step env update_all tracked_posts row ms ms
| step_same c u existing_row others l r q rp :
    row_createdAt row = Ok c -> skips env update_all c = false ->
    uri row = Some u ->
    stored_for u tracked_posts = existing_row :: others ->
    likeCount row = Some l -> replyCount row = Some r ->
    quoteCount row = Some q -> repostCount row = Some rp ->
    same_counters l r q rp existing_row ->
    merge_step env update_all tracked_posts row ms ms
| step_update c u existing_row others l r q rp :
    row_createdAt row = Ok c -> skips env update_all c = false ->
    uri row = Some u ->
    stored_for u tracked_posts = existing_row :: others ->
    likeCount row = Some l -> replyCount row = Some r ->
    quoteCount row = Some q -> repostCount row = Some rp ->
    ~ same_counters l r q rp existing_row ->
    merge_step env update_all tracked_posts row ms
      (mkMergeState
         (mkTxn (update_post_sql l r q rp (utc_now env) u (tx_posts (ms_txn ms)))
            (tx_log (ms_txn ms) ++ [UpdatePost l r q rp (utc_now env) u])%list)
         (posts_to_insert ms) (S (posts_updated ms)))
| step_insert c u a d l r q rp :
    row_createdAt row = Ok c -> skips env update_all c = false ->
    uri row = Some u ->
    stored_for u tracked_posts = [] ->
    author row = Some a -> author_did a = Some d ->
    likeCount row = Some l -> replyCount row = Some r ->
    quoteCount row = Some q -> repostCount row = Some rp ->
    merge_step env update_all tracked_posts row ms
      (mkMergeState (ms_txn ms)
         (posts_to_insert ms ++ [mkPostRow u d l r q rp c (utc_now env)])%list
         (posts_updated ms)).

(** A fetched row is new to the lookup, or one of its counters differs
    from the stored one. *)
Definition new_or_changed (tracked_posts : list PostRow) (row : PostView) (u : string)
  : Prop :=
  stored_for u tracked_posts = []
  \/ exists existing_row others l r q rp,
      stored_for u tracked_posts = existing_row :: others
      /\ likeCount row = Some l /\ replyCount row = Some r
      /\ quoteCount row = Some q /\ repostCount row = Some rp
      /\ ~ same_counters l r q rp existing_row.

(** A fetched row is skipped by the cutoff test, or it is in the lookup
    with the four counters it has there. *)
Definition skipped_or_unchanged (env : Env) (update_all : bool)
  (tracked_posts : list PostRow) (row : PostView) (u : string) : Prop :=
  (exists c, row_createdAt row = Ok c /\ skips env update_all c = true)
  \/ exists c existing_row others l r q rp,
      row_createdAt row = Ok c /\ skips env update_all c = false
      /\ stored_for u tracked_posts = existing_row :: others
      /\ likeCount row = Some l /\ replyCount row = Some r
      /\ quoteCount row = Some q /\ repostCount row = Some rp
      /\ same_counters l r q rp existing_row.

(** The calendar day of [a] is before the calendar day of [b]. *)
Definition day_before (a b : datetime) : bool :=
  lex_ltb [year a; month a; day a] [year b; month b; day b].

(** The fields of a date as [date_str] can print them. *)
Definition printable_date (t : datetime) : Prop :=
  (0 <= year t < 10000)%Z /\ (0 <= month t < 100)%Z /\ (0 <= day t < 100)%Z.

(** C2 as it is stated: in incremental mode a fetched post that was
    created before the instant [now - 7 days] is neither inserted into the
    store nor updated in it. *)
Definition older_than_cutoff_is_skipped : Prop :=
  forall (env : Env) (created : datetime) (row : PostView) (u d : string)
         (st : Store) (fetched : list PostView),
    dt_ltb created (time_range env) = true ->
    row_createdAt row = Ok (iso_z created) ->
    uri row = Some u ->
    fetch_posts env d false (posts_table st) = Ok fetched ->
    In row (keep_first fetched) ->
    stored_for u (posts_table (snd (update_posts_for_actor env d false st)))
    = stored_for u (posts_table st).

(** C5 as it is stated: a URI that was fetched more than once has exactly
    one insert or update in the run. *)
Definition duplicated_uri_is_written_once : Prop :=
  forall (env : Env) (d : string) (update_all : bool) (t : list PostRow)
         (fetched : list PostView) (c : txn) (u : string),
    fetch_posts env d update_all t = Ok fetched ->
    sync_transaction env d update_all t = Ok (Some c) ->
    (2 <= List.length (fetched_for u fetched))%nat ->
    List.length (writes_for u (tx_log c)) = 1%nat.

(* ================================================================== *)
(** ** Concrete inputs *)
(* ================================================================== *)

(** A post view of account [did:abc] with a URI, a creation time and a
    count of likes. *)
Definition post_view (u c : string) (l : Z) : PostView :=
  mkPostView (Some u) (Some (mkAuthor (Some "did:abc")))
    (Some (mkPostRecord (Some c))) (Some l) (Some 0%Z) (Some 0%Z) (Some 0%Z).

Definition sample_feed : Response :=
  mkResponse
    (Some [mkFeedViewPost (Some (post_view "at://1" "2024-03-04T10:00:00.000Z" 3));
           mkFeedViewPost (Some (post_view "at://2" "2024-03-03T10:00:00.000Z" 10));
           mkFeedViewPost (Some (post_view "at://3" "2024-02-27T10:00:00.000Z" 7))])
    None None.

Definition sample_profiles : Response :=
  mkResponse None None
    (Some [mkProfileData (Some "did:abc") (Some "abc.bsky.social") None None
             (Some 100%Z) (Some 50%Z) (Some 5%Z)]).

Definition feed_url : string :=
  "https://public.api.bsky.app/xrpc/app.bsky.feed.getAuthorFeed?actor=did:abc&cursor=&limit=100".

Definition profiles_url : string :=
  "https://public.api.bsky.app/xrpc/app.bsky.actor.getProfiles?actors=did:abc".

(** A provider that knows one account with one page of posts. *)
Definition sample_http (page : Response) (url : string) : string + Response :=
  if url =? feed_url then inr page
  else if url =? profiles_url then inr sample_profiles
  else inl "404 Client Error".

(** The run of 5 March 2024, 15:00 UTC: the cutoff is 27 February, 15:00. *)
Definition sample_env_with (http : string -> string + Response) : Env :=
  mkEnv http "https://public.api.bsky.app" (mkDatetime 2024 3 5 15 0 0 0) 100 130
    (fun _ => true) (fun c p => negb (c <=? p)) (fun _ => "6f1c0f0e") 1000.

Definition sample_env : Env := sample_env_with (sample_http sample_feed).

(** A provider that answers with an empty list of profiles, and a
    transport that fails. *)
Definition http_no_profiles (url : string) : string + Response :=
  inr (mkResponse None None (Some [])).

Definition http_down (url : string) : string + Response :=
  inl "connection refused".

(** A page whose only post has no [record]. *)
Definition broken_feed : Response :=
  mkResponse
    (Some [mkFeedViewPost
             (Some (mkPostView (Some "at://9") (Some (mkAuthor (Some "did:abc")))
                      None (Some 1%Z) (Some 0%Z) (Some 0%Z) (Some 0%Z)))])
    None None.

Definition sample_profile : UserProfile :=
  mkUserProfile "did:abc" "abc.bsky.social" None None 100 50 5.

(** The same page three hours later, the likes of the second post having
    gone from 10 to 15. *)
Definition changed_feed : Response :=
  mkResponse
    (Some [mkFeedViewPost (Some (post_view "at://1" "2024-03-04T10:00:00.000Z" 3));
           mkFeedViewPost (Some (post_view "at://2" "2024-03-03T10:00:00.000Z" 15));
           mkFeedViewPost (Some (post_view "at://3" "2024-02-27T10:00:00.000Z" 7))])
    None None.

Definition later_env : Env :=
  mkEnv (sample_http changed_feed) "https://public.api.bsky.app"
    (mkDatetime 2024 3 5 18 0 0 0) 200 215
    (fun _ => true) (fun c p => negb (c <=? p)) (fun _ => "0b9d3a77") 1000.

(** A stored post of 1 March with three likes. *)
Definition stored_post : PostRow :=
  mkPostRow "at://1" "did:abc" 3 0 0 0 "2024-03-01T10:00:00.000Z"
    (mkDatetime 2024 3 1 12 0 0 0).

(** A page on which a stored post appears twice, unchanged. *)
Definition duplicate_feed : Response :=
  mkResponse
    (Some [mkFeedViewPost (Some (post_view "at://1" "2024-03-01T10:00:00.000Z" 3));
           mkFeedViewPost (Some (post_view "at://1" "2024-03-01T10:00:00.000Z" 3))])
    None None.

(** A page on which a new post appears twice. *)
Definition duplicate_new_feed : Response :=
  mkResponse
    (Some [mkFeedViewPost (Some (post_view "at://2" "2024-03-03T10:00:00.000Z" 10));
           mkFeedViewPost (Some (post_view "at://2" "2024-03-03T10:00:00.000Z" 10))])
    None None.

(** An account whose two posts are old: the first page ends with a cursor
    of 1 January 2020, the second page is the last. *)
Definition old_page1 : Response :=
  mkResponse
    (Some [mkFeedViewPost (Some (post_view "at://old1" "2020-01-05T10:00:00.000Z" 4))])
    (Some "2020-01-01T00:00:00.000Z") None.

Definition old_page2 : Response :=
  mkResponse
    (Some [mkFeedViewPost (Some (post_view "at://old2" "2019-12-25T10:00:00.000Z" 6))])
    None None.

Definition old_http (url : string) : string + Response :=
  if url =? feed_url then inr old_page1
  else if url =? "https://public.api.bsky.app/xrpc/app.bsky.feed.getAuthorFeed?actor=did:abc&cursor=2020-01-01T00:00:00.000Z&limit=100"
       then inr old_page2
  else inl "404 Client Error".

Definition old_env : Env := sample_env_with old_http.

(** Fifty-one accounts, that is three chunks of 25, 25 and 1, and a
    provider that fails on the second chunk and has no feed. *)
Definition did_of (n : nat) : string := "did:" ++ String (ascii_of_nat (48 + n)) "".

Definition many_users : list UserRow :=
  map (fun n => mkUserRow (did_of n) (did_of n) None None
                  [DNull; DNull; DNull; DBool false])
    (seq 0 51).

Definition many_store : Store := mkStore many_users [] [] [] [].

Definition profiles_url_of (dids : list string) : string :=
  "https://public.api.bsky.app/xrpc/app.bsky.actor.getProfiles?"
    ++ String.concat "&" (map (fun d => "actors=" ++ d) dids).

Definition profiles_of (dids : list string) : Response :=
  mkResponse None None
    (Some (map (fun d => mkProfileData (Some d) (Some d) None None
                           (Some 10%Z) (Some 5%Z) (Some 0%Z)) dids)).

Definition chunk1 : list string := map did_of (seq 0 25).
Definition chunk2 : list string := map did_of (seq 25 25).
Definition chunk3 : list string := map did_of (seq 50 1).

Definition partial_http (url : string) : string + Response :=
  if url =? profiles_url_of chunk1 then inr (profiles_of chunk1)
  else if url =? profiles_url_of chunk3 then inr (profiles_of chunk3)
  else inl "502 Server Error".

Definition partial_env : Env := sample_env_with partial_http.

Definition sample_user : UserRow :=
  mkUserRow "did:abc" "abc.bsky.social" None None [DNull; DNull; DNull; DBool false].

Definition sample_store : Store := mkStore [sample_user] [] [] [] [].

(** The same account with its skip flag set. *)
Definition skipped_store : Store :=
  mkStore [mkUserRow "did:abc" "abc.bsky.social" None None
             [DNull; DNull; DNull; DBool true]] [] [] [] [].

Definition sample_snapshot : SnapshotData :=
  mkSnapshotData "did:abc" "abc.bsky.social" "2024-03-05" 100 50 5 20 0 0 0.

(* ================================================================== *)
(** ** Further properties: definitions *)
(* ================================================================== *)

(** The query string of [get_profiles] (line 51). *)
Definition profiles_params (dids : list string) : string :=
  String.concat "&" (map (fun d => "actors=" ++ d) dids).

(** The entries of the answer [get_profiles] iterates over (line 57). *)
Definition profile_entries (response : Response) : list ProfileData :=
  match resp_profiles response with Some l => l | None => [] end.

(** An entry has the two keys that lines 59-60 subscript. *)
Definition has_did_and_handle (profile_data : ProfileData) : bool :=
  match pd_did profile_data, pd_handle profile_data with
  | Some _, Some _ => true
  | _, _ => false
  end.

(** A profile carries what an entry of the answer holds: the identifier and
    the handle as given, the optional texts as given, and 0 for a count the
    entry does not have. *)
Definition profile_matches (profile_data : ProfileData) (p : UserProfile) : Prop :=
  pd_did profile_data = Some (profile_did p)
  /\ pd_handle profile_data = Some (profile_handle p)
  /\ profile_display_name p = pd_displayName profile_data
  /\ profile_avatar p = pd_avatar profile_data
  /\ followers_count p = or_default (pd_followersCount profile_data) 0
  /\ following_count p = or_default (pd_followsCount profile_data) 0
  /\ posts_count p = or_default (pd_postsCount profile_data) 0.

(** An answer of two profiles, the second without a handle. *)
Definition mixed_http (url : string) : string + Response :=
  inr (mkResponse None None
         (Some [mkProfileData (Some "did:abc") (Some "abc.bsky.social") None None
                  (Some 100%Z) None None;
                mkProfileData (Some "did:xyz") None None None None None None])).

Definition mixed_env : Env := sample_env_with mixed_http.

(** What an upsert may do to a stored snapshot row: the identifier and the
    key stay, and a row of another key stays as a whole. *)
Definition row_kept (s : SnapshotData) (before after : SnapshotRow) : Prop :=
  s_uuid after = s_uuid before /\ s_did after = s_did before
  /\ s_date after = s_date before
  /\ (conflicts s before = false -> after = before).

(** What [update_user_profile] may do to a stored user row: the identifier
    and the columns from position 4 on stay; the row of the profile needs no
    further update, a row of another account stays as a whole. *)
Definition user_row_kept (profile : UserProfile) (before after : UserRow) : Prop :=
  u_did after = u_did before /\ u_rest after = u_rest before
  /\ (if u_did before =? profile_did profile
      then _should_update_user profile after = false
      else after = before).

(** The store after the sample snapshot was upserted once. *)
Definition store_with_snapshot : Store :=
  mkStore [sample_user] [] []
    [mkSnapshotRow "6f1c0f0e" 100 50 5 "2024-03-05" "did:abc" 20 0 0 0] [].

(** The profile of the sample account after it changed its handle and set
    a display name. *)
Definition renamed_profile : UserProfile :=
  mkUserProfile "did:abc" "abc.example.com" (Some "A B C") None 100 50 5.

(** A snapshot row is the row of a snapshot: same key, same counters. *)
Definition row_of_snapshot (s : SnapshotData) (r : SnapshotRow) : Prop :=
  s_did r = sd_did s /\ s_date r = sd_date s /\ holds_counters s r.

(** Two accounts, the first with a stored post of three likes, and a
    provider that is down. *)
Definition down_env : Env := sample_env_with http_down.

Definition second_profile : UserProfile :=
  mkUserProfile "did:xyz" "xyz.bsky.social" None None 7 8 9.

Definition two_users_store : Store :=
  mkStore [sample_user;
           mkUserRow "did:xyz" "xyz.bsky.social" None None
             [DNull; DNull; DNull; DBool false]]
    [] [stored_post] [] [].

(** The identifiers of the run log are 1, 2, ... in the order of the
    entries, as [create_snapshot_log] numbers them. *)
Definition well_numbered (logs : list LogRow) : Prop :=
  map l_id logs = map Z.of_nat (seq 1 (List.length logs)).

(** A store whose list of users cannot be read. *)
Definition no_users_env : Env :=
  mkEnv (sample_http sample_feed) "https://public.api.bsky.app"
    (mkDatetime 2024 3 5 15 0 0 0) 100 130
    (fun c => match c with CallGetActiveUsers => false | _ => true end)
    (fun c p => negb (c <=? p)) (fun _ => "6f1c0f0e") 1000.

(** A run log that lost its first entry: the entry left has identifier 2,
    which is also the identifier of the next entry. *)
Definition gapped_store : Store :=
  mkStore [] [] [] []
    [mkLogRow in_progress (mkDatetime 2024 3 4 15 0 0 0) (mkDatetime 2024 3 4 15 0 0 0)
       None 0 2].

(** What identifies a stored post: the columns no statement of the
    synchroniser assigns after the insert. *)
Definition post_identity (r : PostRow) : string * string * string :=
  (p_uri r, p_did r, p_createdAt r).

(** The four counters of a stored post. *)
Definition post_counters (r : PostRow) : Z * Z * Z * Z :=
  (p_likes r, p_replies r, p_quotes r, p_reposts r).

(** The part of the state of the merge loop that concerns one URI. *)
Definition state_for (u : string) (ms : merge_state) : list PostRow * list PostRow :=
  (stored_for u (tx_posts (ms_txn ms)), stored_for u (posts_to_insert ms)).

(** The condition under which the lookup of lines 90-98 holds a stored row. *)
Definition tracked_row (env : Env) (d : string) (update_all : bool) (r : PostRow) : bool :=
  if update_all then p_did r =? d
  else (p_did r =? d) && sql_created_after env (p_createdAt r) (cutoff_date env).

(** The store compares a stored creation time with the cutoff date as the
    merge loop compares the fetched one: as strings. *)
Definition store_compares_as_strings (env : Env) : Prop :=
  forall c, sql_created_after env c (cutoff_date env) = negb (c <=? cutoff_date env).

(** A working set with a stored post whose likes went from three to five,
    and a new post. *)
Definition merge_feed : list PostView :=
  [post_view "at://1" "2024-03-01T10:00:00.000Z" 5;
   post_view "at://2" "2024-03-03T10:00:00.000Z" 10].

(** A store with the posts of two accounts. *)
Definition two_accounts_store : Store :=
  mkStore [sample_user] []
    [stored_post;
     mkPostRow "at://9" "did:xyz" 4 1 0 2 "2024-03-02T08:00:00.000Z"
       (mkDatetime 2024 3 2 9 0 0 0)]
    [] [].

(** Two accounts: the first was viewed twice in the week before 5 March
    2024, the second a month before. *)
Definition viewed_store : Store :=
  mkStore
    [sample_user; mkUserRow "did:xyz" "xyz.bsky.social" None None []]
    [mkViewRow "did:abc" (toordinal (mkDatetime 2024 3 3 0 0 0 0));
     mkViewRow "did:xyz" (toordinal (mkDatetime 2024 2 3 0 0 0 0));
     mkViewRow "did:abc" (toordinal (mkDatetime 2024 3 4 0 0 0 0))]
    [] [] [].

(** The accounts for which a task of the batch gave a snapshot, one entry
    for each such task. *)
Definition accounts_processed (futures : list (result (option SnapshotData)))
  : list string :=
  flat_map (fun f => match f with Ok (Some s) => [sd_did s] | _ => [] end) futures.

(** What the task of a profile can give: nothing, or a snapshot of the
    account of the profile. *)
Definition task_of (profile : UserProfile) (f : result (option SnapshotData)) : Prop :=
  f = Ok None \/ exists s, f = Ok (Some s) /\ sd_did s = profile_did profile.










(* ================================================================== *)
(** ** Examples on concrete inputs *)
(* ================================================================== *)

Example date_str_ex :
  date_str (mkDatetime 2024 1 8 15 0 0 0) = "2024-01-08".
Proof. reflexivity. Qed.

Example str_datetime_ex :
  first10 (str_datetime (mkDatetime 2024 1 8 15 0 0 250)) = "2024-01-08".
Proof. reflexivity. Qed.

Example minus_days_ex :
  minus_days (mkDatetime 2024 3 5 15 0 0 0) 7 = mkDatetime 2024 2 27 15 0 0 0.
Proof. vm_compute. reflexivity. Qed.

Example minus_days_year_ex :
  minus_days (mkDatetime 2025 1 3 9 30 0 0) 7 = mkDatetime 2024 12 27 9 30 0 0.
Proof. vm_compute. reflexivity. Qed.

Example strptime_ex :
  strptime_ymd (first10 "2024-02-29T10:11:12.000Z") = Ok (mkDatetime 2024 2 29 0 0 0 0).
Proof. vm_compute. reflexivity. Qed.

Example strptime_bad_ex :
  is_ok (strptime_ymd (first10 "3lfabcxyz2k2a")) = false.
Proof. vm_compute. reflexivity. Qed.

(** The first run on an account without stored posts: three posts, one
    snapshot with the counters of the profile and the summed likes, and a
    completed run log entry counting one account. *)
Example first_run :
  run_snapshot_collection sample_env true sample_store =
  (Ok tt,
   mkStore [sample_user] []
     [mkPostRow "at://1" "did:abc" 3 0 0 0 "2024-03-04T10:00:00.000Z" (utc_now sample_env);
      mkPostRow "at://2" "did:abc" 10 0 0 0 "2024-03-03T10:00:00.000Z" (utc_now sample_env);
      mkPostRow "at://3" "did:abc" 7 0 0 0 "2024-02-27T10:00:00.000Z" (utc_now sample_env)]
     [mkSnapshotRow "6f1c0f0e" 100 50 5 "2024-03-05" "did:abc" 20 0 0 0]
     [mkLogRow completed (utc_now sample_env) (utc_now sample_env) (Some 30%Z) 1 1]).
Proof. vm_compute. reflexivity. Qed.

(** A second run on the same day with the same answers of the provider
    changes neither the posts nor the snapshot. *)
Example second_run_same_answers :
  let st1 := snd (run_snapshot_collection sample_env true sample_store) in
  let st2 := snd (run_snapshot_collection sample_env true st1) in
  posts_table st2 = posts_table st1 /\ snapshots_table st2 = snapshots_table st1.
Proof. vm_compute. split; reflexivity. Qed.

(** A second run after the likes of the second post went from 10 to 15:
    still three posts, the changed one written anew at the time of the
    second run, and the one snapshot row overwritten with the new sum. *)
Example second_run_changed_likes :
  let st1 := snd (run_snapshot_collection sample_env true sample_store) in
  let st2 := snd (run_snapshot_collection later_env true st1) in
  posts_table st2 =
    [mkPostRow "at://1" "did:abc" 3 0 0 0 "2024-03-04T10:00:00.000Z" (utc_now sample_env);
     mkPostRow "at://3" "did:abc" 7 0 0 0 "2024-02-27T10:00:00.000Z" (utc_now sample_env);
     mkPostRow "at://2" "did:abc" 15 0 0 0 "2024-03-03T10:00:00.000Z" (utc_now later_env)]
  /\ snapshots_table st2 =
     [mkSnapshotRow "6f1c0f0e" 100 50 5 "2024-03-05" "did:abc" 25 0 0 0].
Proof. vm_compute. split; reflexivity. Qed.

(** An account whose skip flag is set: no post, no snapshot, and a run log
    entry that counts no account. *)
Example run_with_skipped_account :
  run_snapshot_collection sample_env true skipped_store =
  (Ok tt,
   mkStore (users_table skipped_store) [] [] []
     [mkLogRow completed (utc_now sample_env) (utc_now sample_env) (Some 30%Z) 0 1]).
Proof. vm_compute. reflexivity. Qed.

(* ================================================================== *)
(** ** Updates of a table *)
(* ================================================================== *)

Lemma filter_all_true {A : Type} (f : A -> bool) l :
  (forall x, In x l -> f x = true) -> filter f l = l.
Proof.
  induction l as [|x l IH]; intros H; simpl; [reflexivity|].
  rewrite (H x (or_introl eq_refl)). f_equal. apply IH. intros y Hy. apply H. now right.
Qed.

Lemma filter_all_false {A : Type} (f : A -> bool) l :
  (forall x, In x l -> f x = false) -> filter f l = [].
Proof.
  induction l as [|x l IH]; intros H; simpl; [reflexivity|].
  rewrite (H x (or_introl eq_refl)). apply IH. intros y Hy. apply H. now right.
Qed.

Section SqlUpdate.

Context {A : Type} (where_ : A -> bool) (set_ : A -> A).

Lemma in_sql_update x t :
  In x (sql_update where_ set_ t) <->
  (In x t /\ where_ x = false)
  \/ (exists r, In r t /\ where_ r = true /\ x = set_ r).
Proof.
  unfold sql_update. rewrite in_app_iff, filter_In, in_map_iff. split.
  - intros [[H1 H2] | (r & <- & Hr)].
    + left. split; [exact H1|]. now destruct (where_ x).
    + apply filter_In in Hr as [Hr1 Hr2]. right. eauto.
  - intros [[H1 H2] | (r & Hr1 & Hr2 & ->)].
    + left. now rewrite H2.
    + right. exists r. split; [reflexivity|]. now apply filter_In.
Qed.

Lemma sql_update_length t :
  List.length (sql_update where_ set_ t) = List.length t.
Proof.
  unfold sql_update. rewrite length_app, length_map.
  induction t as [|x t IH]; simpl; [reflexivity|].
  destruct (where_ x); simpl; lia.
Qed.

Lemma sql_update_none t :
  (forall r, In r t -> where_ r = false) -> sql_update where_ set_ t = t.
Proof.
  unfold sql_update. induction t as [|x t IH]; intros H; simpl; [reflexivity|].
  rewrite (H x (or_introl eq_refl)). simpl. f_equal.
  apply IH. intros r Hr. apply H. now right.
Qed.

Lemma sql_update_all t :
  (forall r, In r t -> where_ r = true) -> sql_update where_ set_ t = map set_ t.
Proof.
  unfold sql_update. induction t as [|x t IH]; intros H; simpl; [reflexivity|].
  rewrite (H x (or_introl eq_refl)). simpl.
  assert (IH' : (filter (fun r => negb (where_ r)) t ++ map set_ (filter where_ t))%list
                = map set_ t) by (apply IH; intros r Hr; apply H; now right).
  assert (Hnil : filter (fun r => negb (where_ r)) t = []).
  { clear IH IH'. induction t as [|y t IHt]; simpl; [reflexivity|].
    rewrite (H y (or_intror (or_introl eq_refl))). simpl.
    apply IHt. intros r [<-|Hr]; apply H; [now left | now right; right]. }
  rewrite Hnil in *. simpl in *. now rewrite IH'.
Qed.

(** A selection that reads only columns the update leaves alone. *)
Lemma filter_sql_update (P : A -> bool) t :
  (forall r, P (set_ r) = P r) ->
  filter P (sql_update where_ set_ t) = sql_update where_ set_ (filter P t).
Proof.
  intros HP. unfold sql_update. rewrite filter_app. f_equal.
  - induction t as [|x t IH]; simpl; [reflexivity|].
    destruct (where_ x) eqn:W, (P x) eqn:Px; simpl; rewrite ?W, ?Px; simpl;
      now rewrite IH.
  - induction t as [|x t IH]; simpl; [reflexivity|].
    destruct (where_ x) eqn:W, (P x) eqn:Px; simpl; rewrite ?W, ?HP, ?Px; simpl;
      now rewrite IH.
Qed.

(** A column the update leaves alone has the values it had. *)
Lemma sql_update_column {B : Type} (column : A -> B) t :
  (forall r, column (set_ r) = column r) ->
  Permutation (map column (sql_update where_ set_ t)) (map column t).
Proof.
  intros Hc. unfold sql_update. rewrite map_app, map_map.
  replace (map (fun x => column (set_ x)) (filter where_ t))
    with (map column (filter where_ t)) by (apply map_ext; intros; now rewrite Hc).
  rewrite <- map_app. apply Permutation_map.
  induction t as [|x t IH]; simpl; [constructor|].
  destruct (where_ x); simpl.
  - apply Permutation_sym. apply Permutation_cons_app. now apply Permutation_sym.
  - now constructor.
Qed.


End SqlUpdate.

(* ================================================================== *)
(** ** The snapshot upsert *)
(* ================================================================== *)

Section Upsert.

Variables (u : string) (s : SnapshotData).

Lemma conflicts_do_update r : conflicts s (do_update s r) = conflicts s r.
Proof. reflexivity. Qed.

Lemma conflicts_excluded : conflicts s (excluded u s) = true.
Proof. unfold conflicts; simpl. now rewrite !String.eqb_refl. Qed.

Lemma do_update_idem r : do_update s (do_update s r) = do_update s r.
Proof. reflexivity. Qed.

Lemma conflicts_key r d date :
  conflicts s r = true ->
  ((s_did r =? d) && (s_date r =? date)) = ((sd_did s =? d) && (sd_date s =? date)).
Proof.
  unfold conflicts. intros H. apply andb_true_iff in H as [H1 H2].
  apply String.eqb_eq in H1, H2. now rewrite H1, H2.
Qed.

Lemma no_conflict_rows t :
  existsb (conflicts s) t = false -> rows_for (sd_did s) (sd_date s) t = [].
Proof.
  unfold rows_for. induction t as [|r t IH]; simpl; [reflexivity|].
  intros H. apply orb_false_iff in H as [Hr Ht].
  unfold conflicts in Hr. rewrite Hr. auto.
Qed.

Lemma rows_for_upsert_conflict d date t :
  rows_for d date (sql_update (conflicts s) (do_update s) t)
  = sql_update (conflicts s) (do_update s) (rows_for d date t).
Proof. unfold rows_for. now apply filter_sql_update. Qed.


Lemma upsert_keeps_unique t :
  unique_snapshots t -> unique_snapshots (upsert_snapshot_sql u s t).
Proof.
  intros Huniq d date. unfold upsert_snapshot_sql.
  destruct (existsb (conflicts s) t) eqn:E.
  - rewrite rows_for_upsert_conflict, sql_update_length. apply Huniq.
  - unfold rows_for. rewrite filter_app, length_app. simpl.
    destruct ((sd_did s =? d) && (sd_date s =? date)) eqn:K; simpl.
    + apply andb_true_iff in K as [K1 K2].
      apply String.eqb_eq in K1, K2. subst d date.
      pose proof (no_conflict_rows t E) as Hnil. unfold rows_for in Hnil.
      rewrite Hnil. simpl. lia.
    + specialize (Huniq d date). unfold rows_for in Huniq. lia.
Qed.


Lemma upsert_overwrites t r :
  In r (upsert_snapshot_sql u s t) -> conflicts s r = true -> holds_counters s r.
Proof.
  unfold upsert_snapshot_sql. destruct (existsb (conflicts s) t) eqn:E; intros Hin Hc.
  - apply in_sql_update in Hin as [[_ Hn] | (r0 & _ & _ & ->)]; [congruence|].
    repeat split.
  - apply in_app_or in Hin as [Hin | [<- | []]].
    + assert (existsb (conflicts s) t = true) by (apply existsb_exists; eauto).
      congruence.
    + repeat split.
Qed.

Lemma upsert_has_row t :
  exists r, In r (upsert_snapshot_sql u s t) /\ conflicts s r = true.
Proof.
  unfold upsert_snapshot_sql. destruct (existsb (conflicts s) t) eqn:E.
  - apply existsb_exists in E as [r0 [Hin Hc]].
    exists (do_update s r0). split.
    + apply in_sql_update. right. eauto.
    + now rewrite conflicts_do_update.
  - exists (excluded u s). split.
    + apply in_or_app. right. now left.
    + apply conflicts_excluded.
Qed.


End Upsert.

(* ================================================================== *)
(** ** Store relations kept by the methods *)
(* ================================================================== *)

Section Preservation.

Variable R : Store -> Store -> Prop.
Hypothesis R_refl : forall st, R st st.
Hypothesis R_trans : forall a b c, R a b -> R b c -> R a c.

Lemma preserves_ret {A} (a : A) : preserves R (ret a).
Proof. intros st. apply R_refl. Qed.

Lemma preserves_throw {A} (e : exn) : preserves R (@throw A e).
Proof. intros st. apply R_refl. Qed.

Lemma preserves_lift {A} (r : result A) : preserves R (lift r).
Proof. intros st. apply R_refl. Qed.

Lemma preserves_bind {A B} (m : M A) (k : A -> M B) :
  preserves R m -> (forall a, preserves R (k a)) -> preserves R (mbind m k).
Proof.
  intros Hm Hk st. unfold mbind. specialize (Hm st).
  destruct (m st) as [[a|e] st']; simpl in *.
  - eapply R_trans; [exact Hm | apply Hk].
  - exact Hm.
Qed.

Lemma preserves_try_except {A} (body : M A) (handler : exn -> M A) :
  preserves R body -> (forall e, preserves R (handler e)) ->
  preserves R (try_except body handler).
Proof.
  intros Hm Hk st. unfold try_except. specialize (Hm st).
  destruct (body st) as [[a|e] st']; simpl in *.
  - exact Hm.
  - eapply R_trans; [exact Hm | apply Hk].
Qed.

Lemma preserves_get_connection {A} env c (body : M A) :
  preserves R body -> preserves R (get_connection env c body).
Proof.
  intros Hb st. unfold get_connection. destruct (connect env c).
  - apply Hb.
  - apply R_refl.
Qed.

End Preservation.

Lemma frame_refl st : frame st st.
Proof. repeat split; auto. Qed.

Lemma frame_trans a b c : frame a b -> frame b c -> frame a c.
Proof.
  intros (L1 & V1 & U1) (L2 & V2 & U2). repeat split; try congruence. auto.
Qed.

Create HintDb store.

Lemma frame_ret {A} (a : A) : preserves frame (ret a).
Proof. apply preserves_ret, frame_refl. Qed.

Lemma frame_lift {A} (r : result A) : preserves frame (lift r).
Proof. apply preserves_lift, frame_refl. Qed.

Lemma frame_bind {A B} (m : M A) (k : A -> M B) :
  preserves frame m -> (forall a, preserves frame (k a)) -> preserves frame (mbind m k).
Proof. apply preserves_bind, frame_trans. Qed.

Lemma frame_try_except {A} (body : M A) (handler : exn -> M A) :
  preserves frame body -> (forall e, preserves frame (handler e)) ->
  preserves frame (try_except body handler).
Proof. apply preserves_try_except, frame_trans. Qed.

Lemma frame_get_connection {A} env c (body : M A) :
  preserves frame body -> preserves frame (get_connection env c body).
Proof. apply preserves_get_connection, frame_refl. Qed.

#[local] Hint Resolve frame_refl frame_ret frame_lift : store.

Section Frames.

Variable env : Env.

Lemma frame_get_user_by_did d : preserves frame (get_user_by_did env d).
Proof.
  apply frame_get_connection. intros st. apply frame_refl.
Qed.

Lemma frame_get_engagement_totals d : preserves frame (get_engagement_totals env d).
Proof.
  apply frame_get_connection. intros st.
  destruct (engagement_query d (posts_table st)) as [[[[l r] q] rp]|];
    apply frame_refl.
Qed.

Lemma frame_update_user_profile p : preserves frame (update_user_profile env p).
Proof.
  apply frame_get_connection. intros st.
  repeat split; auto.
Qed.

Lemma frame_update_posts_for_actor d b : preserves frame (update_posts_for_actor env d b).
Proof.
  apply frame_get_connection. intros st.
  destruct (sync_transaction env d b (posts_table st)) as [[c|]|e];
    repeat split; auto.
Qed.

Lemma frame_upsert_snapshot s : preserves frame (upsert_snapshot env s).
Proof.
  apply frame_get_connection. intros st.
  repeat split; simpl. apply upsert_keeps_unique.
Qed.

Lemma frame_process_user_profile p date :
  preserves frame (process_user_profile env p date).
Proof.
  unfold process_user_profile, process_user_profile_body.
  apply frame_try_except; auto with store.
  apply frame_bind; [apply frame_get_user_by_did|].
  intros [user_data|]; auto with store.
  apply frame_bind; auto with store. intros skip_user.
  destruct (truthy skip_user); auto with store.
  apply frame_bind; auto with store.
  { destruct (_should_update_user p user_data); auto with store.
    apply frame_update_user_profile. }
  intros _. apply frame_bind; auto with store.
  { apply frame_update_posts_for_actor. }
  intros _. apply frame_bind; auto with store.
  { apply frame_get_engagement_totals. }
  intros engagement. apply frame_bind; auto with store.
  apply frame_upsert_snapshot.
Qed.

Lemma frame_run_tasks ps date : preserves frame (run_tasks env ps date).
Proof.
  induction ps as [|p ps IH]; intros st; simpl.
  - apply frame_refl.
  - pose proof (frame_process_user_profile p date st) as H1.
    destruct (process_user_profile env p date st) as [r st1]. simpl in H1.
    specialize (IH st1).
    destruct (run_tasks env ps date st1) as [[rs|e] st2]; simpl in *;
      eapply frame_trans; eauto.
Qed.

Lemma frame_get_active_users b : preserves frame (get_active_users env b).
Proof.
  apply frame_get_connection. intros st. apply frame_refl.
Qed.

Lemma frame_create_snapshots_batch b : preserves frame (create_snapshots_batch env b).
Proof.
  unfold create_snapshots_batch.
  apply frame_bind; [apply frame_get_active_users|].
  intros [|x l]; auto with store.
  apply frame_bind; auto with store. apply frame_run_tasks.
Qed.

End Frames.

(* ================================================================== *)
(** ** C1: one snapshot row per account and day *)
(* ================================================================== *)






(* ================================================================== *)
(** ** C9: the engagement totals *)
(* ================================================================== *)

Lemma spec_total_acc f d t acc :
  fold_left (fun a r => if p_did r =? d then (a + f r)%Z else a) t acc
  = Z.add acc (sum_of f (filter (fun r => p_did r =? d) t)).
Proof.
  revert acc. induction t as [|r t IH]; intros acc; simpl; [lia|].
  rewrite IH. destruct (p_did r =? d); simpl; lia.
Qed.

Lemma spec_total_sum f d t :
  spec_total f d t = sum_of f (filter (fun r => p_did r =? d) t).
Proof. unfold spec_total. rewrite spec_total_acc. lia. Qed.

Lemma or_zero_id x : or_zero x = x.
Proof. unfold or_zero. destruct (Z.eqb_spec x 0); congruence. Qed.

(** C9. When the connection opens, [get_engagement_totals] returns, for
    every account, the four sums of likes, replies, quotes and reposts over
    the stored posts of the account and leaves the store as it was; for an
    account without stored posts the query has no row and the method
    returns four zeros. *)
Theorem C9_engagement_totals :
  forall (env : Env) (d : string) (st : Store),
    connect env (CallGetEngagementTotals d) = true ->
    get_engagement_totals env d st =
      (Ok (mkEngagement (spec_total p_likes d (posts_table st))
             (spec_total p_replies d (posts_table st))
             (spec_total p_quotes d (posts_table st))
             (spec_total p_reposts d (posts_table st))), st)
    /\ (count_posts d (posts_table st) = 0%nat ->
        engagement_query d (posts_table st) = None
        /\ get_engagement_totals env d st = (Ok (mkEngagement 0 0 0 0), st)).
Proof.
  intros env d st Hc. unfold get_engagement_totals, get_connection. rewrite Hc.
  rewrite !spec_total_sum. unfold engagement_query, count_posts.
  destruct (filter (fun r => p_did r =? d) (posts_table st)) as [|r rows] eqn:E.
  - split; [reflexivity|]. intros _. split; reflexivity.
  - rewrite !or_zero_id. split; [reflexivity|]. simpl. discriminate.
Qed.

Lemma C9_engagement_totals_witness :
  connect sample_env (CallGetEngagementTotals "did:abc") = true
  /\ get_engagement_totals sample_env "did:abc" sample_store
     = (Ok (mkEngagement 0 0 0 0), sample_store).
Proof.
  split; [reflexivity|].
  exact (proj2 (proj2 (C9_engagement_totals sample_env "did:abc" sample_store eq_refl)
                  eq_refl)).
Defined.

(* ================================================================== *)
(** ** C10: the paginated fetch never raises *)
(* ================================================================== *)

Lemma filter_by_actor_extends actor items posts :
  exists more,
    fst (filter_by_actor actor items posts) = (posts ++ more)%list
    /\ forallb (written_by actor) more = true.
Proof.
  revert posts. induction items as [|item items IH]; intros posts; simpl.
  - exists []. now rewrite app_nil_r.
  - destruct (post_and_author item) as [[p d]|e] eqn:E.
    + destruct (d =? actor) eqn:Ed.
      * destruct (IH (posts ++ [p])%list) as [more [H1 H2]].
        exists (p :: more). rewrite H1, <- app_assoc. split; [reflexivity|].
        simpl. rewrite H2, andb_true_r.
        unfold post_and_author in E. unfold written_by.
        destruct (post item) as [p'|]; simpl in E; [|discriminate].
        destruct (author p') as [a|] eqn:Ea; simpl in E; [|discriminate].
        destruct (author_did a) as [d'|] eqn:Ead; simpl in E; [|discriminate].
        inversion E; subst. now rewrite Ea, Ead.
      * apply IH.
    + exists []. now rewrite app_nil_r.
Qed.

Lemma get_posts_for_actor_returns env depth :
  forall actor cursor posts fetch_all,
  exists more,
    get_posts_for_actor env (S depth) actor cursor posts fetch_all = Ok (posts ++ more)%list
    /\ forallb (written_by actor) more = true.
Proof.
  assert (Hnil : forall l : list PostView, l = (l ++ [])%list)
    by (intros; now rewrite app_nil_r).
  induction depth as [|depth IH]; intros actor cursor posts fetch_all.
  - cbn [get_posts_for_actor].
    destruct (_call_endpoint env _ _) as [response|e];
      [|exists []; split; [cbn; f_equal; apply Hnil | reflexivity]].
    destruct (resp_feed response) as [items|];
      [|exists []; split; [cbn; f_equal; apply Hnil | reflexivity]].
    cbn [getitem].
    destruct (filter_by_actor_extends actor items posts) as [more [H1 H2]].
    destruct (filter_by_actor actor items posts) as [posts1 err]. simpl in H1. subst posts1.
    exists more. split; [|exact H2].
    destruct err; [reflexivity|].
    destruct (resp_cursor response); [|reflexivity].
    destruct (_ <? _)%Z; [|reflexivity].
    destruct fetch_all; [reflexivity|].
    destruct (strptime_ymd _); [|reflexivity].
    destruct (dt_gtb _ _); reflexivity.
  - remember (S depth) as n eqn:En.
    cbn [get_posts_for_actor].
    destruct (_call_endpoint env _ _) as [response|e];
      [|exists []; split; [cbn; f_equal; apply Hnil | reflexivity]].
    destruct (resp_feed response) as [items|];
      [|exists []; split; [cbn; f_equal; apply Hnil | reflexivity]].
    cbn [getitem].
    destruct (filter_by_actor_extends actor items posts) as [more [H1 H2]].
    destruct (filter_by_actor actor items posts) as [posts1 err]. simpl in H1. subst posts1.
    assert (Hrec : forall next,
               exists more',
                 except_return_posts
                   match get_posts_for_actor env n actor next (posts ++ more)%list fetch_all with
                   | Ok posts' => Return posts'
                   | Raise e => Raised (posts ++ more)%list e
                   end = Ok (posts ++ more')%list
                 /\ forallb (written_by actor) more' = true).
    { intros next. subst n.
      destruct (IH actor next (posts ++ more)%list fetch_all) as [more2 [G1 G2]].
      rewrite G1. exists (more ++ more2)%list. split.
      - cbn. now rewrite app_assoc.
      - rewrite forallb_app. now rewrite H2, G2. }
    destruct err; [exists more; split; [reflexivity | exact H2]|].
    destruct (resp_cursor response) as [next|];
      [|exists more; split; [reflexivity | exact H2]].
    destruct (_ <? _)%Z; [|exists more; split; [reflexivity | exact H2]].
    destruct fetch_all; [apply Hrec|].
    destruct (strptime_ymd _); [|exists more; split; [reflexivity | exact H2]].
    destruct (dt_gtb _ _); [apply Hrec | exists more; split; [reflexivity | exact H2]].
Qed.

(** C10. With room for at least one call on the stack,
    [get_posts_for_actor] returns for every actor, cursor, accumulated
    posts and mode: it never raises, and what it returns is the accumulated
    posts followed by posts the actor wrote.  When the remote call raises,
    or the page has no feed, it returns the accumulated posts as they were;
    when an entry of the page or the cursor's date cannot be read, it
    returns what had been appended by then.  The synchroniser merges the
    returned set as it is. *)
Theorem C10_fetch_never_raises :
  forall (env : Env) (depth : nat) (actor cursor : string)
         (posts : list PostView) (fetch_all : bool),
    let fetched := get_posts_for_actor env (S depth) actor cursor posts fetch_all in
    let page := _call_endpoint env "app.bsky.feed.getAuthorFeed" (feed_params actor cursor) in
    (exists more,
        fetched = Ok (posts ++ more)%list /\ forallb (written_by actor) more = true)
    /\ (forall e, page = Raise e -> fetched = Ok posts)
    /\ (forall response,
           page = Ok response -> resp_feed response = None -> fetched = Ok posts)
    /\ (forall response items posts1 e,
           page = Ok response -> resp_feed response = Some items ->
           filter_by_actor actor items posts = (posts1, Some e) ->
           fetched = Ok posts1)
    /\ (forall response items posts1 next e,
           page = Ok response -> resp_feed response = Some items ->
           filter_by_actor actor items posts = (posts1, None) ->
           resp_cursor response = Some next ->
           (Z.of_nat (List.length posts1) < 10000)%Z ->
           fetch_all = false ->
           strptime_ymd (first10 next) = Raise e ->
           fetched = Ok posts1)
    /\ (forall d update_all t c,
           sync_transaction env d update_all t = Ok (Some c) ->
           exists working_set,
             get_posts_for_actor env (recursion_limit env) d "" []
               (fetch_mode (count_posts d t) update_all) = Ok working_set
             /\ merge_posts env d update_all t working_set = Ok c).
Proof.
  intros env depth actor cursor posts fetch_all fetched page.
  split; [apply get_posts_for_actor_returns|].
  subst fetched page. unfold feed_params. cbn [get_posts_for_actor].
  split; [intros e ->; reflexivity|].
  split; [intros response -> ->; reflexivity|].
  split.
  { intros response items posts1 e -> -> Hf. cbn [getitem]. now rewrite Hf. }
  split.
  - intros response items posts1 next e -> -> Hf Hn Hlt -> Hs. cbn [getitem].
    rewrite Hf, Hn. apply Z.ltb_lt in Hlt. rewrite Hlt. cbv zeta.
    rewrite Hs. reflexivity.
  - intros d update_all t c H. unfold sync_transaction, fetch_posts in H.
    destruct (get_posts_for_actor env (recursion_limit env) d "" []
                (fetch_mode (count_posts d t) update_all)) as [ws|e]; [|discriminate].
    exists ws. split; [reflexivity|]. simpl in H. destruct ws; [discriminate|].
    destruct (merge_posts env d update_all t (p :: ws)); simpl in H; congruence.
Qed.

Lemma C10_fetch_never_raises_witness :
  _call_endpoint (sample_env_with (fun _ => inl "timeout"))
    "app.bsky.feed.getAuthorFeed" (feed_params "did:abc" "") = Raise
      (Exn BlueskyAPIError "Failed to call app.bsky.feed.getAuthorFeed: timeout")
  /\ get_posts_for_actor (sample_env_with (fun _ => inl "timeout")) 1 "did:abc" ""
       [post_view "at://0" "2024-03-05T09:00:00.000Z" 1] false
     = Ok [post_view "at://0" "2024-03-05T09:00:00.000Z" 1].
Proof.
  split; [reflexivity|].
  exact (proj1 (proj2 (C10_fetch_never_raises (sample_env_with (fun _ => inl "timeout"))
                         0 "did:abc" "" [post_view "at://0" "2024-03-05T09:00:00.000Z" 1]
                         false)) _ eq_refl).
Defined.

(* ================================================================== *)
(** ** C8: the lookup of a single profile *)
(* ================================================================== *)

Lemma single_profile_request env actor :
  get_profiles env [actor] =
  match requests_get env (single_profile_url env actor) with
  | inr body =>
      make_profiles (match resp_profiles body with Some l => l | None => [] end)
  | inl e =>
      Raise (Exn BlueskyAPIError ("Failed to call app.bsky.actor.getProfiles: " ++ e))
  end.
Proof.
  unfold get_profiles, _call_endpoint, single_profile_url. cbn [map String.concat].
  replace (("actors=" ++ actor) =? "") with false by reflexivity.
  replace (base_url env ++ "/xrpc/" ++ "app.bsky.actor.getProfiles")
    with (base_url env ++ "/xrpc/app.bsky.actor.getProfiles") by reflexivity.
  assert (Happ : forall a b c : string, (a ++ b) ++ c = a ++ b ++ c).
  { induction a; intros; simpl; [reflexivity | now rewrite IHa]. }
  rewrite Happ.
  replace ("/xrpc/app.bsky.actor.getProfiles" ++ "?" ++ "actors=" ++ actor)
    with ("/xrpc/app.bsky.actor.getProfiles?actors=" ++ actor) by reflexivity.
  destruct (requests_get env _); reflexivity.
Qed.

(** C8 as stated fails: both errors are [BlueskyAPIError]. *)
Lemma C8_not_found_kind_counterexample : ~ not_found_is_a_distinct_kind.
Proof.
  intros H.
  apply (H (sample_env_with http_no_profiles) (sample_env_with http_down) "bsky.app"
           (Exn BlueskyAPIError "No profile found for bsky.app")
           (Exn BlueskyAPIError
              "Failed to call app.bsky.actor.getProfiles: connection refused")
           "connection refused");
    reflexivity.
Qed.

(** C8, amended. [get_single_profile] on an identifier for which the
    provider returns no profile raises [BlueskyAPIError] with the message
    "No profile found for <actor>"; a failed transport raises the same
    class [BlueskyAPIError], with the message "Failed to call ..."; the two
    differ by their message only.  Otherwise the first profile of the
    answer is returned. *)
Theorem C8_single_profile_lookup :
  forall (env : Env) (actor : string),
    (get_profiles env [actor] = Ok [] ->
     get_single_profile env actor =
       Raise (Exn BlueskyAPIError ("No profile found for " ++ actor)))
    /\ (forall msg,
           requests_get env (single_profile_url env actor) = inl msg ->
           get_single_profile env actor =
             Raise (Exn BlueskyAPIError
                      ("Failed to call app.bsky.actor.getProfiles: " ++ msg)))
    /\ (forall p rest,
           get_profiles env [actor] = Ok (p :: rest) ->
           get_single_profile env actor = Ok p).
Proof.
  intros env actor. unfold get_single_profile. repeat split.
  - intros ->. reflexivity.
  - intros msg Hm. rewrite single_profile_request, Hm. reflexivity.
  - intros p rest ->. reflexivity.
Qed.

Lemma C8_single_profile_lookup_witness :
  get_profiles (sample_env_with http_no_profiles) ["bsky.app"] = Ok []
  /\ get_single_profile (sample_env_with http_no_profiles) "bsky.app"
     = Raise (Exn BlueskyAPIError "No profile found for bsky.app").
Proof.
  split; [reflexivity|].
  exact (proj1 (C8_single_profile_lookup (sample_env_with http_no_profiles) "bsky.app")
           eq_refl).
Defined.

(* ================================================================== *)
(** ** C6: a failing account does not fail the batch *)
(* ================================================================== *)

Lemma process_user_profile_returns env profile curr_date st :
  exists r st', process_user_profile env profile curr_date st = (Ok r, st').
Proof.
  unfold process_user_profile, try_except.
  destruct (process_user_profile_body env profile curr_date st) as [[r|e] st'].
  - now exists r, st'.
  - now exists None, st'.
Qed.

Lemma run_tasks_returns env curr_date profiles :
  forall st,
  exists futures st',
    run_tasks env profiles curr_date st = (Ok futures, st')
    /\ List.length futures = List.length profiles
    /\ forallb is_ok futures = true.
Proof.
  induction profiles as [|p ps IH]; intros st; simpl.
  - exists [], st. repeat split.
  - destruct (process_user_profile_returns env p curr_date st) as [r [st1 E]].
    rewrite E. destruct (IH st1) as [rs [st2 [E2 [L F]]]]. rewrite E2.
    exists (Ok r :: rs), st2. simpl. repeat split; auto.
Qed.

Lemma count_processed_bounds futures :
  (0 <= count_processed futures <= Z.of_nat (List.length futures))%Z.
Proof.
  induction futures as [|[[s|]|e] rest IH];
    cbn [count_processed List.length]; try rewrite Nat2Z.inj_succ; lia.
Qed.

(** C6. [process_user_profile] returns for every profile and never raises.
    It returns [None], with the store untouched, when the account has no
    stored record and when column 7 of its record, the skip flag, is set;
    it returns [None] whenever the sequence of its [try] block raises.  A
    task that returned [None] adds nothing to the processed count, and the
    tasks after it run as the batch without it would from the store it
    left, which for an absent or skipped account is the store it found. *)
Theorem C6_account_failures_are_contained :
  forall (env : Env) (profile : UserProfile) (curr_date : string) (st : Store),
    (exists r st', process_user_profile env profile curr_date st = (Ok r, st'))
    /\ (connect env (CallGetUserByDid (profile_did profile)) = true ->
        find (fun u => u_did u =? profile_did profile) (users_table st) = None ->
        process_user_profile env profile curr_date st = (Ok None, st))
    /\ (forall user_data flag,
           connect env (CallGetUserByDid (profile_did profile)) = true ->
           find (fun u => u_did u =? profile_did profile) (users_table st)
             = Some user_data ->
           user_column user_data 7 = Ok flag -> truthy flag = true ->
           process_user_profile env profile curr_date st = (Ok None, st))
    /\ (forall e st',
           process_user_profile_body env profile curr_date st = (Raise e, st') ->
           process_user_profile env profile curr_date st = (Ok None, st'))
    /\ (forall rest st1,
           process_user_profile env profile curr_date st = (Ok None, st1) ->
           exists futures st2,
             run_tasks env rest curr_date st1 = (Ok futures, st2)
             /\ run_tasks env (profile :: rest) curr_date st
                = (Ok (Ok None :: futures), st2)
             /\ count_processed (Ok None :: futures) = count_processed futures
             /\ forallb is_ok futures = true).
Proof.
  intros env profile curr_date st.
  split; [apply process_user_profile_returns|].
  split.
  { intros Hc Hf.
    unfold process_user_profile, try_except, process_user_profile_body, mbind,
      get_user_by_did, get_connection.
    rewrite Hc, Hf. reflexivity. }
  split.
  { intros user_data flag Hc Hf Hcol Ht.
    unfold process_user_profile, try_except, process_user_profile_body, mbind,
      get_user_by_did, get_connection, lift.
    rewrite Hc, Hf, Hcol, Ht. reflexivity. }
  split.
  { intros e st' Hb. unfold process_user_profile, try_except. rewrite Hb. reflexivity. }
  intros rest st1 H.
  destruct (run_tasks_returns env curr_date rest st1) as [futures [st2 [E [_ F]]]].
  exists futures, st2. split; [exact E|]. split; [|split; [reflexivity | exact F]].
  cbn [run_tasks]. rewrite H, E. reflexivity.
Qed.

Lemma C6_account_failures_are_contained_witness :
  process_user_profile_body (sample_env_with (sample_http broken_feed))
    sample_profile "2024-03-05" sample_store
    = (Raise (Exn KeyError "record"), sample_store)
  /\ process_user_profile (sample_env_with (sample_http broken_feed))
       sample_profile "2024-03-05" sample_store
     = (Ok None, sample_store).
Proof.
  split; [vm_compute; reflexivity|].
  refine (proj1 (proj2 (proj2 (proj2
            (C6_account_failures_are_contained
               (sample_env_with (sample_http broken_feed))
               sample_profile "2024-03-05" sample_store)))) _ _ _).
  vm_compute. reflexivity.
Defined.

(* ================================================================== *)
(** ** C7: chunks whose fetch fails *)
(* ================================================================== *)

Lemma collect_profiles_successful env user_chunks :
  forall all_profiles,
    collect_profiles env user_chunks all_profiles
    = (all_profiles ++ successful_profiles env user_chunks)%list.
Proof.
  induction user_chunks as [|chunk rest IH]; intros acc; simpl.
  - now rewrite app_nil_r.
  - destruct (get_profiles env (map fst chunk)) as [ps|e]; rewrite IH.
    + now rewrite app_assoc.
    + reflexivity.
Qed.

Lemma update_log_sql_completes date log_id duration total t row :
  l_id row = log_id ->
  In (mkLogRow completed (l_time_started row) date (Some duration) total log_id)
     (update_log_sql date log_id duration total (t ++ [row])%list).
Proof.
  intros Hid. unfold update_log_sql. apply in_sql_update. right.
  exists row. split; [apply in_or_app; right; now left|].
  split; [now rewrite Hid, Z.eqb_refl | now rewrite Hid].
Qed.

(** The provider fails on the second of three chunks: the run completes,
    26 accounts are processed, and the run log entry is completed. *)
Example partial_failure_run :
  is_ok (get_profiles partial_env chunk2) = false
  /\ List.length (successful_profiles partial_env
                    (_chunk_users (active_users_query partial_env true many_store) 25))
     = 26%nat
  /\ fst (run_snapshot_collection partial_env true many_store) = Ok tt
  /\ snapshot_logs_table (snd (run_snapshot_collection partial_env true many_store))
     = [log_entry_completed partial_env many_store 26]
  /\ List.length
       (snapshots_table (snd (run_snapshot_collection partial_env true many_store)))
     = 26%nat.
Proof. repeat split; vm_compute; reflexivity. Qed.

(* ================================================================== *)
(** ** The merge loop *)
(* ================================================================== *)

Section Merge.

Variable env : Env.

Lemma engagement_changed_same row existing_row l r q rp :
  likeCount row = Some l -> replyCount row = Some r ->
  quoteCount row = Some q -> repostCount row = Some rp ->
  same_counters l r q rp existing_row ->
  engagement_changed existing_row row = Ok false.
Proof.
  intros Hl Hr Hq Hrp (E1 & E2 & E3 & E4). unfold engagement_changed.
  rewrite Hl, Hr, Hq, Hrp. cbn [getitem bind].
  rewrite E1, E2, E3, E4, !Z.eqb_refl. reflexivity.
Qed.

Lemma engagement_changed_differs row existing_row l r q rp :
  likeCount row = Some l -> replyCount row = Some r ->
  quoteCount row = Some q -> repostCount row = Some rp ->
  ~ same_counters l r q rp existing_row ->
  engagement_changed existing_row row = Ok true.
Proof.
  intros Hl Hr Hq Hrp Hn. unfold engagement_changed.
  rewrite Hl, Hr, Hq, Hrp. cbn [getitem bind]. unfold same_counters in Hn.
  destruct (Z.eqb_spec (p_likes existing_row) l); [|reflexivity].
  destruct (Z.eqb_spec (p_replies existing_row) r); [|reflexivity].
  destruct (Z.eqb_spec (p_quotes existing_row) q); [|reflexivity].
  destruct (Z.eqb_spec (p_reposts existing_row) rp); [|reflexivity].
  tauto.
Qed.

(** When the comparison of lines 122-125 returns, the counters it needed
    were read; when it finds no change, all four were read and are the
    stored ones. *)
Lemma engagement_changed_false row existing_row :
  engagement_changed existing_row row = Ok false ->
  exists l r q rp,
    likeCount row = Some l /\ replyCount row = Some r
    /\ quoteCount row = Some q /\ repostCount row = Some rp
    /\ same_counters l r q rp existing_row.
Proof.
  unfold engagement_changed, same_counters.
  destruct (likeCount row) as [l|]; cbn [getitem bind]; [|discriminate].
  destruct (Z.eqb_spec (p_likes existing_row) l); cbn [negb py_or]; [|discriminate].
  destruct (replyCount row) as [r|]; cbn [getitem bind]; [|discriminate].
  destruct (Z.eqb_spec (p_replies existing_row) r); cbn [negb py_or]; [|discriminate].
  destruct (quoteCount row) as [q|]; cbn [getitem bind]; [|discriminate].
  destruct (Z.eqb_spec (p_quotes existing_row) q); cbn [negb py_or]; [|discriminate].
  destruct (repostCount row) as [rp|]; cbn [getitem bind]; [|discriminate].
  destruct (Z.eqb_spec (p_reposts existing_row) rp); cbn [negb]; [|discriminate].
  intros _. exists l, r, q, rp. auto 10.
Qed.

Lemma merge_step_sound update_all tracked_posts row ms ms' :
  merge_step env update_all tracked_posts row ms ms' ->
  merge_row env update_all tracked_posts row ms = Ok ms'.
Proof.
  intros H; destruct H as
      [c Hc Hs
      | c u ex others l r q rp Hc Hs Hu Hst Hl Hr Hq Hrp Hsame
      | c u ex others l r q rp Hc Hs Hu Hst Hl Hr Hq Hrp Hdiff
      | c u a d l r q rp Hc Hs Hu Hst Ha Hd Hl Hr Hq Hrp];
    unfold merge_row; rewrite Hc; cbn [bind]; rewrite Hs;
    try rewrite Hu; cbn [getitem bind];
    try (unfold stored_for in Hst; rewrite Hst).
  - reflexivity.
  - rewrite (engagement_changed_same row ex l r q rp); auto.
  - rewrite (engagement_changed_differs row ex l r q rp); auto.
    cbn [bind]. rewrite Hl, Hr, Hq, Hrp. reflexivity.
  - rewrite Ha. cbn [getitem bind]. rewrite Hd, Hl, Hr, Hq, Hrp. reflexivity.
Qed.

Lemma merge_step_complete update_all tracked_posts row ms ms' :
  merge_row env update_all tracked_posts row ms = Ok ms' ->
  merge_step env update_all tracked_posts row ms ms'.
Proof.
  unfold merge_row. intros H.
  destruct (row_createdAt row) as [c|e] eqn:Hc; cbn [bind] in H; [|discriminate].
  destruct (skips env update_all c) eqn:Hs.
  { inversion H; subst. eapply step_skip; eauto. }
  destruct (uri row) as [u|] eqn:Hu; cbn [getitem bind] in H; [|discriminate].
  destruct (filter (fun t => p_uri t =? u) tracked_posts) as [|ex others] eqn:Hst.
  - destruct (author row) as [a|] eqn:Ha; cbn [getitem bind] in H; [|discriminate].
    destruct (author_did a) as [d|] eqn:Hd; cbn [getitem bind] in H; [|discriminate].
    destruct (likeCount row) as [l|] eqn:Hl; cbn [getitem bind] in H; [|discriminate].
    destruct (replyCount row) as [r|] eqn:Hr; cbn [getitem bind] in H; [|discriminate].
    destruct (quoteCount row) as [q|] eqn:Hq; cbn [getitem bind] in H; [|discriminate].
    destruct (repostCount row) as [rp|] eqn:Hrp; cbn [getitem bind] in H; [|discriminate].
    inversion H; subst. eapply step_insert; eauto.
  - destruct (engagement_changed ex row) as [[|]|e] eqn:Hch; cbn [bind] in H;
      [| |discriminate].
    + destruct (likeCount row) as [l|] eqn:Hl; cbn [getitem bind] in H; [|discriminate].
      destruct (replyCount row) as [r|] eqn:Hr; cbn [getitem bind] in H; [|discriminate].
      destruct (quoteCount row) as [q|] eqn:Hq; cbn [getitem bind] in H; [|discriminate].
      destruct (repostCount row) as [rp|] eqn:Hrp; cbn [getitem bind] in H; [|discriminate].
      cbn in H. inversion H; subst.
      eapply step_update; eauto.
      intros Hsame.
      rewrite (engagement_changed_same row ex l r q rp) in Hch; auto. discriminate.
    + inversion H; subst.
      destruct (engagement_changed_false row ex Hch) as (l & r & q & rp & Hl & Hr & Hq & Hrp & Hsame).
      eapply step_same; eauto.
Qed.

End Merge.

(* ================================================================== *)
(** ** Deduplication *)
(* ================================================================== *)

Lemma opt_eqb_refl a : opt_eqb a a = true.
Proof. destruct a; simpl; [apply String.eqb_refl | reflexivity]. Qed.

Lemma opt_eqb_eq a b : opt_eqb a b = true <-> a = b.
Proof.
  destruct a as [x|], b as [y|]; simpl; split; intros H;
    try discriminate; try reflexivity.
  - apply String.eqb_eq in H. now subst.
  - inversion H. apply String.eqb_refl.
Qed.

Lemma keep_first_subset rows r : In r (keep_first rows) -> In r rows.
Proof.
  induction rows as [|x rows IH]; simpl; [tauto|].
  intros [-> | H]; [now left|]. right. apply IH.
  apply filter_In in H. tauto.
Qed.

Lemma keep_first_unique rows r1 r2 :
  In r1 (keep_first rows) -> In r2 (keep_first rows) -> uri r1 = uri r2 -> r1 = r2.
Proof.
  induction rows as [|x rows IH]; simpl; [tauto|].
  intros [<- | H1] [<- | H2] Hu; auto.
  - apply filter_In in H2 as [_ H2]. rewrite Hu, opt_eqb_refl in H2. discriminate.
  - apply filter_In in H1 as [_ H1]. rewrite <- Hu, opt_eqb_refl in H1. discriminate.
  - apply filter_In in H1 as [H1 _]. apply filter_In in H2 as [H2 _]. auto.
Qed.

Lemma filter_length_le {A} (f : A -> bool) l :
  (List.length (filter f l) <= List.length l)%nat.
Proof. induction l as [|x l IH]; simpl; [lia|]. destruct (f x); simpl; lia. Qed.

Lemma filter_comm {A} (f g : A -> bool) l :
  filter f (filter g l) = filter g (filter f l).
Proof.
  induction l as [|x l IH]; simpl; [reflexivity|].
  destruct (f x) eqn:F, (g x) eqn:G; simpl; rewrite ?F, ?G, IH; reflexivity.
Qed.

Lemma filter_negb_nil {A} (f : A -> bool) l :
  filter f (filter (fun y => negb (f y)) l) = [].
Proof.
  induction l as [|y l IH]; simpl; [reflexivity|].
  destruct (f y) eqn:F; simpl; [exact IH|]. now rewrite F.
Qed.

Lemma fetched_for_keep_first_le u rows :
  (List.length (fetched_for u (keep_first rows)) <= 1)%nat.
Proof.
  unfold fetched_for. induction rows as [|x rows IH]; simpl; [lia|].
  destruct (opt_eqb (uri x) (Some u)) eqn:E.
  - apply opt_eqb_eq in E. simpl.
    replace (filter (fun r => opt_eqb (uri r) (Some u))
               (filter (fun y => negb (opt_eqb (uri y) (uri x))) (keep_first rows)))
      with (@nil PostView); [simpl; lia|].
    symmetry. rewrite E. apply filter_negb_nil.
  - rewrite filter_comm.
    etransitivity; [apply filter_length_le | exact IH].
Qed.

Lemma fetched_for_keep_first_one u rows :
  fetched_for u rows <> [] ->
  List.length (fetched_for u (keep_first rows)) = 1%nat.
Proof.
  unfold fetched_for. induction rows as [|x rows IH]; simpl; [tauto|].
  destruct (opt_eqb (uri x) (Some u)) eqn:E; intros Hne.
  - pose proof (fetched_for_keep_first_le u (x :: rows)) as Hle.
    unfold fetched_for in Hle. simpl in Hle. rewrite E in Hle. simpl in *. lia.
  - rewrite filter_comm.
    replace (filter (fun y => negb (opt_eqb (uri y) (uri x)))
               (filter (fun r => opt_eqb (uri r) (Some u)) (keep_first rows)))
      with (filter (fun r => opt_eqb (uri r) (Some u)) (keep_first rows));
      [apply IH; exact Hne|].
    symmetry. apply forallb_filter_id. apply forallb_forall.
    intros y Hy. apply filter_In in Hy as [_ Hy]. apply opt_eqb_eq in Hy.
    rewrite Hy. destruct (opt_eqb (Some u) (uri x)) eqn:F; [|reflexivity].
    apply opt_eqb_eq in F. rewrite <- F, opt_eqb_refl in E. discriminate.
Qed.

(* ================================================================== *)
(** ** What the statements of a run write *)
(* ================================================================== *)

Section Writes.

Variable env : Env.

Lemma stored_for_update l r q rp now u' u t :
  stored_for u (update_post_sql l r q rp now u' t) =
  if u' =? u then update_post_sql l r q rp now u' (stored_for u t) else stored_for u t.
Proof.
  unfold stored_for, update_post_sql.
  rewrite filter_sql_update by reflexivity.
  destruct (String.eqb_spec u' u) as [E|E]; [reflexivity|].
  apply sql_update_none. intros x Hx. apply filter_In in Hx as [_ Hx].
  apply String.eqb_eq in Hx. apply String.eqb_neq. congruence.
Qed.

Lemma writes_for_app u l1 l2 :
  writes_for u (l1 ++ l2) = (writes_for u l1 ++ writes_for u l2)%list.
Proof. apply filter_app. Qed.

Lemma stored_for_app u l1 l2 :
  stored_for u (l1 ++ l2) = (stored_for u l1 ++ stored_for u l2)%list.
Proof. apply filter_app. Qed.

Lemma writes_for_inserts u rows :
  writes_for u (map InsertPost rows) = map InsertPost (stored_for u rows).
Proof.
  unfold writes_for, stored_for. induction rows as [|x rows IH]; simpl; [reflexivity|].
  destruct (p_uri x =? u); simpl; now rewrite IH.
Qed.

Lemma insert_all_spec rows :
  forall c c',
    insert_all rows c = Ok c' ->
    tx_log c' = (tx_log c ++ map InsertPost rows)%list
    /\ tx_posts c' = (tx_posts c ++ rows)%list.
Proof.
  induction rows as [|x rows IH]; intros c c' H; simpl in H.
  - inversion H; subst. now rewrite !app_nil_r.
  - unfold insert_post_sql in H.
    destruct (existsb (fun r => p_uri r =? p_uri x) (tx_posts c)); [discriminate|].
    cbn [bind] in H. apply IH in H as [H1 H2]. simpl in H1, H2.
    rewrite H1, H2, <- !app_assoc. split; reflexivity.
Qed.

(** An iteration on a row of another URI writes nothing under [u]. *)
Lemma merge_row_other_uri update_all tracked_posts u row ms ms' :
  merge_row env update_all tracked_posts row ms = Ok ms' ->
  opt_eqb (uri row) (Some u) = false ->
  writes_for u (tx_log (ms_txn ms')) = writes_for u (tx_log (ms_txn ms))
  /\ stored_for u (posts_to_insert ms') = stored_for u (posts_to_insert ms)
  /\ stored_for u (tx_posts (ms_txn ms')) = stored_for u (tx_posts (ms_txn ms)).
Proof.
  intros E Hne. apply merge_step_complete in E.
  destruct E as
      [c Hc Hs
      | c u' ex others l r q rp Hc Hs Hu Hst Hl Hr Hq Hrp Hsame
      | c u' ex others l r q rp Hc Hs Hu Hst Hl Hr Hq Hrp Hdiff
      | c u' a d l r q rp Hc Hs Hu Hst Ha Hd Hl Hr Hq Hrp];
    auto; rewrite Hu in Hne; cbn [opt_eqb] in Hne; simpl.
  - rewrite writes_for_app, stored_for_update, Hne. simpl. rewrite Hne.
    now rewrite app_nil_r.
  - rewrite stored_for_app. simpl. rewrite Hne. now rewrite app_nil_r.
Qed.

(** A URI is not written by the loop when the iterations on its rows leave
    the state as it is. *)
Lemma merge_rows_leave_quiet update_all tracked_posts u rows :
  forall ms ms',
    merge_rows env update_all tracked_posts rows ms = Ok ms' ->
    (forall r, In r rows -> uri r = Some u ->
               forall ms0, merge_row env update_all tracked_posts r ms0 = Ok ms0) ->
    writes_for u (tx_log (ms_txn ms')) = writes_for u (tx_log (ms_txn ms))
    /\ stored_for u (posts_to_insert ms') = stored_for u (posts_to_insert ms)
    /\ stored_for u (tx_posts (ms_txn ms')) = stored_for u (tx_posts (ms_txn ms)).
Proof.
  induction rows as [|row rows IH]; intros ms ms' H Hquiet; simpl in H.
  - inversion H; subst. auto.
  - destruct (merge_row env update_all tracked_posts row ms) as [ms1|e] eqn:E;
      cbn [bind] in H; [|discriminate].
    apply IH in H; [|intros r Hr; apply Hquiet; now right].
    destruct H as (H1 & H2 & H3). rewrite H1, H2, H3.
    destruct (opt_eqb (uri row) (Some u)) eqn:Eu.
    + apply opt_eqb_eq in Eu.
      rewrite (Hquiet row (or_introl eq_refl) Eu ms) in E. inversion E; subst. auto.
    + eapply merge_row_other_uri; eauto.
Qed.

(** The loop issues at most one statement, or queues at most one insert,
    for each row of the working set, and under the URI of that row. *)
Lemma merge_rows_writes_le update_all tracked_posts u rows :
  forall ms ms',
    merge_rows env update_all tracked_posts rows ms = Ok ms' ->
    (List.length (writes_for u (tx_log (ms_txn ms')))
     + List.length (stored_for u (posts_to_insert ms'))
     <= List.length (writes_for u (tx_log (ms_txn ms)))
        + List.length (stored_for u (posts_to_insert ms))
        + List.length (fetched_for u rows))%nat.
Proof.
  induction rows as [|row rows IH]; intros ms ms' H; simpl in H.
  - inversion H; subst. simpl. lia.
  - destruct (merge_row env update_all tracked_posts row ms) as [ms1|e] eqn:E;
      cbn [bind] in H; [|discriminate].
    apply IH in H. etransitivity; [exact H|]. clear H.
    unfold fetched_for. cbn [filter]. fold (fetched_for u rows).
    apply merge_step_complete in E.
    destruct E as
        [c Hc Hs
        | c u' ex others l r q rp Hc Hs Hu Hst Hl Hr Hq Hrp Hsame
        | c u' ex others l r q rp Hc Hs Hu Hst Hl Hr Hq Hrp Hdiff
        | c u' a d l r q rp Hc Hs Hu Hst Ha Hd Hl Hr Hq Hrp];
      try (destruct (opt_eqb (uri row) (Some u)); simpl; lia);
      rewrite Hu; cbn [opt_eqb ms_txn tx_log posts_to_insert].
    + rewrite writes_for_app, length_app. cbn [writes_for filter stmt_uri].
      destruct (u' =? u); simpl; lia.
    + rewrite stored_for_app, length_app. cbn [stored_for filter p_uri].
      destruct (u' =? u); simpl; lia.
Qed.

(** A row that is not skipped and is new or changed has exactly one
    statement or queued insert, when it is the only row of its URI. *)
Lemma merge_rows_write_once update_all tracked_posts u rows :
  forall ms ms',
    merge_rows env update_all tracked_posts rows ms = Ok ms' ->
    (List.length (fetched_for u rows) <= 1)%nat ->
    forall row c,
      In row rows -> uri row = Some u ->
      row_createdAt row = Ok c -> skips env update_all c = false ->
      new_or_changed tracked_posts row u ->
      (List.length (writes_for u (tx_log (ms_txn ms')))
       + List.length (stored_for u (posts_to_insert ms'))
       = List.length (writes_for u (tx_log (ms_txn ms)))
         + List.length (stored_for u (posts_to_insert ms)) + 1)%nat.
Proof.
  induction rows as [|x rows IH]; intros ms ms' H Hone row c Hin Hu Hc Hs Hnew;
    [contradiction|].
  simpl in H.
  destruct (merge_row env update_all tracked_posts x ms) as [ms1|e] eqn:E;
    cbn [bind] in H; [|discriminate].
  unfold fetched_for in Hone. cbn [filter] in Hone. fold (fetched_for u rows) in Hone.
  destruct Hin as [-> | Hin].
  - rewrite Hu, opt_eqb_refl in Hone. simpl in Hone.
    assert (Hrest : fetched_for u rows = []).
    { destruct (fetched_for u rows); [reflexivity | simpl in Hone; lia]. }
    apply (merge_rows_leave_quiet update_all tracked_posts u) in H.
    + destruct H as (H1 & H2 & _). rewrite H1, H2. clear H1 H2.
      apply merge_step_complete in E.
      destruct E as
          [c' Hc' Hs'
          | c' u' ex others l r q rp Hc' Hs' Hu' Hst Hl Hr Hq Hrp Hsame
          | c' u' ex others l r q rp Hc' Hs' Hu' Hst Hl Hr Hq Hrp Hdiff
          | c' u' a d l r q rp Hc' Hs' Hu' Hst Ha Hd Hl Hr Hq Hrp].
      * congruence.
      * exfalso. assert (u' = u) by congruence. subst u'.
        destruct Hnew as [Hn | (ex' & others' & l' & r' & q' & rp' & Hst' & Hl' & Hr' & Hq' & Hrp' & Hd')].
        -- congruence.
        -- rewrite Hst in Hst'. inversion Hst'; subst.
           apply Hd'. congruence.
      * assert (u' = u) by congruence. subst u'.
        cbn [ms_txn tx_log posts_to_insert].
        rewrite writes_for_app, length_app. cbn [writes_for filter stmt_uri].
        rewrite String.eqb_refl. simpl. lia.
      * assert (u' = u) by congruence. subst u'.
        cbn [ms_txn tx_log posts_to_insert].
        rewrite stored_for_app, length_app. cbn [stored_for filter p_uri].
        rewrite String.eqb_refl. simpl. lia.
    + intros r Hr Hur. exfalso.
      assert (In r (fetched_for u rows)).
      { unfold fetched_for. apply filter_In. split; [exact Hr|].
        rewrite Hur. apply opt_eqb_refl. }
      rewrite Hrest in H0. contradiction.
  - assert (Hx : opt_eqb (uri x) (Some u) = false).
    { destruct (opt_eqb (uri x) (Some u)) eqn:Ex; [|reflexivity].
      exfalso.
      assert (Hr : In row (fetched_for u rows)).
      { unfold fetched_for. apply filter_In. split; [exact Hin|].
        rewrite Hu. apply opt_eqb_refl. }
      destruct (fetched_for u rows); [contradiction | simpl in Hone; lia]. }
    rewrite Hx in Hone.
    destruct (merge_row_other_uri update_all tracked_posts u x ms ms1 E Hx)
      as (H1 & H2 & _).
    rewrite <- H1, <- H2. eapply IH; eauto.
Qed.

End Writes.

(* ================================================================== *)
(** ** Dates as strings *)
(* ================================================================== *)

Lemma ascii_compare_refl c : Ascii.compare c c = Eq.
Proof. unfold Ascii.compare. apply N.compare_refl. Qed.

Lemma digit_char_lt a b :
  (0 <= a < b)%Z -> (b < 10)%Z -> Ascii.compare (digit_char a) (digit_char b) = Lt.
Proof.
  intros Ha Hb. unfold Ascii.compare, digit_char, ascii_of_nat.
  assert (E1 : (N.of_nat (48 + Z.to_nat a) < 256)%N) by lia.
  assert (E2 : (N.of_nat (48 + Z.to_nat b) < 256)%N) by lia.
  rewrite (N_ascii_embedding _ E1), (N_ascii_embedding _ E2).
  apply N.compare_lt_iff. lia.
Qed.

Lemma string_app_assoc (a b c : string) : (a ++ b) ++ c = a ++ b ++ c.
Proof. induction a as [|x a IH]; simpl; [reflexivity | now rewrite IH]. Qed.

Lemma compare_zpad_same k n r1 r2 :
  String.compare (zpad k n ++ r1) (zpad k n ++ r2) = String.compare r1 r2.
Proof.
  induction k as [|k IH]; cbn [zpad append String.compare]; [reflexivity|].
  now rewrite ascii_compare_refl.
Qed.

Lemma compare_zpad_lt k :
  forall a b r1 r2,
    (0 <= a)%Z -> (0 <= b)%Z ->
    (a mod 10 ^ Z.of_nat k < b mod 10 ^ Z.of_nat k)%Z ->
    String.compare (zpad k a ++ r1) (zpad k b ++ r2) = Lt.
Proof.
  induction k as [|k IH]; intros a b r1 r2 Ha Hb Hlt.
  - change (10 ^ Z.of_nat 0)%Z with 1%Z in Hlt. rewrite !Z.mod_1_r in Hlt. lia.
  - cbn [zpad append String.compare].
    assert (Hp : (0 < 10 ^ Z.of_nat k)%Z) by (apply Z.pow_pos_nonneg; lia).
    rewrite Nat2Z.inj_succ, Z.pow_succ_r, Z.mul_comm in Hlt by lia.
    rewrite !Z.rem_mul_r in Hlt by lia.
    pose proof (Z.mod_pos_bound a (10 ^ Z.of_nat k) Hp) as Ba.
    pose proof (Z.mod_pos_bound b (10 ^ Z.of_nat k) Hp) as Bb.
    pose proof (Z.mod_pos_bound (a / 10 ^ Z.of_nat k) 10 ltac:(lia)) as Da.
    pose proof (Z.mod_pos_bound (b / 10 ^ Z.of_nat k) 10 ltac:(lia)) as Db.
    destruct (Z.lt_trichotomy ((a / 10 ^ Z.of_nat k) mod 10)
                ((b / 10 ^ Z.of_nat k) mod 10)) as [Hd | [Hd | Hd]].
    + now rewrite (digit_char_lt _ _ (conj (proj1 Da) Hd) (proj2 Db)).
    + rewrite Hd, ascii_compare_refl. apply IH; lia.
    + exfalso. nia.
Qed.

Lemma zpad_lt k a b r1 r2 :
  (0 <= a < b)%Z -> (b < 10 ^ Z.of_nat k)%Z ->
  String.compare (zpad k a ++ r1) (zpad k b ++ r2) = Lt.
Proof.
  intros H1 H2. apply compare_zpad_lt; try lia.
  rewrite !Z.mod_small by lia. lia.
Qed.

Lemma cutoff_date_is_date_str env : cutoff_date env = date_str (time_range env).
Proof. reflexivity. Qed.

Lemma append_nil_r_date t : date_str t ++ "" = date_str t.
Proof.
  generalize (date_str t). intros s.
  induction s as [|x s IH]; simpl; [reflexivity | now rewrite IH].
Qed.

Lemma compare_app_same (s r1 r2 : string) :
  String.compare (s ++ r1) (s ++ r2) = String.compare r1 r2.
Proof.
  induction s as [|x s IH]; cbn [append String.compare]; [reflexivity|].
  now rewrite ascii_compare_refl.
Qed.

(** The date strings of two calendar days sort as the days do, whatever
    follows them. *)
Lemma date_str_lt a b r1 r2 :
  printable_date a -> printable_date b ->
  day_before a b = true ->
  String.compare (date_str a ++ r1) (date_str b ++ r2) = Lt.
Proof.
  intros (Y1 & M1 & D1) (Y2 & M2 & D2) Hb.
  unfold date_str. rewrite !string_app_assoc.
  unfold day_before in Hb. cbn [lex_ltb] in Hb.
  rewrite andb_false_r, orb_false_r in Hb.
  destruct (Z.ltb_spec (year a) (year b)) as [Hy|Hy].
  { apply zpad_lt; simpl; lia. }
  destruct (Z.eqb_spec (year a) (year b)) as [Ey|Ey]; [|discriminate].
  rewrite Ey, compare_zpad_same. cbn [append String.compare]. rewrite ascii_compare_refl.
  destruct (Z.ltb_spec (month a) (month b)) as [Hm|Hm].
  { apply zpad_lt; simpl; lia. }
  destruct (Z.eqb_spec (month a) (month b)) as [Em|Em]; [|discriminate].
  rewrite Em, compare_zpad_same. cbn [append String.compare]. rewrite ascii_compare_refl.
  simpl in Hb. apply Z.ltb_lt in Hb.
  apply zpad_lt; simpl; lia.
Qed.

Lemma day_not_before a b :
  day_before a b = false ->
  (year a = year b /\ month a = month b /\ day a = day b) \/ day_before b a = true.
Proof.
  unfold day_before. cbn [lex_ltb]. rewrite !andb_false_r, !orb_false_r.
  destruct (Z.ltb_spec (year a) (year b)), (Z.eqb_spec (year a) (year b)),
    (Z.ltb_spec (month a) (month b)), (Z.eqb_spec (month a) (month b)),
    (Z.ltb_spec (day a) (day b));
    cbn [orb andb]; try discriminate; intros _;
    destruct (Z.ltb_spec (year b) (year a)), (Z.eqb_spec (year b) (year a)),
      (Z.ltb_spec (month b) (month a)), (Z.eqb_spec (month b) (month a)),
      (Z.ltb_spec (day b) (day a));
    cbn [orb andb]; auto; try lia; left; lia.
Qed.

(** A creation time rendered by the provider sorts at or before the date
    string of a calendar day exactly when it is of an earlier day. *)
Lemma iso_z_leb_date created t :
  printable_date created -> printable_date t ->
  (iso_z created <=? date_str t) = day_before created t.
Proof.
  intros P1 P2. unfold String.leb.
  destruct (day_before created t) eqn:Hb.
  - unfold iso_z. rewrite <- (append_nil_r_date t) at 1.
    now rewrite (date_str_lt created t _ "" P1 P2 Hb).
  - apply day_not_before in Hb as [(Ey & Em & Ed) | Hb].
    + assert (E : date_str created = date_str t)
        by (unfold date_str; now rewrite Ey, Em, Ed).
      unfold iso_z. rewrite E. rewrite <- (append_nil_r_date t) at 2.
      rewrite compare_app_same. reflexivity.
    + unfold iso_z. rewrite String.compare_antisym.
      rewrite <- (append_nil_r_date t).
      now rewrite (date_str_lt t created "" _ P2 P1 Hb).
Qed.

Lemma iso_z_before_date created t :
  printable_date created -> printable_date t ->
  day_before created t = true ->
  (iso_z created <=? date_str t) = true.
Proof. intros P1 P2 Hb. now rewrite iso_z_leb_date. Qed.

(* ================================================================== *)
(** ** C2: posts older than the cutoff date *)
(* ================================================================== *)

(** C2 as stated fails on a post created on the cutoff's own day,
    before the cutoff's time of day: the run of 5 March, 15:00 inserts a
    post of 27 February, 10:00. *)
Lemma C2_cutoff_day_counterexample : ~ older_than_cutoff_is_skipped.
Proof.
  intros H.
  specialize (H sample_env (mkDatetime 2024 2 27 10 0 0 0)
                (post_view "at://3" "2024-02-27T10:00:00.000Z" 7) "at://3" "did:abc"
                sample_store
                [post_view "at://1" "2024-03-04T10:00:00.000Z" 3;
                 post_view "at://2" "2024-03-03T10:00:00.000Z" 10;
                 post_view "at://3" "2024-02-27T10:00:00.000Z" 7]
                eq_refl eq_refl eq_refl eq_refl).
  vm_compute in H. specialize (H (or_intror (or_intror (or_introl eq_refl)))).
  discriminate H.
Qed.

(** C2, amended. In incremental mode the cutoff test skips a fetched post
    exactly when its [createdAt] string sorts at or before the
    'YYYY-MM-DD' string of [now - 7 days].  On a post it skips, the merge
    loop leaves its state as it is (no statement, no queued insert); when
    such a post is the row the working set keeps for its URI, the whole
    merge executes no statement for that URI, and however the method ends
    the stored rows of the URI are as they were.  A post it does not skip
    is merged as in full mode: it is looked up, and queued for insertion
    when the lookup does not have its URI.  For a [createdAt] in the
    provider's format [YYYY-MM-DDTHH:MM:SS.mmmZ] the post is skipped
    exactly when it was created on a calendar day before the cutoff's
    day: a post of the cutoff's own day is not skipped, whatever its time
    of day. *)
Theorem C2_posts_before_cutoff_date_are_skipped :
  forall (env : Env) (row : PostView) (c : string),
    row_createdAt row = Ok c ->
    skips env false c = (c <=? cutoff_date env)
    /\ ((c <=? cutoff_date env) = true ->
        (forall tracked_posts ms, merge_row env false tracked_posts row ms = Ok ms)
        /\ (forall d t fetched txn u,
               merge_posts env d false t fetched = Ok txn ->
               In row (keep_first fetched) -> uri row = Some u ->
               writes_for u (tx_log txn) = []
               /\ stored_for u (tx_posts txn) = stored_for u t)
        /\ (forall d st fetched u,
               fetch_posts env d false (posts_table st) = Ok fetched ->
               In row (keep_first fetched) -> uri row = Some u ->
               stored_for u (posts_table (snd (update_posts_for_actor env d false st)))
               = stored_for u (posts_table st)))
    /\ ((c <=? cutoff_date env) = false ->
        (forall tracked_posts ms,
            merge_row env false tracked_posts row ms
            = merge_row env true tracked_posts row ms)
        /\ (forall tracked_posts ms u a d l r q rp,
               uri row = Some u -> stored_for u tracked_posts = [] ->
               author row = Some a -> author_did a = Some d ->
               likeCount row = Some l -> replyCount row = Some r ->
               quoteCount row = Some q -> repostCount row = Some rp ->
               merge_row env false tracked_posts row ms
               = Ok (mkMergeState (ms_txn ms)
                       (posts_to_insert ms
                          ++ [mkPostRow u d l r q rp c (utc_now env)])%list
                       (posts_updated ms))))
    /\ (forall created,
           c = iso_z created ->
           printable_date created -> printable_date (time_range env) ->
           skips env false c = day_before created (time_range env)).
Proof.
  intros env row c Hc.
  assert (Htest : skips env false c = (c <=? cutoff_date env)) by reflexivity.
  split; [exact Htest|]. split; [|split].
  2:{ intros Hgt. rewrite Hgt in Htest. split.
      - intros tracked_posts ms. unfold merge_row. rewrite Hc. cbn [bind].
        rewrite Htest. unfold skips. reflexivity.
      - intros tracked_posts ms u a d l r q rp Hu Hst Ha Hd Hl Hr Hq Hrp.
        apply merge_step_sound. eapply step_insert; eauto. }
  2:{ intros created -> P1 P2. rewrite Htest, cutoff_date_is_date_str.
      now apply iso_z_leb_date. }
  intros Hle.
  assert (Hs : skips env false c = true) by (now rewrite Htest).
  split.
  { intros tracked_posts ms. apply merge_step_sound. eapply step_skip; eauto. }
  assert (Hrun : forall d t fetched txn u,
             merge_posts env d false t fetched = Ok txn ->
             In row (keep_first fetched) -> uri row = Some u ->
             writes_for u (tx_log txn) = []
             /\ stored_for u (tx_posts txn) = stored_for u t);
    [|split; [exact Hrun|];
      intros d st fetched u Hf Hin Hu;
      unfold update_posts_for_actor, get_connection;
      destruct (connect env (CallUpdatePosts d)); [|reflexivity];
      unfold sync_transaction; rewrite Hf; cbn [bind];
      destruct fetched as [|x fetched]; [reflexivity|];
      destruct (merge_posts env d false (posts_table st) (x :: fetched)) as [txn|e] eqn:Em;
      cbn [bind]; [|reflexivity];
      exact (proj2 (Hrun d (posts_table st) (x :: fetched) txn u Em Hin Hu))].
  intros d t fetched txn u Hm Hin Hu. unfold merge_posts in Hm.
  destruct (drop_duplicates fetched) as [rows|e] eqn:Ed; cbn [bind] in Hm; [|discriminate].
  assert (rows = keep_first fetched).
  { unfold drop_duplicates in Ed. destruct (forallb no_uri fetched); congruence. }
  subst rows.
  destruct (merge_rows env false (select_tracked env d false t) (keep_first fetched)
              (mkMergeState (mkTxn t []) [] 0)) as [ms|e] eqn:Em;
    cbn [bind] in Hm; [|discriminate].
  apply insert_all_spec in Hm as [Hlog Hposts].
  apply (merge_rows_leave_quiet env false _ u) in Em.
  - destruct Em as (E1 & E2 & E3). simpl in E1, E2, E3.
    rewrite Hlog, Hposts, writes_for_app, writes_for_inserts, stored_for_app.
    rewrite E1, E2, E3. simpl. split; [reflexivity | apply app_nil_r].
  - intros r Hr Hur ms0. assert (r = row).
    { eapply keep_first_unique; eauto. congruence. }
    subst r. apply merge_step_sound. eapply step_skip; eauto.
Qed.

(** The run of 5 March 2024, 15:00, whose cutoff is 27 February, 15:00: a
    post of 26 February, 23:59 is skipped; a post of 27 February, 10:00 is
    not, and is queued for insertion. *)
Lemma C2_posts_before_cutoff_date_are_skipped_witness :
  (row_createdAt (post_view "at://4" "2024-02-26T23:59:59.000Z" 9)
     = Ok "2024-02-26T23:59:59.000Z"
   /\ ("2024-02-26T23:59:59.000Z" <=? cutoff_date sample_env) = true
   /\ merge_row sample_env false [] (post_view "at://4" "2024-02-26T23:59:59.000Z" 9)
        (merge_start []) = Ok (merge_start []))
  /\ (row_createdAt (post_view "at://3" "2024-02-27T10:00:00.000Z" 7)
        = Ok "2024-02-27T10:00:00.000Z"
      /\ dt_ltb (mkDatetime 2024 2 27 10 0 0 0) (time_range sample_env) = true
      /\ ("2024-02-27T10:00:00.000Z" <=? cutoff_date sample_env) = false
      /\ merge_row sample_env false [] (post_view "at://3" "2024-02-27T10:00:00.000Z" 7)
           (merge_start [])
         = Ok (mkMergeState (mkTxn [] [])
                 [mkPostRow "at://3" "did:abc" 7 0 0 0 "2024-02-27T10:00:00.000Z"
                    (utc_now sample_env)] 0)).
Proof.
  split.
  - split; [reflexivity|]. split; [reflexivity|].
    exact (proj1 (proj1 (proj2 (C2_posts_before_cutoff_date_are_skipped sample_env
                    (post_view "at://4" "2024-02-26T23:59:59.000Z" 9)
                    "2024-02-26T23:59:59.000Z" eq_refl)) eq_refl) [] (merge_start [])).
  - split; [reflexivity|]. split; [reflexivity|]. split; [reflexivity|].
    exact (proj2 (proj1 (proj2 (proj2 (C2_posts_before_cutoff_date_are_skipped
                    sample_env (post_view "at://3" "2024-02-27T10:00:00.000Z" 7)
                    "2024-02-27T10:00:00.000Z" eq_refl))) eq_refl)
             [] (merge_start []) "at://3" (mkAuthor (Some "did:abc")) "did:abc"
             7%Z 0%Z 0%Z 0%Z
             eq_refl eq_refl eq_refl eq_refl eq_refl eq_refl eq_refl eq_refl).
Defined.

(* ================================================================== *)
(** ** C4: posts that are already stored *)
(* ================================================================== *)

(** What an [UPDATE] of the posts of a URI leaves: the rows after it are
    the rows before it, each with the fetched counters and the new
    [updatedAt] when it is of the URI, and as it was otherwise. *)
Lemma update_post_sql_rows l r q rp now u t :
  List.length (update_post_sql l r q rp now u t) = List.length t
  /\ forall after,
      In after (update_post_sql l r q rp now u t) <->
      exists before, In before t /\ updated_row l r q rp now u before after.
Proof.
  unfold update_post_sql. split; [apply sql_update_length|].
  intros after. rewrite in_sql_update. unfold updated_row. split.
  - intros [[Hin Hn] | (before & Hin & Hy & ->)].
    + exists after. rewrite Hn. auto.
    + exists before. rewrite Hy. simpl. auto 10.
  - intros (before & Hin & Hu & Hd & Hc & Hrest).
    destruct (p_uri before =? u) eqn:E.
    + right. exists before. split; [exact Hin|]. split; [exact E|].
      destruct Hrest as (H1 & H2 & H3 & H4 & H5).
      destruct after; simpl in *; subst; reflexivity.
    + left. subst after. auto.
Qed.

(** A row of the lookup is not skipped when the provider reports the
    creation time the store holds: the lookup of incremental mode has the
    rows after the cutoff date only. *)
Lemma lookup_hit_is_not_skipped env d update_all t u existing_row others :
  stored_for u (select_tracked env d update_all t) = existing_row :: others ->
  (update_all = false -> store_compares_as_strings env) ->
  skips env update_all (p_createdAt existing_row) = false.
Proof.
  intros Hst Hcmp. unfold skips. destruct update_all; [reflexivity|].
  assert (Hin : In existing_row (stored_for u (select_tracked env d false t)))
    by (rewrite Hst; now left).
  apply filter_In in Hin as [Hin _]. unfold select_tracked in Hin.
  apply filter_In in Hin as [_ Hin]. apply andb_true_iff in Hin as [_ Hin].
  rewrite (Hcmp eq_refl) in Hin. simpl.
  now destruct (p_createdAt existing_row <=? cutoff_date env).
Qed.

(** C4. A fetched post whose URI is in the loaded lookup is compared with
    the stored row.  It reaches the comparison: when the provider reports
    the creation time the store holds, and the store compares creation
    times with the cutoff date as the loop does, the cutoff test does not
    skip it.  Then, when its four counters are those of the stored row,
    the loop leaves its state as it is, so no statement is issued; when
    one of them differs, the loop executes one [UPDATE] for the URI, after
    which the table has the rows it had, those of the URI with the four
    fetched counters and the current time as [updatedAt], their [uri],
    [did] and [createdAt] unchanged, and every other row as it was. *)
Theorem C4_stored_posts_are_compared :
  forall (env : Env) (d : string) (update_all : bool) (t : list PostRow)
         (row : PostView) (ms : merge_state) (c u : string)
         (existing_row : PostRow) (others : list PostRow) (l r q rp : Z),
    row_createdAt row = Ok c -> uri row = Some u ->
    stored_for u (select_tracked env d update_all t) = existing_row :: others ->
    likeCount row = Some l -> replyCount row = Some r ->
    quoteCount row = Some q -> repostCount row = Some rp ->
    let tracked_posts := select_tracked env d update_all t in
    let updated :=
      update_post_sql l r q rp (utc_now env) u (tx_posts (ms_txn ms)) in
    (p_createdAt existing_row = c ->
     (update_all = false -> store_compares_as_strings env) ->
     skips env update_all c = false)
    /\ (skips env update_all c = false ->
        (same_counters l r q rp existing_row ->
         merge_row env update_all tracked_posts row ms = Ok ms)
        /\ (~ same_counters l r q rp existing_row ->
            merge_row env update_all tracked_posts row ms =
              Ok (mkMergeState
                    (mkTxn updated
                       (tx_log (ms_txn ms) ++ [UpdatePost l r q rp (utc_now env) u])%list)
                    (posts_to_insert ms) (S (posts_updated ms)))))
    /\ List.length updated = List.length (tx_posts (ms_txn ms))
    /\ (forall after,
           In after updated <->
           exists before,
             In before (tx_posts (ms_txn ms))
             /\ updated_row l r q rp (utc_now env) u before after).
Proof.
  intros env d update_all t row ms c u ex others l r q rp
         Hc Hu Hst Hl Hr Hq Hrp tracked_posts updated.
  split; [|split].
  - intros <- Hcmp. eapply lookup_hit_is_not_skipped; eauto.
  - intros Hs. split.
    + intros Hsame. apply merge_step_sound. eapply step_same; eauto.
    + intros Hdiff. apply merge_step_sound. eapply step_update; eauto.
  - apply update_post_sql_rows.
Qed.

Lemma C4_stored_posts_are_compared_witness :
  stored_for "at://1" (select_tracked sample_env "did:abc" false [stored_post])
  = [stored_post]
  /\ store_compares_as_strings sample_env
  /\ ~ same_counters 5 0 0 0 stored_post
  /\ merge_row sample_env false (select_tracked sample_env "did:abc" false [stored_post])
       (post_view "at://1" "2024-03-01T10:00:00.000Z" 5) (merge_start [stored_post])
     = Ok (mkMergeState
             (mkTxn [mkPostRow "at://1" "did:abc" 5 0 0 0 "2024-03-01T10:00:00.000Z"
                       (utc_now sample_env)]
                [UpdatePost 5 0 0 0 (utc_now sample_env) "at://1"])
             [] 1).
Proof.
  assert (Hd : ~ same_counters 5 0 0 0 stored_post).
  { unfold same_counters. simpl. intros [E _]. discriminate E. }
  assert (Hcmp : store_compares_as_strings sample_env) by (intros c; reflexivity).
  split; [reflexivity|]. split; [exact Hcmp|]. split; [exact Hd|].
  pose proof (C4_stored_posts_are_compared sample_env "did:abc" false [stored_post]
                (post_view "at://1" "2024-03-01T10:00:00.000Z" 5)
                (merge_start [stored_post]) "2024-03-01T10:00:00.000Z" "at://1"
                stored_post [] 5 0 0 0
                eq_refl eq_refl eq_refl eq_refl eq_refl eq_refl eq_refl)
    as (Hskip & Hcompare & _).
  exact (proj2 (Hcompare (Hskip eq_refl (fun _ => Hcmp))) Hd).
Defined.

(* ================================================================== *)
(** ** C5: a URI that was fetched more than once *)
(* ================================================================== *)

Lemma sync_transaction_merges env d update_all t fetched c :
  fetch_posts env d update_all t = Ok fetched ->
  sync_transaction env d update_all t = Ok (Some c) ->
  exists ms,
    drop_duplicates fetched = Ok (keep_first fetched)
    /\ merge_rows env update_all (select_tracked env d update_all t)
         (keep_first fetched) (merge_start t) = Ok ms
    /\ tx_log c = (tx_log (ms_txn ms) ++ map InsertPost (posts_to_insert ms))%list
    /\ tx_posts c = (tx_posts (ms_txn ms) ++ posts_to_insert ms)%list.
Proof.
  intros Hf H. unfold sync_transaction in H. rewrite Hf in H. cbn [bind] in H.
  destruct fetched as [|x fetched]; [discriminate|].
  unfold merge_posts in H.
  destruct (drop_duplicates (x :: fetched)) as [rows|e] eqn:Ed; cbn [bind] in H;
    [|discriminate].
  assert (rows = keep_first (x :: fetched)).
  { unfold drop_duplicates in Ed. destruct (forallb no_uri (x :: fetched)); congruence. }
  subst rows. fold (merge_start t) in H.
  destruct (merge_rows env update_all (select_tracked env d update_all t)
              (keep_first (x :: fetched)) (merge_start t)) as [ms|e] eqn:Em;
    cbn [bind] in H; [|discriminate].
  destruct (insert_all (posts_to_insert ms) (ms_txn ms)) as [c'|e] eqn:Ei;
    cbn [bind] in H; [|discriminate].
  inversion H; subst c'. apply insert_all_spec in Ei as [H1 H2].
  exists ms. auto.
Qed.

Lemma quiet_row_leaves_state env update_all tracked_posts row u :
  uri row = Some u ->
  skipped_or_unchanged env update_all tracked_posts row u ->
  forall ms, merge_row env update_all tracked_posts row ms = Ok ms.
Proof.
  intros Hu [(c & Hc & Hs) | (c & ex & others & l & r & q & rp & Hc & Hs & Hst
                              & Hl & Hr & Hq & Hrp & Hsame)] ms;
    apply merge_step_sound.
  - eapply step_skip; eauto.
  - eapply step_same; eauto.
Qed.

(** C5 as stated fails on a stored post that is fetched twice with
    the counters it has in the store: the run writes nothing for it. *)
Lemma C5_unchanged_duplicate_counterexample : ~ duplicated_uri_is_written_once.
Proof.
  intros H.
  specialize (H (sample_env_with (sample_http duplicate_feed)) "did:abc" false
                [stored_post]
                [post_view "at://1" "2024-03-01T10:00:00.000Z" 3;
                 post_view "at://1" "2024-03-01T10:00:00.000Z" 3]
                (mkTxn [stored_post] []) "at://1").
  vm_compute in H. specialize (H eq_refl eq_refl (le_n 2)). discriminate H.
Qed.

(** C5, amended. The working set is deduplicated by URI before the merge:
    of the rows of a URI the first one is kept, so exactly one row of
    every fetched URI enters the merge, and the run executes at most one
    insert or update for the URI.  It executes exactly one when the row
    that is kept passes the cutoff test and is new to the lookup or
    differs from it in a counter. *)
Theorem C5_duplicates_are_merged_once :
  forall (env : Env) (d : string) (update_all : bool) (t : list PostRow)
         (fetched : list PostView) (c : txn),
    fetch_posts env d update_all t = Ok fetched ->
    sync_transaction env d update_all t = Ok (Some c) ->
    drop_duplicates fetched = Ok (keep_first fetched)
    /\ (forall row, In row (keep_first fetched) -> In row fetched)
    /\ forall u,
        (fetched_for u fetched <> [] ->
         List.length (fetched_for u (keep_first fetched)) = 1%nat)
        /\ (List.length (writes_for u (tx_log c))
            <= List.length (fetched_for u (keep_first fetched)) <= 1)%nat
        /\ (forall row created,
               In row (keep_first fetched) -> uri row = Some u ->
               row_createdAt row = Ok created ->
               skips env update_all created = false ->
               new_or_changed (select_tracked env d update_all t) row u ->
               List.length (writes_for u (tx_log c)) = 1%nat)
        /\ (forall row,
               In row (keep_first fetched) -> uri row = Some u ->
               skipped_or_unchanged env update_all
                 (select_tracked env d update_all t) row u ->
               writes_for u (tx_log c) = []).
Proof.
  intros env d update_all t fetched c Hf Hs.
  destruct (sync_transaction_merges env d update_all t fetched c Hf Hs)
    as (ms & Hd & Hm & Hlog & _).
  split; [exact Hd|]. split; [intros row; apply keep_first_subset|].
  intros u. split; [apply fetched_for_keep_first_one|].
  assert (Hlen : List.length (writes_for u (tx_log c))
                 = (List.length (writes_for u (tx_log (ms_txn ms)))
                    + List.length (stored_for u (posts_to_insert ms)))%nat).
  { rewrite Hlog, writes_for_app, length_app, writes_for_inserts, length_map.
    reflexivity. }
  split; [|split].
  - pose proof (merge_rows_writes_le env update_all _ u _ _ _ Hm) as Hle.
    pose proof (fetched_for_keep_first_le u fetched) as H1.
    simpl in Hle. lia.
  - intros row created Hin Hu Hc Hsk Hnew.
    pose proof (merge_rows_write_once env update_all _ u _ _ _ Hm
                  (fetched_for_keep_first_le u fetched) row created Hin Hu Hc Hsk Hnew)
      as Hone.
    simpl in Hone. lia.
  - intros row Hin Hu Hq.
    apply (merge_rows_leave_quiet env update_all _ u) in Hm.
    + destruct Hm as (E1 & E2 & _). simpl in E1, E2.
      rewrite Hlog, writes_for_app, writes_for_inserts, E1, E2. reflexivity.
    + intros r Hr Hur ms0. assert (r = row).
      { eapply keep_first_unique; eauto. congruence. }
      subst r. now apply (quiet_row_leaves_state env update_all _ row u).
Qed.

Lemma C5_duplicates_are_merged_once_witness :
  fetch_posts (sample_env_with (sample_http duplicate_new_feed)) "did:abc" false
    [stored_post]
    = Ok [post_view "at://2" "2024-03-03T10:00:00.000Z" 10;
          post_view "at://2" "2024-03-03T10:00:00.000Z" 10]
  /\ sync_transaction (sample_env_with (sample_http duplicate_new_feed)) "did:abc" false
       [stored_post]
     = Ok (Some (mkTxn
                   [stored_post;
                    mkPostRow "at://2" "did:abc" 10 0 0 0 "2024-03-03T10:00:00.000Z"
                      (mkDatetime 2024 3 5 15 0 0 0)]
                   [InsertPost
                      (mkPostRow "at://2" "did:abc" 10 0 0 0 "2024-03-03T10:00:00.000Z"
                         (mkDatetime 2024 3 5 15 0 0 0))]))
  /\ drop_duplicates [post_view "at://2" "2024-03-03T10:00:00.000Z" 10;
                      post_view "at://2" "2024-03-03T10:00:00.000Z" 10]
     = Ok (keep_first [post_view "at://2" "2024-03-03T10:00:00.000Z" 10;
                       post_view "at://2" "2024-03-03T10:00:00.000Z" 10]).
Proof.
  assert (H1 : fetch_posts (sample_env_with (sample_http duplicate_new_feed)) "did:abc"
                 false [stored_post]
               = Ok [post_view "at://2" "2024-03-03T10:00:00.000Z" 10;
                     post_view "at://2" "2024-03-03T10:00:00.000Z" 10])
    by (vm_compute; reflexivity).
  assert (H2 : sync_transaction (sample_env_with (sample_http duplicate_new_feed))
                 "did:abc" false [stored_post]
               = Ok (Some (mkTxn
                   [stored_post;
                    mkPostRow "at://2" "did:abc" 10 0 0 0 "2024-03-03T10:00:00.000Z"
                      (mkDatetime 2024 3 5 15 0 0 0)]
                   [InsertPost
                      (mkPostRow "at://2" "did:abc" 10 0 0 0 "2024-03-03T10:00:00.000Z"
                         (mkDatetime 2024 3 5 15 0 0 0))])))
    by (vm_compute; reflexivity).
  split; [exact H1|]. split; [exact H2|].
  exact (proj1 (C5_duplicates_are_merged_once _ _ _ _ _ _ H1 H2)).
Defined.

(* ================================================================== *)
(** ** C3: the account without stored posts *)
(* ================================================================== *)

Lemma count_posts_zero d t :
  count_posts d t = 0%nat <-> forall p, In p t -> p_did p <> d.
Proof.
  unfold count_posts. split.
  - intros H p Hp E.
    assert (Hin : In p (filter (fun r => p_did r =? d) t))
      by (apply filter_In; split; [exact Hp | now apply String.eqb_eq]).
    destruct (filter (fun r => p_did r =? d) t); [contradiction | discriminate].
  - intros H. rewrite filter_all_false; [reflexivity|].
    intros p Hp. apply String.eqb_neq. now apply H.
Qed.

(** C3. The account has no stored post exactly when the count of lines
    66-71 is zero.  Then the synchroniser fetches in full mode
    ([fetch_all = True]) whatever mode the caller asked for; when the
    account has a stored post it fetches in the mode the caller asked
    for.  The full fetch follows every cursor: for the account whose two
    posts are old it returns both pages, for either requested mode, where
    a fetch in incremental mode returns the first page only. *)
Theorem C3_bootstrap_fetch_is_full :
  forall (env : Env) (d : string) (update_all : bool) (t : list PostRow),
    let fetch := get_posts_for_actor env (recursion_limit env) d "" [] in
    (count_posts d t = 0%nat <-> forall p, In p t -> p_did p <> d)
    /\ (count_posts d t = 0%nat ->
        fetch_mode (count_posts d t) update_all = true
        /\ fetch_posts env d update_all t = fetch true)
    /\ (count_posts d t <> 0%nat ->
        fetch_mode (count_posts d t) update_all = update_all
        /\ fetch_posts env d update_all t = fetch update_all)
    /\ (forall requested,
           fetch_posts old_env "did:abc" requested (posts_table sample_store)
           = Ok [post_view "at://old1" "2020-01-05T10:00:00.000Z" 4;
                 post_view "at://old2" "2019-12-25T10:00:00.000Z" 6])
    /\ get_posts_for_actor old_env (recursion_limit old_env) "did:abc" "" [] false
       = Ok [post_view "at://old1" "2020-01-05T10:00:00.000Z" 4].
Proof.
  intros env d update_all t fetch. subst fetch.
  split; [apply count_posts_zero|].
  split; [|split; [|split]].
  - intros H. unfold fetch_posts, fetch_mode. now rewrite H.
  - intros H. unfold fetch_posts, fetch_mode.
    destruct (count_posts d t); [contradiction | auto].
  - intros [|]; vm_compute; reflexivity.
  - vm_compute; reflexivity.
Qed.

(** The cutoff test of line 114 and the lookup of lines 90-98 read the
    mode the caller asked for, also for an account without stored posts:
    of the two old posts the full fetch returned, a call in incremental
    mode inserts none and a call in full mode inserts both. *)
Example bootstrap_merge_of_old_posts :
  update_posts_for_actor old_env "did:abc" false sample_store = (Ok tt, sample_store)
  /\ update_posts_for_actor old_env "did:abc" true sample_store
     = (Ok tt,
        set_posts sample_store
          [mkPostRow "at://old1" "did:abc" 4 0 0 0 "2020-01-05T10:00:00.000Z"
             (utc_now old_env);
           mkPostRow "at://old2" "did:abc" 6 0 0 0 "2019-12-25T10:00:00.000Z"
             (utc_now old_env)]).
Proof. split; vm_compute; reflexivity. Qed.

(* ================================================================== *)
(** ** Further properties of the orchestrator: chunks *)
(* ================================================================== *)

Lemma chunks_of_concat {A} k :
  forall fuel (l : list A),
    (1 <= k)%nat -> (List.length l <= fuel)%nat ->
    List.concat (chunks_of fuel k l) = l.
Proof.
  induction fuel as [|fuel IH]; intros l Hk Hf.
  - destruct l; [reflexivity | simpl in Hf; lia].
  - destruct l as [|x l]; [reflexivity|].
    cbn [chunks_of List.concat]. rewrite IH; [apply firstn_skipn | exact Hk |].
    rewrite length_skipn. simpl List.length in *. lia.
Qed.

Lemma chunks_of_sizes {A} k :
  forall fuel (l : list A),
    (1 <= k)%nat ->
    Forall (fun c => (1 <= List.length c <= k)%nat) (chunks_of fuel k l).
Proof.
  induction fuel as [|fuel IH]; intros l Hk; [constructor|].
  destruct l as [|x l]; [constructor|].
  cbn [chunks_of]. constructor; [|apply IH; exact Hk].
  rewrite length_firstn. simpl List.length. lia.
Qed.

Lemma chunks_of_full {A} k :
  forall fuel (l : list A),
    (1 <= k)%nat -> (List.length l <= fuel)%nat ->
    Forall (fun c => List.length c = k) (removelast (chunks_of fuel k l)).
Proof.
  induction fuel as [|fuel IH]; intros l Hk Hf; [constructor|].
  destruct l as [|x l]; [constructor|].
  cbn [chunks_of].
  assert (Hs : (List.length (skipn k (x :: l)) <= fuel)%nat).
  { rewrite length_skipn. simpl List.length in *. lia. }
  specialize (IH (skipn k (x :: l)) Hk Hs).
  destruct (chunks_of fuel k (skipn k (x :: l))) as [|c cs] eqn:E.
  - constructor.
  - cbn [removelast]. constructor; [|exact IH].
    rewrite length_firstn.
    destruct (Nat.le_gt_cases k (List.length (x :: l))) as [Hle|Hgt]; [lia|].
    exfalso. rewrite skipn_all2 in E by lia.
    destruct fuel; discriminate E.
Qed.

(** X1. For a chunk size of at least one, [_chunk_users] cuts the list into
    consecutive pieces: put together in order the chunks give the list
    back, no chunk is empty or longer than the chunk size, and every chunk
    but the last has exactly the chunk size. *)
Theorem X1_chunks_partition_the_users :
  forall (A : Type) (users : list A) (chunk_size : nat),
    (1 <= chunk_size)%nat ->
    List.concat (_chunk_users users chunk_size) = users
    /\ Forall (fun c => (1 <= List.length c <= chunk_size)%nat)
         (_chunk_users users chunk_size)
    /\ Forall (fun c => List.length c = chunk_size)
         (removelast (_chunk_users users chunk_size)).
Proof.
  intros A users k Hk. unfold _chunk_users. split; [|split].
  - apply chunks_of_concat; [exact Hk | lia].
  - apply chunks_of_sizes; exact Hk.
  - apply chunks_of_full; [exact Hk | lia].
Qed.

Lemma X1_chunks_partition_the_users_witness :
  (1 <= 25)%nat
  /\ List.concat (_chunk_users (seq 0 51) 25) = seq 0 51
  /\ map (@List.length nat) (_chunk_users (seq 0 51) 25) = [25; 25; 1]%nat.
Proof.
  split; [lia|]. split; [|reflexivity].
  exact (proj1 (X1_chunks_partition_the_users nat (seq 0 51) 25 (proj1 (Nat.leb_le 1 25) eq_refl))).
Defined.

(* ================================================================== *)
(** ** Further properties of the client: the profiles of an answer *)
(* ================================================================== *)

Lemma make_profile_matches profile_data p :
  make_profile profile_data = Ok p -> profile_matches profile_data p.
Proof.
  unfold make_profile, profile_matches.
  destruct (pd_did profile_data) as [d|]; cbn [getitem bind]; [|discriminate].
  destruct (pd_handle profile_data) as [h|]; cbn [getitem bind]; [|discriminate].
  intros H. inversion H; subst. simpl. auto 10.
Qed.

Lemma make_profiles_complete entries :
  forallb has_did_and_handle entries = true ->
  exists ps, make_profiles entries = Ok ps /\ Forall2 profile_matches entries ps.
Proof.
  induction entries as [|x entries IH]; simpl; intros H.
  - exists []. split; [reflexivity | constructor].
  - apply andb_true_iff in H as [Hx Hrest].
    destruct (IH Hrest) as [ps [E F]].
    destruct (make_profile x) as [p|e] eqn:Ex.
    + exists (p :: ps). cbn [bind]. rewrite E. split; [reflexivity|].
      constructor; [now apply make_profile_matches | exact F].
    + exfalso. unfold make_profile, has_did_and_handle in *.
      destruct (pd_did x); [|discriminate]. destruct (pd_handle x); discriminate.
Qed.

Lemma make_profiles_incomplete entries :
  forallb has_did_and_handle entries = false ->
  exists e, make_profiles entries = Raise e /\ exn_cls e = KeyError.
Proof.
  induction entries as [|x entries IH]; simpl; intros H; [discriminate|].
  destruct (has_did_and_handle x) eqn:Hx.
  - simpl in H. destruct (IH H) as [e [E K]].
    destruct (make_profile x) as [p|e'] eqn:Ex; cbn [bind].
    + rewrite E. exists e. split; [reflexivity | exact K].
    + exfalso. unfold make_profile, has_did_and_handle in *.
      destruct (pd_did x); [|discriminate]. destruct (pd_handle x); discriminate.
  - unfold make_profile, has_did_and_handle in *.
    destruct (pd_did x) as [d|]; cbn [getitem bind].
    + destruct (pd_handle x) as [h|]; [discriminate|].
      cbn [getitem bind]. eexists. split; reflexivity.
    + eexists. split; reflexivity.
Qed.

Lemma get_profiles_request env dids :
  dids <> [] ->
  get_profiles env dids =
  bind (_call_endpoint env "app.bsky.actor.getProfiles" (profiles_params dids))
    (fun response => make_profiles (profile_entries response)).
Proof. destruct dids; [congruence | reflexivity]. Qed.

(** X2. [get_profiles] parses an answer as a whole.  For identifiers that
    are not empty: a failed request raises [BlueskyAPIError]; an answer all
    of whose entries have [did] and [handle] gives one profile per entry,
    in the order of the answer, with 0 for a missing count; an answer with
    one entry that lacks [did] or [handle] raises [KeyError] and gives no
    profile at all, so the batch loses the whole chunk. *)
Theorem X2_profiles_are_parsed_all_or_nothing :
  forall (env : Env) (dids : list string),
    dids <> [] ->
    let answer :=
      _call_endpoint env "app.bsky.actor.getProfiles" (profiles_params dids) in
    (forall e, answer = Raise e ->
               get_profiles env dids = Raise e /\ exn_cls e = BlueskyAPIError)
    /\ (forall response,
           answer = Ok response ->
           forallb has_did_and_handle (profile_entries response) = true ->
           exists profiles,
             get_profiles env dids = Ok profiles
             /\ Forall2 profile_matches (profile_entries response) profiles)
    /\ (forall response,
           answer = Ok response ->
           forallb has_did_and_handle (profile_entries response) = false ->
           (exists e, get_profiles env dids = Raise e /\ exn_cls e = KeyError)
           /\ forall chunk : list (string * string),
               map fst chunk = dids -> successful_profiles env [chunk] = []).
Proof.
  intros env dids Hne answer. subst answer.
  rewrite (get_profiles_request env dids Hne). split; [|split].
  - intros e He. rewrite He. split; [reflexivity|].
    unfold _call_endpoint in He. destruct (requests_get env _); [|discriminate].
    inversion He. reflexivity.
  - intros response -> Hall. cbn [bind]. now apply make_profiles_complete.
  - intros response Hr Hbad.
    destruct (make_profiles_incomplete _ Hbad) as [e [E K]].
    split.
    + rewrite Hr. cbn [bind]. exists e. auto.
    + intros chunk Hc. unfold successful_profiles. cbn [flat_map].
      rewrite Hc, (get_profiles_request env dids Hne), Hr. cbn [bind].
      rewrite E. reflexivity.
Qed.

Lemma X2_profiles_are_parsed_all_or_nothing_witness :
  ["did:abc"; "did:xyz"] <> []
  /\ is_ok (_call_endpoint mixed_env "app.bsky.actor.getProfiles"
              (profiles_params ["did:abc"; "did:xyz"])) = true
  /\ successful_profiles mixed_env
       [[("did:abc", "abc.bsky.social"); ("did:xyz", "xyz.bsky.social")]] = [].
Proof.
  assert (Hne : ["did:abc"; "did:xyz"] <> []) by discriminate.
  split; [exact Hne|]. split; [reflexivity|].
  exact (proj2 (proj2 (proj2 (X2_profiles_are_parsed_all_or_nothing mixed_env
                                ["did:abc"; "did:xyz"] Hne))
                  _ eq_refl eq_refl)
           [("did:abc", "abc.bsky.social"); ("did:xyz", "xyz.bsky.social")] eq_refl).
Defined.

(* ================================================================== *)
(** ** Further properties of the fetch: the two modes *)
(* ================================================================== *)

Lemma full_recursion_extends env n actor next posts1 :
  exists more,
    except_return_posts
      match get_posts_for_actor env n actor next posts1 true with
      | Ok posts' => Return posts'
      | Raise e => Raised posts1 e
      end = Ok (posts1 ++ more)%list.
Proof.
  destruct n as [|n].
  - exists []. cbn. now rewrite app_nil_r.
  - destruct (get_posts_for_actor_returns env n actor next posts1 true) as [more [E _]].
    rewrite E. exists more. reflexivity.
Qed.

Lemma incremental_is_prefix env depth :
  forall actor cursor posts,
  exists inc more,
    get_posts_for_actor env (S depth) actor cursor posts false = Ok inc
    /\ get_posts_for_actor env (S depth) actor cursor posts true = Ok (inc ++ more)%list.
Proof.
  assert (Hnil : forall l : list PostView, l = (l ++ [])%list)
    by (intros; now rewrite app_nil_r).
  induction depth as [|depth IH]; intros actor cursor posts.
  - cbn [get_posts_for_actor].
    destruct (_call_endpoint env _ _) as [response|e];
      [|exists posts, []; split; [reflexivity | cbn; f_equal; apply Hnil]].
    destruct (resp_feed response) as [items|];
      [|exists posts, []; split; [reflexivity | cbn; f_equal; apply Hnil]].
    cbn [getitem].
    destruct (filter_by_actor actor items posts) as [posts1 err].
    exists posts1, []. rewrite app_nil_r.
    destruct err; [split; reflexivity|].
    destruct (resp_cursor response); [|split; reflexivity].
    destruct (_ <? _)%Z; [|split; reflexivity].
    split; [|reflexivity].
    destruct (strptime_ymd _); [|reflexivity].
    destruct (dt_gtb _ _); reflexivity.
  - remember (S depth) as n eqn:En.
    cbn [get_posts_for_actor].
    destruct (_call_endpoint env _ _) as [response|e];
      [|exists posts, []; split; [reflexivity | cbn; f_equal; apply Hnil]].
    destruct (resp_feed response) as [items|];
      [|exists posts, []; split; [reflexivity | cbn; f_equal; apply Hnil]].
    cbn [getitem].
    destruct (filter_by_actor actor items posts) as [posts1 err].
    destruct err; [exists posts1, []; rewrite app_nil_r; split; reflexivity|].
    destruct (resp_cursor response) as [next|];
      [|exists posts1, []; rewrite app_nil_r; split; reflexivity].
    destruct (_ <? _)%Z; [|exists posts1, []; rewrite app_nil_r; split; reflexivity].
    destruct (full_recursion_extends env n actor next posts1) as [more Hfull].
    destruct (strptime_ymd _) as [cursor_datetime|e];
      [|exists posts1, more; split; [reflexivity | exact Hfull]].
    destruct (dt_gtb _ _);
      [|exists posts1, more; split; [reflexivity | exact Hfull]].
    subst n. destruct (IH actor next posts1) as [inc [more' [E1 E2]]].
    rewrite E1, E2. exists inc, more'. split; reflexivity.
Qed.

(** X3. With the same provider, stack depth, cursor and accumulated posts,
    the incremental mode of [get_posts_for_actor] returns a leading part of
    what the full mode returns: the full fetch gives the same posts in the
    same order, followed by those of the pages the incremental fetch did
    not ask for. *)
Theorem X3_incremental_fetch_is_a_prefix_of_the_full_fetch :
  forall (env : Env) (depth : nat) (actor cursor : string) (posts : list PostView),
  exists incremental later,
    get_posts_for_actor env (S depth) actor cursor posts false = Ok incremental
    /\ get_posts_for_actor env (S depth) actor cursor posts true
       = Ok (incremental ++ later)%list.
Proof. intros. apply incremental_is_prefix. Qed.

(* ================================================================== *)
(** ** Further properties of the store methods *)
(* ================================================================== *)

Lemma upsert_keeps_rows u s t before :
  In before t ->
  exists after, In after (upsert_snapshot_sql u s t) /\ row_kept s before after.
Proof.
  intros Hin. unfold upsert_snapshot_sql. destruct (existsb (conflicts s) t).
  - destruct (conflicts s before) eqn:E.
    + exists (do_update s before). split.
      * apply in_sql_update. right. eauto.
      * unfold row_kept. simpl. repeat split; auto. congruence.
    + exists before. split.
      * apply in_sql_update. left. auto.
      * unfold row_kept. auto.
  - exists before. split; [apply in_or_app; now left | unfold row_kept; auto].
Qed.

Lemma upsert_adds_one_row u s t after :
  In after (upsert_snapshot_sql u s t) ->
  (exists before, In before t /\ row_kept s before after)
  \/ (existsb (conflicts s) t = false /\ after = excluded u s).
Proof.
  unfold upsert_snapshot_sql. destruct (existsb (conflicts s) t) eqn:E; intros Hin.
  - left. apply in_sql_update in Hin as [[Hin Hn] | (before & Hin & Hy & ->)].
    + exists after. unfold row_kept. auto.
    + exists before. unfold row_kept. simpl. repeat split; auto. congruence.
  - apply in_app_or in Hin as [Hin | [<- | []]].
    + left. exists after. unfold row_kept. auto.
    + right. auto.
Qed.

(** X4. [upsert_snapshot] writes to [snapshots] only, and to the row of its
    (did, date) only: every row stored before has a row after with the
    [uuid], [did] and [date] it had, which is the row itself when its key
    is another one; every row after comes from a row before in this way,
    but for the proposed row when the key was new.  When the key was
    stored already, the identifier drawn for the proposed row is not used:
    the identifiers of the table are those it had. *)
Theorem X4_upsert_keeps_identifiers_and_other_rows :
  forall (env : Env) (snapshot : SnapshotData) (st : Store),
    let st' := snd (upsert_snapshot env snapshot st) in
    users_table st' = users_table st /\ views_table st' = views_table st
    /\ posts_table st' = posts_table st
    /\ snapshot_logs_table st' = snapshot_logs_table st
    /\ (forall before,
           In before (snapshots_table st) ->
           exists after, In after (snapshots_table st') /\ row_kept snapshot before after)
    /\ (forall after,
           In after (snapshots_table st') ->
           (exists before,
               In before (snapshots_table st) /\ row_kept snapshot before after)
           \/ (existsb (conflicts snapshot) (snapshots_table st) = false
               /\ after = excluded (gen_random_uuid env (List.length (snapshots_table st)))
                            snapshot))
    /\ (existsb (conflicts snapshot) (snapshots_table st) = true ->
        Permutation (map s_uuid (snapshots_table st')) (map s_uuid (snapshots_table st))).
Proof.
  intros env snapshot st st'. subst st'. unfold upsert_snapshot, get_connection.
  assert (Hsame : forall r : SnapshotRow, row_kept snapshot r r)
    by (intros r; unfold row_kept; auto).
  destruct (connect env _); simpl.
  - repeat split; try reflexivity.
    + intros before Hin. now apply upsert_keeps_rows.
    + intros after Hin. now apply upsert_adds_one_row.
    + intros E. unfold upsert_snapshot_sql. rewrite E.
      now apply sql_update_column.
  - repeat split; try reflexivity; eauto.
Qed.

Lemma X4_upsert_keeps_identifiers_and_other_rows_witness :
  existsb (conflicts sample_snapshot) (snapshots_table store_with_snapshot) = true
  /\ gen_random_uuid later_env 1 = "0b9d3a77"
  /\ Permutation
       (map s_uuid
          (snapshots_table
             (snd (upsert_snapshot later_env sample_snapshot store_with_snapshot))))
       (map s_uuid (snapshots_table store_with_snapshot)).
Proof.
  split; [reflexivity|]. split; [reflexivity|].
  exact (proj2 (proj2 (proj2 (proj2 (proj2 (proj2
           (X4_upsert_keeps_identifiers_and_other_rows later_env sample_snapshot
              store_with_snapshot)))))) eq_refl).
Defined.

Lemma updated_row_needs_no_update profile u :
  _should_update_user profile
    (mkUserRow (u_did u) (profile_handle profile) (profile_display_name profile)
       (profile_avatar profile) (u_rest u)) = false.
Proof.
  unfold _should_update_user, opt_neqb. simpl.
  now rewrite String.eqb_refl, !opt_eqb_refl.
Qed.

Lemma update_user_sql_rows profile t :
  (forall before, In before t ->
     exists after, In after (update_user_sql profile t)
                   /\ user_row_kept profile before after)
  /\ (forall after, In after (update_user_sql profile t) ->
        exists before, In before t /\ user_row_kept profile before after).
Proof.
  unfold update_user_sql. split.
  - intros before Hin. destruct (u_did before =? profile_did profile) eqn:E.
    + eexists. split; [apply in_sql_update; right; eauto|].
      unfold user_row_kept. rewrite E. simpl.
      repeat split. apply updated_row_needs_no_update.
    + exists before. split; [apply in_sql_update; left; auto|].
      unfold user_row_kept. rewrite E. auto.
  - intros after Hin. apply in_sql_update in Hin as [[Hin Hn] | (before & Hin & Hy & ->)].
    + exists after. split; [exact Hin|]. unfold user_row_kept. rewrite Hn. auto.
    + exists before. split; [exact Hin|]. unfold user_row_kept. rewrite Hy. simpl.
      repeat split. apply updated_row_needs_no_update.
Qed.

(** X5. When its connection opens, [update_user_profile] writes to [users]
    only and adds or removes no row: every row before has a row after with
    its [did] and its columns from position 4 on (the skip flag among
    them), which is the row itself when it is of another account, and
    every row after comes from a row before in this way.  The rows of the
    profile's account afterwards hold its handle, display name and avatar,
    so that a lookup of the account followed by [_should_update_user] asks
    for no second update. *)
Theorem X5_profile_update_settles_the_user_row :
  forall (env : Env) (profile : UserProfile) (st : Store),
    connect env (CallUpdateUserProfile (profile_did profile)) = true ->
    let st' := snd (update_user_profile env profile st) in
    (forall before,
        In before (users_table st) ->
        exists after, In after (users_table st') /\ user_row_kept profile before after)
    /\ (forall after,
           In after (users_table st') ->
           exists before, In before (users_table st)
                          /\ user_row_kept profile before after)
    /\ List.length (users_table st') = List.length (users_table st)
    /\ views_table st' = views_table st /\ posts_table st' = posts_table st
    /\ snapshots_table st' = snapshots_table st
    /\ snapshot_logs_table st' = snapshot_logs_table st
    /\ (forall user_data st'',
           get_user_by_did env (profile_did profile) st' = (Ok (Some user_data), st'') ->
           _should_update_user profile user_data = false).
Proof.
  intros env profile st Hc st'. subst st'.
  unfold update_user_profile, get_connection. rewrite Hc. simpl.
  pose proof (update_user_sql_rows profile (users_table st)) as [Hfwd Hbwd].
  split; [exact Hfwd|]. split; [exact Hbwd|].
  split; [apply sql_update_length|].
  repeat split; auto.
  intros user_data st'' H. unfold get_user_by_did, get_connection in H.
  destruct (connect env (CallGetUserByDid _)); [|discriminate].
  inversion H as [[Hf Hs]]. clear H Hs. simpl in Hf.
  apply find_some in Hf as [Hin Hd]. apply String.eqb_eq in Hd.
  destruct (Hbwd _ Hin) as [u [_ (Hdid & _ & Hk)]].
  rewrite <- Hdid, Hd, String.eqb_refl in Hk. exact Hk.
Qed.

Lemma X5_profile_update_settles_the_user_row_witness :
  connect sample_env (CallUpdateUserProfile (profile_did renamed_profile)) = true
  /\ _should_update_user renamed_profile sample_user = true
  /\ In (mkUserRow "did:abc" "abc.example.com" (Some "A B C") None
           [DNull; DNull; DNull; DBool false])
       (users_table (snd (update_user_profile sample_env renamed_profile
                            two_users_store)))
  /\ List.length
       (users_table (snd (update_user_profile sample_env renamed_profile
                            two_users_store))) = 2%nat.
Proof.
  split; [reflexivity|]. split; [reflexivity|].
  split; [vm_compute; right; left; reflexivity|].
  exact (proj1 (proj2 (proj2 (X5_profile_update_settles_the_user_row sample_env
                                renamed_profile two_users_store eq_refl)))).
Defined.

(* ================================================================== *)
(** ** Further properties of the per-account task *)
(* ================================================================== *)

Lemma get_engagement_totals_ok env d st engagement st' :
  get_engagement_totals env d st = (Ok engagement, st') ->
  st' = st
  /\ engagement = mkEngagement (spec_total p_likes d (posts_table st))
                    (spec_total p_replies d (posts_table st))
                    (spec_total p_quotes d (posts_table st))
                    (spec_total p_reposts d (posts_table st)).
Proof.
  unfold get_engagement_totals, get_connection.
  destruct (connect env _); [|intros H; discriminate H].
  rewrite !spec_total_sum. unfold engagement_query.
  destruct (filter (fun r => p_did r =? d) (posts_table st)) as [|r rows];
    intros H; inversion H; subst; rewrite ?or_zero_id; auto.
Qed.

Lemma upsert_snapshot_ok env s st st' :
  upsert_snapshot env s st = (Ok tt, st') ->
  st' = set_snapshots st
          (upsert_snapshot_sql (gen_random_uuid env (List.length (snapshots_table st))) s
             (snapshots_table st)).
Proof.
  unfold upsert_snapshot, get_connection.
  destruct (connect env _); intros H; inversion H; reflexivity.
Qed.

Lemma upsert_snapshot_raises env s st e st' :
  upsert_snapshot env s st = (Raise e, st') -> st' = st.
Proof.
  unfold upsert_snapshot, get_connection.
  destruct (connect env _); intros H; inversion H; reflexivity.
Qed.

Lemma update_posts_for_actor_frame env d b st :
  let st' := snd (update_posts_for_actor env d b st) in
  users_table st' = users_table st /\ views_table st' = views_table st
  /\ snapshots_table st' = snapshots_table st
  /\ snapshot_logs_table st' = snapshot_logs_table st.
Proof.
  unfold update_posts_for_actor, get_connection.
  destruct (connect env _); [|simpl; auto].
  destruct (sync_transaction env d b (posts_table st)) as [[c|]|e]; simpl; auto.
Qed.

Lemma maybe_update_user_frame env profile user_data st :
  let st' := snd ((if _should_update_user profile user_data
                   then update_user_profile env profile else ret tt) st) in
  posts_table st' = posts_table st /\ views_table st' = views_table st
  /\ snapshots_table st' = snapshots_table st
  /\ snapshot_logs_table st' = snapshot_logs_table st.
Proof.
  destruct (_should_update_user profile user_data); [|simpl; auto].
  unfold update_user_profile, get_connection.
  destruct (connect env _); simpl; auto.
Qed.

(** How the [try] block of a task ends: raising leaves [snapshots] as it
    was; [None] leaves the store as it was; a snapshot went through the
    stores after the update of the user row and after the synchronisation
    of the posts, and was upserted. *)
Lemma process_user_profile_body_stages env profile curr_date st r st' :
  process_user_profile_body env profile curr_date st = (r, st') ->
  (forall e, r = Raise e -> snapshots_table st' = snapshots_table st)
  /\ (r = Ok None -> st' = st)
  /\ (forall s, r = Ok (Some s) ->
      exists user_data flag st1 st2,
        find (fun u => u_did u =? profile_did profile) (users_table st) = Some user_data
        /\ user_column user_data 7 = Ok flag /\ truthy flag = false
        /\ st1 = snd ((if _should_update_user profile user_data
                       then update_user_profile env profile else ret tt) st)
        /\ st2 = snd (update_posts_for_actor env (profile_did profile) false st1)
        /\ s = mkSnapshotData (profile_did profile) (profile_handle profile) curr_date
                 (followers_count profile) (following_count profile)
                 (posts_count profile)
                 (spec_total p_likes (profile_did profile) (posts_table st2))
                 (spec_total p_replies (profile_did profile) (posts_table st2))
                 (spec_total p_quotes (profile_did profile) (posts_table st2))
                 (spec_total p_reposts (profile_did profile) (posts_table st2))
        /\ st' = set_snapshots st2
                   (upsert_snapshot_sql
                      (gen_random_uuid env (List.length (snapshots_table st2))) s
                      (snapshots_table st2))).
Proof.
  unfold process_user_profile_body, mbind, get_user_by_did, get_connection, lift, ret.
  destruct (connect env (CallGetUserByDid (profile_did profile))).
  2:{ intros H; inversion H; subst.
      repeat split; intros; try discriminate; try congruence; auto. }
  destruct (find _ (users_table st)) as [user_data|] eqn:Ef.
  2:{ intros H; inversion H; subst.
      repeat split; intros; try discriminate; try congruence; auto. }
  destruct (user_column user_data 7) as [flag|e] eqn:Ecol.
  2:{ intros H; inversion H; subst.
      repeat split; intros; try discriminate; try congruence; auto. }
  destruct (truthy flag) eqn:Et.
  { intros H; inversion H; subst.
    repeat split; intros; try discriminate; try congruence; auto. }
  pose proof (maybe_update_user_frame env profile user_data st) as F1.
  change (fun st2 : Store => (Ok tt, st2)) with (@ret unit tt).
  destruct ((if _should_update_user profile user_data
             then update_user_profile env profile else ret tt) st) as [[[]|e] st1] eqn:E1;
    simpl in F1; destruct F1 as (_ & _ & F1 & _).
  2:{ intros H; inversion H; subst.
      repeat split; intros; try discriminate; try congruence; auto. }
  pose proof (update_posts_for_actor_frame env (profile_did profile) false st1) as F2.
  destruct (update_posts_for_actor env (profile_did profile) false st1)
    as [[[]|e] st2] eqn:E2; simpl in F2; destruct F2 as (_ & _ & F2 & _).
  2:{ intros H; inversion H; subst.
      repeat split; intros; try discriminate; try congruence; auto. }
  destruct (get_engagement_totals env (profile_did profile) st2) as [[eng|e] st3] eqn:E3.
  2:{ assert (Hst : st3 = st2).
      { unfold get_engagement_totals, get_connection in E3.
        destruct (connect env _);
          [destruct (engagement_query _ _) as [[[[l r0] q] rp]|]; discriminate E3|].
        inversion E3; reflexivity. }
      intros H; inversion H; subst.
      repeat split; intros; try discriminate; try congruence; auto. }
  apply get_engagement_totals_ok in E3 as [-> ->].
  cbn [e_likes e_replies e_quotes e_reposts].
  match goal with
  | |- context [upsert_snapshot env ?x st2] => set (snap := x)
  end.
  destruct (upsert_snapshot env snap st2) as [[[]|e] st4] eqn:E4.
  - apply upsert_snapshot_ok in E4. intros H; inversion H; subst r st'.
    split; [intros; discriminate|]. split; [intros; discriminate|].
    intros s Hs. inversion Hs; subst s.
    exists user_data, flag, st1, st2. rewrite E1, E2. simpl. repeat split; auto.
  - apply upsert_snapshot_raises in E4. subst st4.
    intros H; inversion H; subst.
    repeat split; intros; try discriminate; try congruence; auto.
Qed.

Lemma process_user_profile_body_of env profile curr_date st s st' :
  process_user_profile env profile curr_date st = (Ok (Some s), st') ->
  process_user_profile_body env profile curr_date st = (Ok (Some s), st').
Proof.
  unfold process_user_profile, try_except.
  destruct (process_user_profile_body env profile curr_date st) as [[r|e] st1];
    [trivial | unfold ret; intros H; inversion H].
Qed.

Lemma upsert_keeps_other u s t row :
  In row t -> conflicts s row = false -> In row (upsert_snapshot_sql u s t).
Proof.
  intros Hin Hc. unfold upsert_snapshot_sql. destruct (existsb (conflicts s) t).
  - apply in_sql_update. left. auto.
  - apply in_or_app. now left.
Qed.

Lemma stages_snapshots env profile user_data st :
  snapshots_table
    (snd (update_posts_for_actor env (profile_did profile) false
            (snd ((if _should_update_user profile user_data
                   then update_user_profile env profile else ret tt) st))))
  = snapshots_table st
  /\ snapshot_logs_table
       (snd (update_posts_for_actor env (profile_did profile) false
               (snd ((if _should_update_user profile user_data
                      then update_user_profile env profile else ret tt) st))))
     = snapshot_logs_table st
  /\ views_table
       (snd (update_posts_for_actor env (profile_did profile) false
               (snd ((if _should_update_user profile user_data
                      then update_user_profile env profile else ret tt) st))))
     = views_table st.
Proof.
  pose proof (maybe_update_user_frame env profile user_data st) as (_ & V1 & S1 & L1).
  pose proof (update_posts_for_actor_frame env (profile_did profile) false
                (snd ((if _should_update_user profile user_data
                       then update_user_profile env profile else ret tt) st)))
    as (_ & V2 & S2 & L2).
  simpl in *. repeat split; congruence.
Qed.

Lemma process_user_profile_success :
  forall (env : Env) (profile : UserProfile) (curr_date : string)
         (st st' : Store) (s : SnapshotData),
    process_user_profile env profile curr_date st = (Ok (Some s), st') ->
    (exists user_data flag,
        find (fun u => u_did u =? profile_did profile) (users_table st) = Some user_data
        /\ user_column user_data 7 = Ok flag /\ truthy flag = false)
    /\ s = mkSnapshotData (profile_did profile) (profile_handle profile) curr_date
             (followers_count profile) (following_count profile) (posts_count profile)
             (spec_total p_likes (profile_did profile) (posts_table st'))
             (spec_total p_replies (profile_did profile) (posts_table st'))
             (spec_total p_quotes (profile_did profile) (posts_table st'))
             (spec_total p_reposts (profile_did profile) (posts_table st'))
    /\ (exists r, In r (snapshots_table st') /\ row_of_snapshot s r)
    /\ snapshot_logs_table st' = snapshot_logs_table st
    /\ views_table st' = views_table st.
Proof.
  intros env profile curr_date st st' s H.
  apply process_user_profile_body_of in H.
  apply process_user_profile_body_stages in H as (_ & _ & H).
  destruct (H s eq_refl)
    as (user_data & flag & st1 & st2 & Hf & Hcol & Ht & -> & -> & Hs & ->).
  destruct (stages_snapshots env profile user_data st) as (_ & HL & HV).
  split; [eauto|]. split; [exact Hs|]. split; [|split; [exact HL | exact HV]].
  cbn [snapshots_table set_snapshots].
  match goal with
  | |- context [upsert_snapshot_sql ?u s ?t] =>
      destruct (upsert_has_row u s t) as [r [Hin Hc]];
      pose proof (upsert_overwrites u s t r Hin Hc) as Hcount
  end.
  exists r. split; [exact Hin|]. unfold row_of_snapshot, conflicts in *.
  apply andb_true_iff in Hc as [Hd Hdate]. apply String.eqb_eq in Hd, Hdate. auto.
Qed.


(** X6. When the task of an account gives a snapshot, the account was
    stored with its skip flag not set; the snapshot has the identifier and
    handle of the profile, the date of the run, the three counts of the
    fetched profile, and as engagement the four sums over the posts of the
    account as they are stored when the task ends; and its row is in
    [snapshots] with these counters.  The task leaves the run log and the
    views as they were. *)
Theorem X6_snapshot_of_a_processed_account :
  forall (env : Env) (profile : UserProfile) (curr_date : string)
         (st st' : Store) (s : SnapshotData),
    process_user_profile env profile curr_date st = (Ok (Some s), st') ->
    (exists user_data flag,
        find (fun u => u_did u =? profile_did profile) (users_table st) = Some user_data
        /\ user_column user_data 7 = Ok flag /\ truthy flag = false)
    /\ s = mkSnapshotData (profile_did profile) (profile_handle profile) curr_date
             (followers_count profile) (following_count profile) (posts_count profile)
             (spec_total p_likes (profile_did profile) (posts_table st'))
             (spec_total p_replies (profile_did profile) (posts_table st'))
             (spec_total p_quotes (profile_did profile) (posts_table st'))
             (spec_total p_reposts (profile_did profile) (posts_table st'))
    /\ (exists r, In r (snapshots_table st') /\ row_of_snapshot s r)
    /\ snapshot_logs_table st' = snapshot_logs_table st
    /\ views_table st' = views_table st.
Proof. exact process_user_profile_success. Qed.

Lemma X6_snapshot_of_a_processed_account_witness :
  process_user_profile sample_env sample_profile "2024-03-05" sample_store
  = (Ok (Some sample_snapshot),
     snd (process_user_profile sample_env sample_profile "2024-03-05" sample_store))
  /\ sd_likes sample_snapshot
     = spec_total p_likes "did:abc"
         (posts_table
            (snd (process_user_profile sample_env sample_profile "2024-03-05" sample_store))).
Proof.
  assert (H : process_user_profile sample_env sample_profile "2024-03-05" sample_store
              = (Ok (Some sample_snapshot),
                 snd (process_user_profile sample_env sample_profile "2024-03-05"
                        sample_store)))
    by (vm_compute; reflexivity).
  split; [exact H|].
  exact (f_equal sd_likes
           (proj1 (proj2 (X6_snapshot_of_a_processed_account _ _ _ _ _ _ H)))).
Defined.

Lemma process_keeps_other_rows env profile curr_date st r st' row :
  process_user_profile env profile curr_date st = (r, st') ->
  In row (snapshots_table st) -> s_did row <> profile_did profile ->
  In row (snapshots_table st').
Proof.
  unfold process_user_profile, try_except. intros H Hin Hd.
  destruct (process_user_profile_body env profile curr_date st) as [r0 st0] eqn:B.
  apply process_user_profile_body_stages in B as (B1 & B2 & B3).
  destruct r0 as [[s|]|e].
  - inversion H; subst. clear H.
    destruct (B3 s eq_refl)
      as (user_data & flag & st1 & st2 & _ & _ & _ & -> & -> & Hs & ->).
    destruct (stages_snapshots env profile user_data st) as (HS & _ & _).
    cbn [snapshots_table set_snapshots]. apply upsert_keeps_other.
    + rewrite HS. exact Hin.
    + unfold conflicts. rewrite Hs. cbn [sd_did].
      destruct (s_did row =? profile_did profile) eqn:E; [|reflexivity].
      apply String.eqb_eq in E. contradiction.
  - inversion H; subst. rewrite (B2 eq_refl). exact Hin.
  - unfold ret in H. inversion H; subst. rewrite (B1 e eq_refl). exact Hin.
Qed.

Lemma run_tasks_keep_other_rows env curr_date profiles :
  forall st r st' row,
    run_tasks env profiles curr_date st = (r, st') ->
    In row (snapshots_table st) ->
    ~ In (s_did row) (map profile_did profiles) ->
    In row (snapshots_table st').
Proof.
  induction profiles as [|p ps IH]; intros st r st' row H Hin Hn; simpl in H.
  - inversion H; subst. exact Hin.
  - destruct (process_user_profile env p curr_date st) as [r0 st1] eqn:E.
    destruct (run_tasks env ps curr_date st1) as [[rs|e] st2] eqn:E2;
      inversion H; subst;
      (eapply IH; [exact E2 | | intros C; apply Hn; now right]);
      (eapply process_keeps_other_rows; [exact E | exact Hin |]);
      intros C; apply Hn; left; now symmetry.
Qed.

Lemma run_tasks_write_rows :
  forall (env : Env) (all_profiles : list UserProfile) (curr_date : string)
         (st st' : Store) (futures : list (result (option SnapshotData))),
    NoDup (map profile_did all_profiles) ->
    run_tasks env all_profiles curr_date st = (Ok futures, st') ->
    forall s, In (Ok (Some s)) futures ->
              exists r, In r (snapshots_table st') /\ row_of_snapshot s r.
Proof.
  intros env all_profiles curr_date. induction all_profiles as [|p ps IH];
    intros st st' futures Hnd H s Hin; simpl in H.
  - inversion H; subst. contradiction.
  - inversion Hnd as [|x l Hnotin Hnd']; subst.
    destruct (process_user_profile env p curr_date st) as [r0 st1] eqn:E.
    destruct (run_tasks env ps curr_date st1) as [[rs|e] st2] eqn:E2;
      inversion H; subst. clear H.
    destruct Hin as [-> | Hin].
    + destruct (process_user_profile_success env p curr_date st st1 s E)
        as (_ & Hs & (r & Hr & Hrow) & _).
      exists r. split; [|exact Hrow].
      eapply run_tasks_keep_other_rows; [exact E2 | exact Hr |].
      destruct Hrow as (Hd & _). rewrite Hd, Hs. exact Hnotin.
    + eapply IH; eauto.
Qed.

(** X7. When the profiles the batch processes have pairwise different
    identifiers, every task that gave a snapshot has the row of that
    snapshot in [snapshots] when the last task is over: the row has the
    account, the date of the run and the counters of the snapshot, and no
    later task has touched it. *)
Theorem X7_processed_accounts_have_their_row_after_the_batch :
  forall (env : Env) (all_profiles : list UserProfile) (curr_date : string)
         (st st' : Store) (futures : list (result (option SnapshotData))),
    NoDup (map profile_did all_profiles) ->
    run_tasks env all_profiles curr_date st = (Ok futures, st') ->
    forall s, In (Ok (Some s)) futures ->
              exists r, In r (snapshots_table st') /\ row_of_snapshot s r.
Proof. exact run_tasks_write_rows. Qed.

Lemma X7_processed_accounts_have_their_row_after_the_batch_witness :
  NoDup (map profile_did [sample_profile; second_profile])
  /\ fst (run_tasks down_env [sample_profile; second_profile] "2024-03-05" two_users_store)
     = Ok [Ok (Some (mkSnapshotData "did:abc" "abc.bsky.social" "2024-03-05"
                       100 50 5 3 0 0 0));
           Ok (Some (mkSnapshotData "did:xyz" "xyz.bsky.social" "2024-03-05"
                       7 8 9 0 0 0 0))]
  /\ exists r,
      In r (snapshots_table
              (snd (run_tasks down_env [sample_profile; second_profile] "2024-03-05"
                      two_users_store)))
      /\ row_of_snapshot
           (mkSnapshotData "did:abc" "abc.bsky.social" "2024-03-05" 100 50 5 3 0 0 0) r.
Proof.
  assert (Hnd : NoDup (map profile_did [sample_profile; second_profile])).
  { simpl. constructor; [simpl; intros [C|[]]; discriminate C|].
    constructor; [simpl; tauto | constructor]. }
  assert (Hrun : run_tasks down_env [sample_profile; second_profile] "2024-03-05"
                   two_users_store
                 = (Ok [Ok (Some (mkSnapshotData "did:abc" "abc.bsky.social" "2024-03-05"
                                    100 50 5 3 0 0 0));
                        Ok (Some (mkSnapshotData "did:xyz" "xyz.bsky.social" "2024-03-05"
                                    7 8 9 0 0 0 0))],
                    snd (run_tasks down_env [sample_profile; second_profile] "2024-03-05"
                           two_users_store)))
    by (vm_compute; reflexivity).
  split; [exact Hnd|]. split; [rewrite Hrun; reflexivity|].
  exact (X7_processed_accounts_have_their_row_after_the_batch _ _ _ _ _ _ Hnd Hrun _
           (or_introl eq_refl)).
Defined.

(* ================================================================== *)
(** ** Further properties of the run log *)
(* ================================================================== *)

Lemma well_numbered_ids logs l :
  well_numbered logs -> In l logs ->
  (1 <= l_id l <= Z.of_nat (List.length logs))%Z.
Proof.
  unfold well_numbered. intros Hw Hin.
  assert (Hid : In (l_id l) (map l_id logs)) by (apply in_map; exact Hin).
  rewrite Hw in Hid. apply in_map_iff in Hid as [n [<- Hn]].
  apply in_seq in Hn. lia.
Qed.

Lemma well_numbered_snoc logs row :
  well_numbered logs -> l_id row = (Z.of_nat (List.length logs) + 1)%Z ->
  well_numbered (logs ++ [row]).
Proof.
  unfold well_numbered. intros Hw Hid.
  rewrite map_app, length_app, Hw. cbn [List.length map].
  rewrite Nat.add_1_r, seq_S, map_app. cbn [map]. f_equal. f_equal.
  rewrite Hid. lia.
Qed.

Lemma update_log_sql_other date log_id duration total logs :
  (forall l, In l logs -> l_id l <> log_id) ->
  update_log_sql date log_id duration total logs = logs.
Proof.
  intros H. unfold update_log_sql. apply sql_update_none.
  intros l Hl. apply Z.eqb_neq. now apply H.
Qed.

Lemma update_log_sql_own env st total :
  well_numbered (snapshot_logs_table st) ->
  update_log_sql (utc_now env) (Z.of_nat (List.length (snapshot_logs_table st)) + 1)
    (time_end env - time_start env) total
    (snapshot_logs_table st ++ [log_entry_created env st])
  = (snapshot_logs_table st ++ [log_entry_completed env st total])%list.
Proof.
  intros Hw. unfold update_log_sql, sql_update. rewrite !filter_app.
  assert (Hother : forall l, In l (snapshot_logs_table st) ->
                     (l_id l =? Z.of_nat (List.length (snapshot_logs_table st)) + 1)%Z
                     = false).
  { intros l Hl. apply Z.eqb_neq. pose proof (well_numbered_ids _ _ Hw Hl). lia. }
  rewrite (filter_all_true (fun l => negb (l_id l =? _)%Z) (snapshot_logs_table st))
    by (intros l Hl; now rewrite (Hother l Hl)).
  rewrite (filter_all_false (fun l => (l_id l =? _)%Z) (snapshot_logs_table st))
    by exact Hother.
  cbn [filter log_entry_created l_id]. rewrite Z.eqb_refl.
  cbn [negb app map]. rewrite app_nil_r. reflexivity.
Qed.

(** The run log after a run, whatever its outcome: as it was when the
    entry could not be created, the entry in progress appended when the
    run raised or its last update could not connect, or the rows after the
    update of the entry. *)
Lemma run_log_after env b st :
  let st' := snd (run_snapshot_collection env b st) in
  let logs1 := (snapshot_logs_table st ++ [log_entry_created env st])%list in
  (connect env CallCreateSnapshotLog = false /\ st' = st)
  \/ (is_ok (fst (run_snapshot_collection env b st)) = false
      /\ snapshot_logs_table st' = logs1)
  \/ (exists total,
         fst (run_snapshot_collection env b st) = Ok tt
         /\ snapshot_logs_table st'
            = update_log_sql (utc_now env)
                (Z.of_nat (List.length (snapshot_logs_table st)) + 1)
                (time_end env - time_start env) total logs1).
Proof.
  cbv zeta. destruct (run_snapshot_collection env b st) as [r st'] eqn:R.
  cbn [fst snd]. revert R.
  unfold run_snapshot_collection, mbind, create_snapshot_log, get_connection.
  destruct (connect env CallCreateSnapshotLog);
    [|intros R; inversion R; left; auto].
  fold (log_entry_created env st).
  set (st1 := set_snapshot_logs st
                (snapshot_logs_table st ++ [log_entry_created env st])).
  pose proof (frame_create_snapshots_batch env b st1) as (Hl & _ & _).
  destruct (create_snapshots_batch env b st1) as [[n|e] st2]; simpl in Hl.
  - unfold update_snapshot_log, get_connection.
    destruct (connect env CallUpdateSnapshotLog); intros R; inversion R; subst; right.
    + right. exists n. cbn [snapshot_logs_table set_snapshot_logs].
      rewrite Hl. auto.
    + left. auto.
  - intros R; inversion R; subst. right. left. auto.
Qed.

(** X8. When the identifiers of the run log are 1, 2, ... in order, a run
    leaves them so, changes no entry that was there before it, and adds at
    most one entry: its own, in progress or completed. *)
Theorem X8_a_run_touches_only_its_own_log_entry :
  forall (env : Env) (use_simple_query : bool) (st : Store),
    well_numbered (snapshot_logs_table st) ->
    let st' := snd (run_snapshot_collection env use_simple_query st) in
    well_numbered (snapshot_logs_table st')
    /\ (snapshot_logs_table st' = snapshot_logs_table st
        \/ snapshot_logs_table st'
           = (snapshot_logs_table st ++ [log_entry_created env st])%list
        \/ exists total,
            snapshot_logs_table st'
            = (snapshot_logs_table st ++ [log_entry_completed env st total])%list).
Proof.
  intros env b st Hw st'. subst st'.
  destruct (run_log_after env b st) as [[_ ->] | [[_ ->] | [total [_ ->]]]].
  - auto.
  - split; [|auto]. apply well_numbered_snoc; [exact Hw | reflexivity].
  - rewrite update_log_sql_own by exact Hw. split; [|eauto].
    apply well_numbered_snoc; [exact Hw | reflexivity].
Qed.

Lemma X8_a_run_touches_only_its_own_log_entry_witness :
  well_numbered (snapshot_logs_table store_with_snapshot)
  /\ well_numbered
       (snapshot_logs_table (snd (run_snapshot_collection sample_env true
                                    store_with_snapshot))).
Proof.
  assert (H : well_numbered (snapshot_logs_table store_with_snapshot)) by reflexivity.
  split; [exact H|].
  exact (proj1 (X8_a_run_touches_only_its_own_log_entry sample_env true
                  store_with_snapshot H)).
Defined.

(** Without that numbering the update of a run can complete an entry of
    another run: with one entry left, of identifier 2, the new entry is
    numbered 2 as well, and both are completed. *)
Example colliding_log_identifiers :
  map (fun l => (l_id l, l_status l))
    (snapshot_logs_table (snd (run_snapshot_collection sample_env true gapped_store)))
  = [(2%Z, completed); (2%Z, completed)].
Proof. vm_compute. reflexivity. Qed.

(** X9. A run that raises has created its log entry or has changed nothing:
    either the connection for the entry did not open and the store is as it
    was, or the run log is the one before the run followed by the entry of
    the run, still in progress. *)
Theorem X9_a_failed_run_leaves_its_entry_in_progress :
  forall (env : Env) (use_simple_query : bool) (st st' : Store) (e : exn),
    run_snapshot_collection env use_simple_query st = (Raise e, st') ->
    (connect env CallCreateSnapshotLog = false /\ st' = st)
    \/ (snapshot_logs_table st'
        = (snapshot_logs_table st ++ [log_entry_created env st])%list
        /\ l_status (log_entry_created env st) = in_progress).
Proof.
  intros env b st st' e H.
  pose proof (run_log_after env b st) as Hlog. rewrite H in Hlog. simpl in Hlog.
  destruct Hlog as [Hl | [[_ Hl] | [total [C _]]]]; auto. discriminate C.
Qed.

Lemma X9_a_failed_run_leaves_its_entry_in_progress_witness :
  run_snapshot_collection no_users_env true sample_store
  = (Raise (Exn OperationalError "could not connect to server"),
     set_snapshot_logs sample_store [log_entry_created no_users_env sample_store])
  /\ ((connect no_users_env CallCreateSnapshotLog = false
       /\ set_snapshot_logs sample_store [log_entry_created no_users_env sample_store]
          = sample_store)
      \/ (snapshot_logs_table
            (set_snapshot_logs sample_store [log_entry_created no_users_env sample_store])
          = (snapshot_logs_table sample_store
               ++ [log_entry_created no_users_env sample_store])%list
          /\ l_status (log_entry_created no_users_env sample_store) = in_progress)).
Proof.
  assert (H : run_snapshot_collection no_users_env true sample_store
              = (Raise (Exn OperationalError "could not connect to server"),
                 set_snapshot_logs sample_store
                   [log_entry_created no_users_env sample_store]))
    by (vm_compute; reflexivity).
  split; [exact H|].
  exact (X9_a_failed_run_leaves_its_entry_in_progress _ _ _ _ _ H).
Defined.

(* ================================================================== *)
(** ** Further properties of the synchroniser: what a merge leaves *)
(* ================================================================== *)

Section MergeEffects.

Variable env : Env.

Lemma update_post_sql_identity l r q rp now u t :
  Permutation (map post_identity (update_post_sql l r q rp now u t))
    (map post_identity t).
Proof. unfold update_post_sql. now apply sql_update_column. Qed.

Lemma merge_row_identity update_all tracked_posts row ms ms' :
  merge_row env update_all tracked_posts row ms = Ok ms' ->
  Permutation (map post_identity (tx_posts (ms_txn ms')))
    (map post_identity (tx_posts (ms_txn ms))).
Proof.
  intros E. apply merge_step_complete in E.
  destruct E; try apply Permutation_refl. simpl. apply update_post_sql_identity.
Qed.

Lemma merge_rows_identity update_all tracked_posts rows :
  forall ms ms',
    merge_rows env update_all tracked_posts rows ms = Ok ms' ->
    Permutation (map post_identity (tx_posts (ms_txn ms')))
      (map post_identity (tx_posts (ms_txn ms))).
Proof.
  induction rows as [|row rows IH]; intros ms ms' H; simpl in H.
  - inversion H; apply Permutation_refl.
  - destruct (merge_row env update_all tracked_posts row ms) as [ms1|e] eqn:E;
      cbn [bind] in H; [|discriminate].
    eapply Permutation_trans; [apply (IH _ _ H)|].
    eapply merge_row_identity; eauto.
Qed.

(** What a merge that reaches the commit has made of the table. *)
Lemma merge_posts_final d update_all t fetched c :
  merge_posts env d update_all t fetched = Ok c ->
  exists ms,
    merge_rows env update_all (select_tracked env d update_all t) (keep_first fetched)
      (merge_start t) = Ok ms
    /\ insert_all (posts_to_insert ms) (ms_txn ms) = Ok c
    /\ tx_posts c = (tx_posts (ms_txn ms) ++ posts_to_insert ms)%list
    /\ tx_log c = (tx_log (ms_txn ms) ++ map InsertPost (posts_to_insert ms))%list.
Proof.
  unfold merge_posts. intros H.
  destruct (drop_duplicates fetched) as [rows|e] eqn:Ed; cbn [bind] in H; [|discriminate].
  assert (rows = keep_first fetched).
  { unfold drop_duplicates in Ed. destruct (forallb no_uri fetched); congruence. }
  subst rows. fold (merge_start t) in H.
  destruct (merge_rows env update_all (select_tracked env d update_all t)
              (keep_first fetched) (merge_start t)) as [ms|e] eqn:Em;
    cbn [bind] in H; [|discriminate].
  exists ms. split; [reflexivity|]. split; [exact H|].
  apply insert_all_spec in H as [H1 H2]. auto.
Qed.

End MergeEffects.

(** X10. [update_posts_for_actor] never deletes a post and never changes
    the [uri], [did] or [createdAt] of one: whatever it is asked and however
    it ends, the table afterwards has, for these three columns, the rows it
    had, each as often as before, and beside them only rows that were
    added; no other table is written. *)
Theorem X10_posts_are_never_deleted_nor_re_identified :
  forall (env : Env) (d : string) (update_all : bool) (st : Store),
    let st' := snd (update_posts_for_actor env d update_all st) in
    (exists added,
        Permutation (map post_identity (posts_table st'))
          (map post_identity (posts_table st) ++ map post_identity added))
    /\ users_table st' = users_table st /\ views_table st' = views_table st
    /\ snapshots_table st' = snapshots_table st
    /\ snapshot_logs_table st' = snapshot_logs_table st.
Proof.
  intros env d update_all st st'. subst st'.
  split; [|apply update_posts_for_actor_frame].
  assert (Hsame : exists added,
             Permutation (map post_identity (posts_table st))
               (map post_identity (posts_table st) ++ map post_identity added)).
  { exists []. simpl. rewrite app_nil_r. apply Permutation_refl. }
  unfold update_posts_for_actor, get_connection.
  destruct (connect env _); [|exact Hsame].
  unfold sync_transaction.
  destruct (fetch_posts env d update_all (posts_table st)) as [fetched|e];
    cbn [bind]; [|exact Hsame].
  destruct fetched as [|x fetched]; [exact Hsame|].
  destruct (merge_posts env d update_all (posts_table st) (x :: fetched)) as [c|e] eqn:Em;
    cbn [bind]; [|exact Hsame].
  apply merge_posts_final in Em as (ms & Hm & _ & Hposts & _).
  exists (posts_to_insert ms). cbn [snd posts_table set_posts].
  rewrite Hposts, map_app. apply Permutation_app_tail.
  apply (merge_rows_identity env) in Hm. exact Hm.
Qed.

Section MergeOutcome.

Variable env : Env.

(** The iteration on the only row of a URI decides what the loop makes of
    that URI: the iterations before and after it leave its rows alone. *)
Lemma merge_rows_deciding_step update_all tracked_posts u rows :
  forall ms ms',
    merge_rows env update_all tracked_posts rows ms = Ok ms' ->
    (List.length (fetched_for u rows) <= 1)%nat ->
    forall row,
      In row rows -> uri row = Some u ->
      exists msa msb,
        merge_row env update_all tracked_posts row msa = Ok msb
        /\ state_for u msa = state_for u ms
        /\ state_for u ms' = state_for u msb.
Proof.
  induction rows as [|x rows IH]; intros ms ms' H Hone row Hin Hu; [contradiction|].
  simpl in H.
  destruct (merge_row env update_all tracked_posts x ms) as [ms1|e] eqn:E;
    cbn [bind] in H; [|discriminate].
  unfold fetched_for in Hone. cbn [filter] in Hone. fold (fetched_for u rows) in Hone.
  destruct Hin as [-> | Hin].
  - rewrite Hu, opt_eqb_refl in Hone. simpl in Hone.
    assert (Hrest : fetched_for u rows = []).
    { destruct (fetched_for u rows); [reflexivity | simpl in Hone; lia]. }
    exists ms, ms1. split; [exact E|]. split; [reflexivity|].
    apply (merge_rows_leave_quiet env update_all tracked_posts u) in H.
    + destruct H as (_ & H2 & H3). unfold state_for. now rewrite H2, H3.
    + intros r Hr Hur. exfalso.
      assert (Hf : In r (fetched_for u rows)).
      { unfold fetched_for. apply filter_In. split; [exact Hr|].
        rewrite Hur. apply opt_eqb_refl. }
      rewrite Hrest in Hf. contradiction.
  - assert (Hx : opt_eqb (uri x) (Some u) = false).
    { destruct (opt_eqb (uri x) (Some u)) eqn:Ex; [|reflexivity].
      exfalso.
      assert (Hr : In row (fetched_for u rows)).
      { unfold fetched_for. apply filter_In. split; [exact Hin|].
        rewrite Hu. apply opt_eqb_refl. }
      destruct (fetched_for u rows); [contradiction | simpl in Hone; lia]. }
    rewrite Hx in Hone.
    destruct (merge_row_other_uri env update_all tracked_posts u x ms ms1 E Hx)
      as (_ & H2 & H3).
    destruct (IH _ _ H Hone row Hin Hu) as (msa & msb & Hstep & Ha & Hb).
    exists msa, msb. split; [exact Hstep|]. split; [|exact Hb].
    rewrite Ha. unfold state_for. now rewrite H2, H3.
Qed.

(** The inserts of the commit that succeed were of URIs the table did not
    hold. *)
Lemma insert_all_fresh rows :
  forall c c',
    insert_all rows c = Ok c' ->
    forall x, In x rows -> stored_for (p_uri x) (tx_posts c) = [].
Proof.
  induction rows as [|y rows IH]; intros c c' H x Hx; [contradiction|].
  simpl in H. unfold insert_post_sql in H.
  destruct (existsb (fun r => p_uri r =? p_uri y) (tx_posts c)) eqn:Ex; [discriminate|].
  cbn [bind] in H.
  destruct Hx as [-> | Hx].
  - unfold stored_for. clear - Ex.
    induction (tx_posts c) as [|z l IHl]; simpl in *; [reflexivity|].
    apply orb_false_iff in Ex as [E1 E2]. rewrite E1. auto.
  - specialize (IH _ _ H x Hx). cbn [tx_posts] in IH.
    rewrite stored_for_app in IH. now apply app_eq_nil in IH as [IH _].
Qed.

(** What a merge that reaches the commit has made of the rows of the URI
    of a fetched row that the cutoff test lets through: they are as they
    were, with the counters that were fetched; or each of them has the
    fetched counters; or the table had none and has the fetched row. *)
Lemma merge_posts_outcome d update_all t fetched c row u cr :
  merge_posts env d update_all t fetched = Ok c ->
  In row (keep_first fetched) -> uri row = Some u ->
  row_createdAt row = Ok cr -> skips env update_all cr = false ->
  exists l r q rp,
    likeCount row = Some l /\ replyCount row = Some r
    /\ quoteCount row = Some q /\ repostCount row = Some rp
    /\ ((exists existing_row others,
            stored_for u (select_tracked env d update_all t) = existing_row :: others
            /\ same_counters l r q rp existing_row
            /\ stored_for u (tx_posts c) = stored_for u t)
        \/ (exists existing_row others,
               stored_for u (select_tracked env d update_all t) = existing_row :: others
               /\ ~ same_counters l r q rp existing_row
               /\ stored_for u (tx_posts c)
                  = update_post_sql l r q rp (utc_now env) u (stored_for u t))
        \/ (exists a dd,
               stored_for u (select_tracked env d update_all t) = []
               /\ author row = Some a /\ author_did a = Some dd
               /\ stored_for u t = []
               /\ stored_for u (tx_posts c)
                  = [mkPostRow u dd l r q rp cr (utc_now env)])).
Proof.
  intros Hm Hin Hu Hcr Hsk.
  apply merge_posts_final in Hm as (ms & Hm & Hins & Hposts & _).
  destruct (merge_rows_deciding_step update_all _ u _ _ _ Hm
              (fetched_for_keep_first_le u fetched) row Hin Hu)
    as (msa & msb & Hstep & Ha & Hb).
  unfold state_for in Ha, Hb. cbn [merge_start ms_txn tx_posts posts_to_insert] in Ha.
  apply pair_equal_spec in Ha as [Ha1 Ha2]. apply pair_equal_spec in Hb as [Hb1 Hb2].
  cbn [stored_for filter] in Ha2.
  assert (Hc : stored_for u (tx_posts c)
               = (stored_for u (tx_posts (ms_txn msb))
                  ++ stored_for u (posts_to_insert msb))%list).
  { now rewrite Hposts, stored_for_app, Hb1, Hb2. }
  apply merge_step_complete in Hstep.
  destruct Hstep as
      [c' Hc' Hs'
      | c' u' ex others l r q rp Hc' Hs' Hu' Hst Hl Hr Hq Hrp Hsame
      | c' u' ex others l r q rp Hc' Hs' Hu' Hst Hl Hr Hq Hrp Hdiff
      | c' u' a dd l r q rp Hc' Hs' Hu' Hst Ha Hd Hl Hr Hq Hrp].
  - congruence.
  - assert (u' = u) by congruence. subst u'.
    exists l, r, q, rp. repeat (split; [assumption|]).
    left. exists ex, others. repeat (split; [assumption|]).
    rewrite Hc, Ha1, Ha2. apply app_nil_r.
  - assert (u' = u) by congruence. subst u'.
    exists l, r, q, rp. repeat (split; [assumption|]).
    right; left. exists ex, others. repeat (split; [assumption|]).
    rewrite Hc. cbn [ms_txn tx_posts posts_to_insert].
    rewrite stored_for_update, String.eqb_refl, Ha1, Ha2. apply app_nil_r.
  - assert (u' = u) by congruence. subst u'.
    assert (c' = cr) by congruence. subst c'.
    exists l, r, q, rp. repeat (split; [assumption|]).
    right; right. exists a, dd. repeat (split; [assumption|]).
    cbn [ms_txn tx_posts posts_to_insert] in Hb1, Hb2, Hc.
    rewrite stored_for_app, Ha2 in Hb2, Hc.
    cbn [stored_for filter p_uri app] in Hb2, Hc. rewrite String.eqb_refl in Hb2, Hc.
    fold (stored_for u (tx_posts (ms_txn msa))) in Hc.
    assert (Hfresh : stored_for u (tx_posts (ms_txn ms)) = []).
    { apply (insert_all_fresh _ _ _ Hins
               (mkPostRow u dd l r q rp cr (utc_now env))).
      assert (Hfi : In (mkPostRow u dd l r q rp cr (utc_now env))
                      (stored_for u (posts_to_insert ms))).
      { rewrite Hb2. now left. }
      now apply filter_In in Hfi as [Hfi _]. }
    rewrite Hb1, Ha1 in Hfresh.
    split; [exact Hfresh|]. rewrite Hc, Ha1, Hfresh. reflexivity.
Qed.

End MergeOutcome.

(** X11. After a merge that reaches the commit, the table holds every post
    of the working set that the cutoff test let through, with the four
    counters that were fetched: for the first fetched row of a URI there is
    a stored row of that URI whose likes, replies, quotes and reposts are
    those of the fetched row, whether the row was new, changed or
    unchanged. *)
Theorem X11_merged_posts_hold_the_fetched_counters :
  forall (env : Env) (d : string) (update_all : bool) (t : list PostRow)
         (fetched : list PostView) (c : txn) (row : PostView) (u cr : string),
    merge_posts env d update_all t fetched = Ok c ->
    In row (keep_first fetched) -> uri row = Some u ->
    row_createdAt row = Ok cr -> skips env update_all cr = false ->
    exists l r q rp p,
      likeCount row = Some l /\ replyCount row = Some r
      /\ quoteCount row = Some q /\ repostCount row = Some rp
      /\ In p (tx_posts c) /\ p_uri p = u /\ post_counters p = (l, r, q, rp).
Proof.
  intros env d update_all t fetched c row u cr Hm Hin Hu Hcr Hsk.
  destruct (merge_posts_outcome env d update_all t fetched c row u cr Hm Hin Hu Hcr Hsk)
    as (l & r & q & rp & Hl & Hr & Hq & Hrp & Hcases).
  exists l, r, q, rp.
  assert (Hstored : forall p, In p (stored_for u (tx_posts c)) ->
                         In p (tx_posts c) /\ p_uri p = u).
  { intros p Hp. apply filter_In in Hp as [Hp1 Hp2].
    apply String.eqb_eq in Hp2. auto. }
  destruct Hcases as [(ex & others & Hst & Hsame & Hc)
                     | [(ex & others & Hst & Hdiff & Hc)
                       | (a & dd & Hst & Ha & Hd & Ht & Hc)]].
  - exists ex.
    assert (Hex : In ex (stored_for u (tx_posts c))).
    { rewrite Hc. unfold stored_for.
      assert (Hi : In ex (stored_for u (select_tracked env d update_all t)))
        by (rewrite Hst; now left).
      apply filter_In in Hi as [Hi1 Hi2]. apply filter_In. split; [|exact Hi2].
      unfold select_tracked in Hi1.
      destruct update_all; now apply filter_In in Hi1 as [Hi1 _]. }
    destruct (Hstored _ Hex) as [H1 H2].
    destruct Hsame as (S1 & S2 & S3 & S4).
    repeat (split; [assumption|]). unfold post_counters. congruence.
  - exists (mkPostRow (p_uri ex) (p_did ex) l r q rp (p_createdAt ex) (utc_now env)).
    assert (Hi : In ex (stored_for u (select_tracked env d update_all t)))
      by (rewrite Hst; now left).
    apply filter_In in Hi as [Hi1 Hi2].
    assert (Hex : In ex (stored_for u t)).
    { apply filter_In. split; [|exact Hi2].
      unfold select_tracked in Hi1.
      destruct update_all; now apply filter_In in Hi1 as [Hi1 _]. }
    assert (Hup : In (mkPostRow (p_uri ex) (p_did ex) l r q rp (p_createdAt ex)
                        (utc_now env)) (stored_for u (tx_posts c))).
    { rewrite Hc. unfold update_post_sql. apply in_sql_update. right.
      exists ex. auto. }
    destruct (Hstored _ Hup) as [H1 H2].
    repeat (split; [assumption|]). reflexivity.
  - exists (mkPostRow u dd l r q rp cr (utc_now env)).
    assert (Hnew : In (mkPostRow u dd l r q rp cr (utc_now env))
                     (stored_for u (tx_posts c))) by (rewrite Hc; now left).
    destruct (Hstored _ Hnew) as [H1 H2].
    repeat (split; [assumption|]). reflexivity.
Qed.

Lemma X11_merged_posts_hold_the_fetched_counters_witness :
  exists c,
    merge_posts sample_env "did:abc" false [stored_post] merge_feed = Ok c
    /\ exists l r q rp p,
        likeCount (post_view "at://1" "2024-03-01T10:00:00.000Z" 5) = Some l
        /\ replyCount (post_view "at://1" "2024-03-01T10:00:00.000Z" 5) = Some r
        /\ quoteCount (post_view "at://1" "2024-03-01T10:00:00.000Z" 5) = Some q
        /\ repostCount (post_view "at://1" "2024-03-01T10:00:00.000Z" 5) = Some rp
        /\ In p (tx_posts c) /\ p_uri p = "at://1" /\ post_counters p = (l, r, q, rp).
Proof.
  eexists. split; [vm_compute; reflexivity|].
  apply (X11_merged_posts_hold_the_fetched_counters sample_env "did:abc" false
           [stored_post] merge_feed _ (post_view "at://1" "2024-03-01T10:00:00.000Z" 5)
           "at://1" "2024-03-01T10:00:00.000Z").
  - vm_compute; reflexivity.
  - vm_compute. left; reflexivity.
  - reflexivity.
  - reflexivity.
  - vm_compute; reflexivity.
Defined.

Section MergeTwice.

Variable env : Env.

Lemma select_tracked_filter d update_all t :
  select_tracked env d update_all t = filter (tracked_row env d update_all) t.
Proof. unfold select_tracked, tracked_row. destruct update_all; reflexivity. Qed.

Lemma stored_for_tracked u d update_all t :
  stored_for u (select_tracked env d update_all t)
  = filter (tracked_row env d update_all) (stored_for u t).
Proof. rewrite select_tracked_filter. unfold stored_for. apply filter_comm. Qed.

(** The lookup condition reads only columns an [UPDATE] leaves alone. *)
Lemma tracked_after_update d update_all l r q rp now u t :
  filter (tracked_row env d update_all) (update_post_sql l r q rp now u t)
  = update_post_sql l r q rp now u (filter (tracked_row env d update_all) t).
Proof. unfold update_post_sql. now apply filter_sql_update. Qed.

Lemma merge_rows_each update_all tracked_posts rows :
  forall ms ms',
    merge_rows env update_all tracked_posts rows ms = Ok ms' ->
    forall row, In row rows ->
      exists msa msb, merge_row env update_all tracked_posts row msa = Ok msb.
Proof.
  induction rows as [|x rows IH]; intros ms ms' H row Hin; [contradiction|].
  simpl in H.
  destruct (merge_row env update_all tracked_posts x ms) as [ms1|e] eqn:E;
    cbn [bind] in H; [|discriminate].
  destruct Hin as [-> | Hin]; eauto.
Qed.

Lemma merge_rows_quiet update_all tracked_posts rows ms :
  (forall row, In row rows ->
     forall ms0, merge_row env update_all tracked_posts row ms0 = Ok ms0) ->
  merge_rows env update_all tracked_posts rows ms = Ok ms.
Proof.
  induction rows as [|x rows IH]; intros H; simpl; [reflexivity|].
  rewrite (H x (or_introl eq_refl)). cbn [bind].
  apply IH. intros row Hr. apply H. now right.
Qed.

(** After a merge that reached the commit, every row of the working set is
    skipped again or found in the lookup with its counters. *)
Lemma merged_row_is_settled d update_all t fetched c :
  merge_posts env d update_all t fetched = Ok c ->
  forallb (written_by d) fetched = true ->
  (update_all = false -> store_compares_as_strings env) ->
  forall row, In row (keep_first fetched) ->
    forall ms0,
      merge_row env update_all (select_tracked env d update_all (tx_posts c)) row ms0
      = Ok ms0.
Proof.
  intros Hm Hby Hcmp row Hin ms0.
  pose proof Hm as Hfinal.
  apply merge_posts_final in Hfinal as (ms & Hrows & _).
  destruct (merge_rows_each _ _ _ _ _ Hrows row Hin) as (msa & msb & Hstep).
  apply merge_step_sound.
  assert (Hshape :
            (exists cr, row_createdAt row = Ok cr /\ skips env update_all cr = true)
            \/ (exists cr u, row_createdAt row = Ok cr
                             /\ skips env update_all cr = false /\ uri row = Some u)).
  { apply merge_step_complete in Hstep. destruct Hstep; eauto 8. }
  destruct Hshape as [(cr & Hcr & Hsk) | (cr & u & Hcr & Hsk & Hu)].
  { eapply step_skip; eauto. }
  destruct (merge_posts_outcome env d update_all t fetched c row u cr Hm Hin Hu Hcr Hsk)
    as (l & r & q & rp & Hl & Hr & Hq & Hrp & Hcases).
  destruct Hcases as [(ex & others & Hst & Hsame & Hc)
                     | [(ex & others & Hst & Hdiff & Hc)
                       | (a & dd & Hst & Ha & Hd & Ht & Hc)]].
  - eapply (step_same env update_all _ row ms0 cr u ex others); eauto.
    rewrite stored_for_tracked, Hc, <- stored_for_tracked. exact Hst.
  - assert (Hux : (p_uri ex =? u) = true).
    { assert (Hi : In ex (stored_for u (select_tracked env d update_all t)))
        by (rewrite Hst; now left).
      now apply filter_In in Hi as [_ Hi]. }
    eapply (step_same env update_all _ row ms0 cr u
              (mkPostRow (p_uri ex) (p_did ex) l r q rp (p_createdAt ex) (utc_now env))
              (map (fun r0 => mkPostRow (p_uri r0) (p_did r0) l r q rp (p_createdAt r0)
                                (utc_now env)) others)); eauto.
    + rewrite stored_for_tracked, Hc, tracked_after_update, <- stored_for_tracked, Hst.
      unfold update_post_sql. rewrite sql_update_all; [reflexivity|].
      intros p Hp. rewrite <- Hst in Hp. now apply filter_In in Hp as [_ Hp].
    + repeat split.
  - eapply (step_same env update_all _ row ms0 cr u
              (mkPostRow u dd l r q rp cr (utc_now env)) []); eauto.
    + rewrite stored_for_tracked, Hc. cbn [filter].
      assert (Htr : tracked_row env d update_all
                      (mkPostRow u dd l r q rp cr (utc_now env)) = true).
      { assert (Hd' : (dd =? d) = true).
        { apply keep_first_subset in Hin.
          rewrite forallb_forall in Hby. specialize (Hby row Hin).
          unfold written_by in Hby. now rewrite Ha, Hd in Hby. }
        unfold tracked_row. cbn [p_did p_createdAt]. rewrite Hd'.
        destruct update_all; [reflexivity|].
        rewrite (Hcmp eq_refl). unfold skips in Hsk. cbn [negb andb] in Hsk.
        now rewrite Hsk. }
      now rewrite Htr.
    + repeat split.
Qed.

End MergeTwice.

(** X12. The merge is idempotent on a working set of the account's own
    posts each of which came with its [uri]: when a merge of it has reached
    the commit, a second merge of the same working set into the table it
    left, under the same clock, issues no statement and leaves the table
    as it is.  In incremental mode this holds when the store compares
    creation times with the cutoff date as the loop does. *)
Theorem X12_a_second_merge_writes_nothing :
  forall (env : Env) (d : string) (update_all : bool) (t : list PostRow)
         (fetched : list PostView) (c : txn),
    forallb (fun row => negb (no_uri row)) fetched = true ->
    merge_posts env d update_all t fetched = Ok c ->
    forallb (written_by d) fetched = true ->
    (update_all = false -> store_compares_as_strings env) ->
    merge_posts env d update_all (tx_posts c) fetched = Ok (mkTxn (tx_posts c) []).
Proof.
  intros env d update_all t fetched c _ Hm Hby Hcmp.
  pose proof (merged_row_is_settled env d update_all t fetched c Hm Hby Hcmp) as Hq.
  unfold merge_posts in *.
  destruct (drop_duplicates fetched) as [rows|e] eqn:Ed; cbn [bind] in *; [|discriminate].
  assert (rows = keep_first fetched).
  { unfold drop_duplicates in Ed. destruct (forallb no_uri fetched); congruence. }
  subst rows.
  rewrite (merge_rows_quiet env update_all _ (keep_first fetched) _ Hq).
  reflexivity.
Qed.

Lemma X12_a_second_merge_writes_nothing_witness :
  exists c,
    merge_posts sample_env "did:abc" false [stored_post] merge_feed = Ok c
    /\ tx_log c <> []
    /\ merge_posts sample_env "did:abc" false (tx_posts c) merge_feed
       = Ok (mkTxn (tx_posts c) []).
Proof.
  eexists. split; [vm_compute; reflexivity|]. split; [discriminate|].
  apply (X12_a_second_merge_writes_nothing sample_env "did:abc" false
           [stored_post] merge_feed).
  - reflexivity.
  - vm_compute; reflexivity.
  - vm_compute; reflexivity.
  - intros _ c. reflexivity.
Defined.

(* ================================================================== *)
(** ** Further properties of the synchroniser: the other accounts *)
(* ================================================================== *)

Lemma NoDup_map_eq {A B} (f : A -> B) (l : list A) a b :
  NoDup (map f l) -> In a l -> In b l -> f a = f b -> a = b.
Proof.
  induction l as [|x l IH]; simpl; [tauto|].
  intros Hnd Ha Hb Hf. inversion Hnd as [|y l' Hnin Hnd']; subst.
  destruct Ha as [-> | Ha], Hb as [-> | Hb]; auto.
  - exfalso. apply Hnin. rewrite Hf. now apply in_map.
  - exfalso. apply Hnin. rewrite <- Hf. now apply in_map.
Qed.

Lemma map_uri_of_identity (l l' : list PostRow) :
  Permutation (map post_identity l') (map post_identity l) ->
  Permutation (map p_uri l') (map p_uri l).
Proof.
  intros H.
  assert (E : forall k : list PostRow,
             map p_uri k = map (fun i => fst (fst i)) (map post_identity k)).
  { intros k. rewrite map_map. reflexivity. }
  rewrite (E l), (E l'). now apply Permutation_map.
Qed.

Lemma update_post_sql_absent l r q rp now u t :
  (forall p, In p t -> p_uri p <> u) -> update_post_sql l r q rp now u t = t.
Proof.
  intros H. unfold update_post_sql. apply sql_update_none.
  intros p Hp. apply String.eqb_neq. now apply H.
Qed.

Section OtherAccounts.

Variable env : Env.

Lemma fetch_posts_written_by d update_all t fetched :
  fetch_posts env d update_all t = Ok fetched ->
  forallb (written_by d) fetched = true.
Proof.
  unfold fetch_posts. destruct (recursion_limit env) as [|depth]; [discriminate|].
  destruct (get_posts_for_actor_returns env depth d "" []
              (fetch_mode (count_posts d t) update_all)) as (more & E & Hby).
  rewrite E. intros H. inversion H; subst. exact Hby.
Qed.

(** The loop leaves the rows of an account alone when no row of the lookup
    has the URI of one of them. *)
Lemma merge_rows_isolated update_all tracked_posts d' t0 rows :
  (forall p ex, In p t0 -> In ex tracked_posts -> p_uri p <> p_uri ex) ->
  forall ms ms',
    merge_rows env update_all tracked_posts rows ms = Ok ms' ->
    filter (fun r => p_did r =? d') (tx_posts (ms_txn ms)) = t0 ->
    filter (fun r => p_did r =? d') (tx_posts (ms_txn ms')) = t0.
Proof.
  intros Hfar. induction rows as [|x rows IH]; intros ms ms' H H0; simpl in H.
  - inversion H; subst. reflexivity.
  - destruct (merge_row env update_all tracked_posts x ms) as [ms1|e] eqn:E;
      cbn [bind] in H; [|discriminate].
    apply (IH _ _ H). clear H IH.
    apply merge_step_complete in E.
    destruct E as
        [c Hc Hs
        | c u ex others l r q rp Hc Hs Hu Hst Hl Hr Hq Hrp Hsame
        | c u ex others l r q rp Hc Hs Hu Hst Hl Hr Hq Hrp Hdiff
        | c u a d l r q rp Hc Hs Hu Hst Ha Hd Hl Hr Hq Hrp];
      try exact H0.
    cbn [ms_txn tx_posts].
    change (fun r0 : PostRow => p_did r0 =? d') with (tracked_row env d' true).
    rewrite tracked_after_update.
    change (tracked_row env d' true) with (fun r0 : PostRow => p_did r0 =? d').
    rewrite H0. apply update_post_sql_absent.
    intros p Hp Hpu.
    assert (Hi : In ex (stored_for u tracked_posts)) by (rewrite Hst; now left).
    apply filter_In in Hi as [Hi1 Hi2]. apply String.eqb_eq in Hi2.
    apply (Hfar p ex Hp Hi1). congruence.
Qed.

(** The rows the loop queues are of the authors of the fetched rows. *)
Lemma merge_rows_inserts_by update_all tracked_posts d rows :
  forallb (written_by d) rows = true ->
  forall ms ms',
    merge_rows env update_all tracked_posts rows ms = Ok ms' ->
    (forall x, In x (posts_to_insert ms) -> p_did x = d) ->
    forall x, In x (posts_to_insert ms') -> p_did x = d.
Proof.
  induction rows as [|y rows IH]; intros Hby ms ms' H H0; simpl in H.
  - inversion H; subst. exact H0.
  - simpl in Hby. apply andb_true_iff in Hby as [Hy Hby].
    destruct (merge_row env update_all tracked_posts y ms) as [ms1|e] eqn:E;
      cbn [bind] in H; [|discriminate].
    apply (IH Hby _ _ H). clear H IH.
    apply merge_step_complete in E.
    destruct E as
        [c Hc Hs
        | c u ex others l r q rp Hc Hs Hu Hst Hl Hr Hq Hrp Hsame
        | c u ex others l r q rp Hc Hs Hu Hst Hl Hr Hq Hrp Hdiff
        | c u a dd l r q rp Hc Hs Hu Hst Ha Hd Hl Hr Hq Hrp];
      try exact H0.
    cbn [posts_to_insert]. intros x Hx. apply in_app_or in Hx as [Hx|[<-|[]]]; auto.
    cbn [p_did]. unfold written_by in Hy. rewrite Ha, Hd in Hy.
    now apply String.eqb_eq in Hy.
Qed.

(** The inserts of the commit keep the URIs of the table distinct. *)
Lemma insert_all_nodup rows :
  forall c c',
    insert_all rows c = Ok c' ->
    NoDup (map p_uri (tx_posts c)) -> NoDup (map p_uri (tx_posts c')).
Proof.
  induction rows as [|y rows IH]; intros c c' H Hnd; simpl in H.
  - inversion H; subst. exact Hnd.
  - unfold insert_post_sql in H.
    destruct (existsb (fun r => p_uri r =? p_uri y) (tx_posts c)) eqn:Ex; [discriminate|].
    cbn [bind] in H. apply (IH _ _ H). cbn [tx_posts].
    rewrite map_app. cbn [map].
    apply NoDup_app; [exact Hnd | repeat constructor; intros [] |].
    intros u Hu [<-|[]].
    apply in_map_iff in Hu as (p & Hp1 & Hp2).
    assert (Ht : existsb (fun r => p_uri r =? p_uri y) (tx_posts c) = true).
    { apply existsb_exists. exists p. split; [exact Hp2|]. now apply String.eqb_eq. }
    congruence.
Qed.

Lemma merge_posts_isolated d update_all t fetched c d' :
  merge_posts env d update_all t fetched = Ok c ->
  forallb (written_by d) fetched = true ->
  NoDup (map p_uri t) -> d' <> d ->
  NoDup (map p_uri (tx_posts c))
  /\ filter (fun r => p_did r =? d') (tx_posts c) = filter (fun r => p_did r =? d') t.
Proof.
  intros Hm Hby Hnd Hd.
  apply merge_posts_final in Hm as (ms & Hrows & Hins & Hposts & _).
  split.
  - apply (insert_all_nodup _ _ _ Hins).
    apply (merge_rows_identity env) in Hrows. apply map_uri_of_identity in Hrows.
    apply (Permutation_NoDup (Permutation_sym Hrows)). exact Hnd.
  - rewrite Hposts, filter_app.
    assert (Hfar : forall p ex,
               In p (filter (fun r => p_did r =? d') t) ->
               In ex (select_tracked env d update_all t) -> p_uri p <> p_uri ex).
    { intros p ex Hp Hex Hu.
      apply filter_In in Hp as [Hp1 Hp2]. apply String.eqb_eq in Hp2.
      rewrite select_tracked_filter in Hex. apply filter_In in Hex as [Hex1 Hex2].
      assert (p = ex) by (eapply NoDup_map_eq; eauto). subst ex.
      unfold tracked_row in Hex2.
      assert (Hpd : (p_did p =? d) = true).
      { destruct update_all; [exact Hex2|]. now apply andb_true_iff in Hex2 as [Hex2 _]. }
      apply String.eqb_eq in Hpd. congruence. }
    rewrite (merge_rows_isolated update_all _ d' _ (keep_first fetched) Hfar
               (merge_start t) ms Hrows eq_refl).
    replace (filter (fun r => p_did r =? d') (posts_to_insert ms)) with (@nil PostRow);
      [apply app_nil_r|].
    symmetry.
    assert (Hall : forall x, In x (posts_to_insert ms) -> p_did x = d).
    { apply (merge_rows_inserts_by update_all (select_tracked env d update_all t) d
               (keep_first fetched)) with (ms := merge_start t); auto.
      - apply forallb_forall. intros x Hx. apply keep_first_subset in Hx.
        rewrite forallb_forall in Hby. auto.
      - intros x []. }
    revert Hall. generalize (posts_to_insert ms) as l.
    induction l as [|x l IHl]; intros Hall; simpl; [reflexivity|].
    rewrite (Hall x (or_introl eq_refl)).
    destruct (String.eqb_spec d d') as [E|E]; [congruence|].
    apply IHl. intros z Hz. apply Hall. now right.
Qed.

End OtherAccounts.

Lemma update_posts_for_actor_isolated env d update_all st :
  NoDup (map p_uri (posts_table st)) ->
  let st' := snd (update_posts_for_actor env d update_all st) in
  NoDup (map p_uri (posts_table st'))
  /\ forall d', d' <> d ->
       filter (fun r => p_did r =? d') (posts_table st')
       = filter (fun r => p_did r =? d') (posts_table st).
Proof.
  intros Hnd st'. subst st'. unfold update_posts_for_actor, get_connection.
  destruct (connect env _); [|auto].
  unfold sync_transaction.
  destruct (fetch_posts env d update_all (posts_table st)) as [fetched|e] eqn:Ef;
    cbn [bind]; [|auto].
  apply fetch_posts_written_by in Ef.
  destruct fetched as [|x fetched]; [auto|].
  destruct (merge_posts env d update_all (posts_table st) (x :: fetched)) as [c|e] eqn:Em;
    cbn [bind]; [|auto].
  cbn [snd posts_table set_posts]. split.
  - destruct (String.eqb_spec d "") as [E|E].
    + apply (merge_posts_isolated env d update_all _ _ c "x" Em Ef Hnd).
      rewrite E. discriminate.
    + apply (merge_posts_isolated env d update_all _ _ c "" Em Ef Hnd). congruence.
  - intros d' Hd. apply (merge_posts_isolated env d update_all _ _ c d' Em Ef Hnd Hd).
Qed.

(** X13. With one stored post for a URI, as the unique key has it,
    [update_posts_for_actor] on one account leaves the posts of every
    other account as they are, whatever the provider returns and however
    the call ends: their rows, and so the engagement totals read from
    them, are the same before and after, and the table still has one post
    for a URI. *)
Theorem X13_posts_of_other_accounts_are_untouched :
  forall (env : Env) (d : string) (update_all : bool) (st : Store),
    NoDup (map p_uri (posts_table st)) ->
    let st' := snd (update_posts_for_actor env d update_all st) in
    NoDup (map p_uri (posts_table st'))
    /\ forall d', d' <> d ->
         filter (fun r => p_did r =? d') (posts_table st')
         = filter (fun r => p_did r =? d') (posts_table st)
         /\ engagement_query d' (posts_table st') = engagement_query d' (posts_table st).
Proof.
  intros env d update_all st Hnd st'.
  destruct (update_posts_for_actor_isolated env d update_all st Hnd) as [H1 H2].
  split; [exact H1|].
  intros d' Hd. split; [now apply H2|]. unfold engagement_query.
  subst st'. now rewrite (H2 d' Hd).
Qed.

Lemma X13_posts_of_other_accounts_are_untouched_witness :
  NoDup (map p_uri (posts_table two_accounts_store))
  /\ posts_table (snd (update_posts_for_actor sample_env "did:abc" false
                         two_accounts_store))
     <> posts_table two_accounts_store
  /\ (let st' := snd (update_posts_for_actor sample_env "did:abc" false
                        two_accounts_store) in
      NoDup (map p_uri (posts_table st'))
      /\ forall d', d' <> "did:abc" ->
           filter (fun r => p_did r =? d') (posts_table st')
           = filter (fun r => p_did r =? d') (posts_table two_accounts_store)
           /\ engagement_query d' (posts_table st')
              = engagement_query d' (posts_table two_accounts_store)).
Proof.
  assert (N : NoDup (map p_uri (posts_table two_accounts_store))).
  { cbn. repeat constructor; cbn; intuition discriminate. }
  split; [exact N|]. split; [vm_compute; discriminate|].
  exact (X13_posts_of_other_accounts_are_untouched sample_env "did:abc" false
           two_accounts_store N).
Defined.

(* ================================================================== *)
(** ** Further properties of the store: the accounts of a run *)
(* ================================================================== *)

Lemma pair_eqb_eq (x y : string * string) : pair_eqb x y = true <-> x = y.
Proof.
  unfold pair_eqb. destruct x as [a b], y as [c d]; simpl.
  rewrite andb_true_iff, !String.eqb_eq. split; [intros [-> ->]|intros H; inversion H]; auto.
Qed.

Lemma distinct_In x l : In x (distinct l) <-> In x l.
Proof.
  induction l as [|a l IH]; simpl; [tauto|]. split.
  - intros [->|H]; [now left|]. apply filter_In in H as [H _]. right. now apply IH.
  - intros [->|H]; [now left|].
    destruct (pair_eqb a x) eqn:E.
    + left. now apply pair_eqb_eq.
    + right. apply filter_In. split; [now apply IH | now rewrite E].
Qed.

Lemma distinct_NoDup l : NoDup (distinct l).
Proof.
  induction l as [|a l IH]; simpl; constructor.
  - intros H. apply filter_In in H as [_ H].
    assert (E : pair_eqb a a = true) by now apply pair_eqb_eq.
    rewrite E in H. discriminate.
  - now apply NoDup_filter.
Qed.

Lemma insert_by_handle_In x a l : In x (insert_by_handle a l) <-> x = a \/ In x l.
Proof.
  induction l as [|y l IH]; simpl; [intuition|].
  destruct (snd a <=? snd y); simpl; [intuition|]. rewrite IH. intuition.
Qed.

Lemma insert_by_handle_NoDup a l :
  NoDup l -> ~ In a l -> NoDup (insert_by_handle a l).
Proof.
  induction l as [|y l IH]; simpl; intros Hnd Hin.
  - repeat constructor. intros [].
  - destruct (snd a <=? snd y).
    + constructor; [simpl; exact Hin | exact Hnd].
    + inversion Hnd as [|z l' Hy Hl]; subst. constructor.
      * rewrite insert_by_handle_In. intros [->|H]; [apply Hin; now left | auto].
      * apply IH; [exact Hl | intros H; apply Hin; now right].
Qed.

Lemma order_by_handle_In x l : In x (order_by_handle l) <-> In x l.
Proof.
  unfold order_by_handle. induction l as [|a l IH]; simpl; [tauto|].
  rewrite insert_by_handle_In, IH. intuition.
Qed.

Lemma order_by_handle_NoDup l : NoDup l -> NoDup (order_by_handle l).
Proof.
  unfold order_by_handle. induction l as [|a l IH]; simpl; intros H; [constructor|].
  inversion H as [|z l' Ha Hl]; subst.
  apply insert_by_handle_NoDup; [now apply IH|].
  fold (order_by_handle l). now rewrite order_by_handle_In.
Qed.

(** X14. The accounts of a run, as [get_active_users] selects them with
    the activity query: an account is in the answer exactly when it is in
    [users] and [views] has a row of its DID dated within the last seven
    days, it is there once however many such views there are, and the
    store is left as it is. *)
Theorem X14_active_users_are_the_accounts_viewed_this_week :
  forall (env : Env) (st st' : Store) (users : list (string * string)),
    get_active_users env false st = (Ok users, st') ->
    st' = st
    /\ NoDup users
    /\ forall d h,
         In (d, h) users <->
         (exists u, In u (users_table st) /\ u_did u = d /\ u_handle u = h)
         /\ (exists v, In v (views_table st) /\ v_did v = d
                       /\ (toordinal (utc_now env) - 7 <= v_date v)%Z).
Proof.
  intros env st st' users. unfold get_active_users, get_connection.
  destruct (connect env _); [|intros H; discriminate H].
  intros H. inversion H; subst. clear H.
  split; [reflexivity|]. unfold active_users_query. cbv zeta.
  split; [apply order_by_handle_NoDup, distinct_NoDup|].
  intros d h. rewrite order_by_handle_In, distinct_In, in_flat_map. split.
  - intros (u & Hu & Hin). apply in_map_iff in Hin as (v & Hv & Hf).
    apply filter_In in Hf as [Hf1 Hf2]. apply andb_true_iff in Hf2 as [E1 E2].
    apply String.eqb_eq in E1. apply Z.leb_le in E2. inversion Hv; subst.
    split; [exists u; auto | exists v; auto].
  - intros [(u & Hu & <- & <-) (v & Hv & Hd & Hdate)].
    exists u. split; [exact Hu|]. apply in_map_iff. exists v. split; [reflexivity|].
    apply filter_In. split; [exact Hv|].
    apply andb_true_iff. split; [now apply String.eqb_eq | now apply Z.leb_le].
Qed.

Lemma X14_active_users_are_the_accounts_viewed_this_week_witness :
  get_active_users sample_env false viewed_store
  = (Ok [("did:abc", "abc.bsky.social")], viewed_store)
  /\ NoDup [("did:abc", "abc.bsky.social")]
  /\ forall d h,
       In (d, h) [("did:abc", "abc.bsky.social")] <->
       (exists u, In u (users_table viewed_store) /\ u_did u = d /\ u_handle u = h)
       /\ (exists v, In v (views_table viewed_store) /\ v_did v = d
                     /\ (toordinal (utc_now sample_env) - 7 <= v_date v)%Z).
Proof.
  assert (E : get_active_users sample_env false viewed_store
              = (Ok [("did:abc", "abc.bsky.social")], viewed_store))
    by (vm_compute; reflexivity).
  split; [exact E|].
  exact (proj2 (X14_active_users_are_the_accounts_viewed_this_week
                  sample_env viewed_store viewed_store _ E)).
Defined.

(* ================================================================== *)
(** ** C7: chunks the provider fails on *)
(* ================================================================== *)

Lemma run_tasks_futures env curr_date profiles :
  forall st futures st',
    run_tasks env profiles curr_date st = (Ok futures, st') ->
    Forall2 task_of profiles futures.
Proof.
  induction profiles as [|p ps IH]; intros st futures st' H; simpl in H.
  - inversion H; subst. constructor.
  - destruct (process_user_profile env p curr_date st) as [r0 st1] eqn:E.
    destruct (run_tasks env ps curr_date st1) as [[rs|e] st2] eqn:E2;
      inversion H; subst. clear H.
    constructor; [|eapply IH; eauto].
    destruct (process_user_profile_returns env p curr_date st) as (r & st0 & E').
    rewrite E in E'. inversion E'; subst. destruct r as [s|]; [|now left].
    right. exists s. split; [reflexivity|].
    destruct (process_user_profile_success env p curr_date st st0 s E)
      as (_ & -> & _). reflexivity.
Qed.

Lemma run_tasks_dates env curr_date profiles :
  forall st futures st',
    run_tasks env profiles curr_date st = (Ok futures, st') ->
    forall s, In (Ok (Some s)) futures -> sd_date s = curr_date.
Proof.
  induction profiles as [|p ps IH]; intros st futures st' H s Hin; simpl in H.
  - inversion H; subst. contradiction.
  - destruct (process_user_profile env p curr_date st) as [r0 st1] eqn:E.
    destruct (run_tasks env ps curr_date st1) as [[rs|e] st2] eqn:E2;
      inversion H; subst. clear H.
    destruct Hin as [-> | Hin]; [|eapply IH; eauto].
    destruct (process_user_profile_success env p curr_date st st1 s E)
      as (_ & -> & _). reflexivity.
Qed.

Lemma count_processed_accounts futures :
  count_processed futures = Z.of_nat (List.length (accounts_processed futures)).
Proof.
  unfold accounts_processed.
  induction futures as [|[[s|]|e] rest IH]; cbn [count_processed flat_map app List.length];
    try rewrite Nat2Z.inj_succ; lia.
Qed.

Lemma accounts_processed_in futures d :
  In d (accounts_processed futures) <->
  exists s, In (Ok (Some s)) futures /\ sd_did s = d.
Proof.
  unfold accounts_processed. rewrite in_flat_map. split.
  - intros ([[s|]|e] & Hin & Hd); simpl in Hd; try contradiction.
    destruct Hd as [<-|[]]. eauto.
  - intros (s & Hin & <-). exists (Ok (Some s)). split; [exact Hin | now left].
Qed.

Lemma update_log_sql_replaces date log_id duration total logs row :
  l_id row = log_id -> l_status row = in_progress ->
  ~ In row (update_log_sql date log_id duration total logs).
Proof.
  intros Hid Hst Hin. unfold update_log_sql in Hin.
  apply in_sql_update in Hin as [[_ Hn] | (r & _ & _ & E)].
  - rewrite Hid, Z.eqb_refl in Hn. discriminate.
  - rewrite E in Hst. discriminate.
Qed.

(** C7. When the three connections of the run itself open, the run
    returns whatever the provider does.  A chunk of account IDs whose
    fetch raises adds no profile, so the tasks are those of the profiles
    of the chunks that were fetched, one result for each profile: nothing,
    or a snapshot of the account of that profile.  The processed count the
    batch returns is the number of accounts for which a task gave a
    snapshot; each of them is the account of a fetched profile, and, the
    fetched profiles having different identifiers, has its row of the day
    in [snapshots].  The run log entry that was created in progress is
    replaced by the completed one, with that count and the duration. *)
Theorem C7_failed_chunks_do_not_fail_the_run :
  forall (env : Env) (use_simple_query : bool) (st : Store),
    connect env CallCreateSnapshotLog = true ->
    connect env CallGetActiveUsers = true ->
    connect env CallUpdateSnapshotLog = true ->
    let st1 := set_snapshot_logs st
                 (snapshot_logs_table st ++ [log_entry_created env st])%list in
    let user_chunks := _chunk_users (active_users_query env use_simple_query st1) 25 in
    let all_profiles := successful_profiles env user_chunks in
    collect_profiles env user_chunks [] = all_profiles
    /\ (forall chunk e,
           get_profiles env (map fst chunk) = Raise e ->
           successful_profiles env [chunk] = [])
    /\ exists futures st2 st3,
        let total := Z.of_nat (List.length (accounts_processed futures)) in
        run_tasks env all_profiles (date_str (utc_now env)) st1 = (Ok futures, st2)
        /\ Forall2 task_of all_profiles futures
        /\ count_processed futures = total
        /\ create_snapshots_batch env use_simple_query st1 = (Ok total, st2)
        /\ (forall d, In d (accounts_processed futures) ->
                      In d (map profile_did all_profiles))
        /\ (NoDup (map profile_did all_profiles) ->
            forall d, In d (accounts_processed futures) ->
                      exists r, In r (snapshots_table st2)
                                /\ s_did r = d /\ s_date r = date_str (utc_now env))
        /\ run_snapshot_collection env use_simple_query st = (Ok tt, st3)
        /\ In (log_entry_created env st) (snapshot_logs_table st2)
        /\ In (log_entry_completed env st total) (snapshot_logs_table st3)
        /\ ~ In (log_entry_created env st) (snapshot_logs_table st3).
Proof.
  intros env b st Hc1 Hc2 Hc3 st1 user_chunks all_profiles.
  split; [apply collect_profiles_successful|].
  split.
  { intros chunk e He. unfold successful_profiles. simpl. now rewrite He. }
  destruct (run_tasks_returns env (date_str (utc_now env)) all_profiles st1)
    as [futures [st2 [E [L _]]]].
  pose proof (frame_run_tasks env all_profiles (date_str (utc_now env)) st1) as Hfr.
  rewrite E in Hfr. destruct Hfr as (Hlogs & _ & _). simpl in Hlogs.
  pose proof (run_tasks_futures env _ _ _ _ _ E) as Htasks.
  assert (Hbatch : create_snapshots_batch env b st1 = (Ok (count_processed futures), st2)).
  { unfold create_snapshots_batch, mbind, get_active_users, get_connection.
    rewrite Hc2. rewrite collect_profiles_successful. simpl app.
    change (successful_profiles env (_chunk_users (active_users_query env b st1) 25))
      with all_profiles.
    destruct (active_users_query env b st1) as [|x l] eqn:Eu.
    - unfold all_profiles, user_chunks in E. try rewrite Eu in E. simpl in E.
      inversion E; subst. reflexivity.
    - simpl app. rewrite E. reflexivity. }
  exists futures, st2,
    (set_snapshot_logs st2
       (update_log_sql (utc_now env)
          (Z.of_nat (List.length (snapshot_logs_table st)) + 1)
          (time_end env - time_start env) (count_processed futures)
          (snapshot_logs_table st2))).
  cbv zeta. rewrite <- count_processed_accounts.
  split; [exact E|]. split; [exact Htasks|]. split; [reflexivity|].
  split; [exact Hbatch|].
  split.
  { intros d Hd. apply accounts_processed_in in Hd as (s & Hin & <-).
    clear - Htasks Hin. induction Htasks as [|p f ps fs Hpf _ IH]; [contradiction|].
    destruct Hin as [-> | Hin]; [|right; now apply IH].
    left. destruct Hpf as [C | (s' & C & Hd)]; [discriminate|].
    inversion C; subst. now symmetry. }
  split.
  { intros Hnd d Hd. apply accounts_processed_in in Hd as (s & Hin & <-).
    destruct (run_tasks_write_rows env _ _ _ _ _ Hnd E s Hin) as (r & Hr & Hd & Hdate & _).
    exists r. split; [exact Hr|]. split; [exact Hd|]. rewrite Hdate.
    exact (run_tasks_dates env _ _ _ _ _ E s Hin). }
  split.
  { unfold run_snapshot_collection, mbind.
    unfold create_snapshot_log, get_connection at 1. rewrite Hc1.
    fold (log_entry_created env st). fold st1. rewrite Hbatch.
    unfold update_snapshot_log, get_connection. rewrite Hc3. reflexivity. }
  split.
  { rewrite Hlogs. simpl. apply in_or_app. right. now left. }
  split.
  - simpl. rewrite Hlogs. simpl.
    apply (update_log_sql_completes (utc_now env) _ _ _ _ (log_entry_created env st)).
    reflexivity.
  - simpl. apply update_log_sql_replaces; reflexivity.
Qed.

(** The provider fails on the second of three chunks of a store of 51
    accounts: the run completes, the 26 accounts of the other two chunks
    are processed, and the run log holds the completed entry with the
    count 26. *)
Lemma C7_failed_chunks_do_not_fail_the_run_witness :
  connect partial_env CallCreateSnapshotLog = true
  /\ connect partial_env CallGetActiveUsers = true
  /\ connect partial_env CallUpdateSnapshotLog = true
  /\ is_ok (get_profiles partial_env chunk2) = false
  /\ exists st3,
      run_snapshot_collection partial_env true many_store = (Ok tt, st3)
      /\ snapshot_logs_table st3 = [log_entry_completed partial_env many_store 26]
      /\ List.length (snapshots_table st3) = 26%nat.
Proof.
  split; [reflexivity|]. split; [reflexivity|]. split; [reflexivity|].
  split; [vm_compute; reflexivity|].
  destruct (C7_failed_chunks_do_not_fail_the_run partial_env true many_store
              eq_refl eq_refl eq_refl)
    as (_ & _ & futures & st2 & st3 & _ & _ & _ & _ & _ & _ & Hrun & _ & _ & _).
  exists st3. split; [exact Hrun|].
  assert (E : st3 = snd (run_snapshot_collection partial_env true many_store))
    by (now rewrite Hrun).
  rewrite E. split; vm_compute; reflexivity.
Defined.

(* ================================================================== *)
(** ** C1: a second run of the batch *)
(* ================================================================== *)

(** *** What the task of one account leaves of the others *)






Section OthersKept.

Variable env : Env.










End OthersKept.

(** *** A second synchronisation of the posts of an account *)

Section SecondSync.

Variable env : Env.











End SecondSync.


(** *** A second task of an account, and a second run of the tasks *)

Section SecondRun.

Variable env : Env.











End SecondRun.





